(** * forexspace: the webhook trading bot ([Last_version.py], [Last_version1.py])

    A shallow embedding of the signal parser, the tenacity retry wrapper,
    the order execution paths of [TradingBot] and the trailing stop of
    [DynamicStopLossTakeProfit], followed by the properties checked on
    them.

    Conventions.
    - Text is a [string] of 8-bit characters, and [\w], [\d] and
      [str.lower] are the ASCII ones: the statements about the parser
      assume an ASCII payload ([isascii]).
    - A Python call either returns a value or raises; see [outcome].
    - Prices are of a type [F] with the operations of [PyFloat]; its
      instance is IEEE binary64, and what is proved about the order of
      prices is proved for its rounding.
    - The MetaTrader5 terminal is external: it is an interface
      ([Terminal]) and every theorem holds for all its implementations.
    - The parser is modelled as a function; its two log lines are left
      out. *)

From Stdlib Require Import String Ascii List ZArith Bool Lia.
From Stdlib Require Import DecimalString Uint63 Floats.
Import ListNotations.

Set Implicit Arguments.
Local Open Scope string_scope.

(* ================================================================== *)
(** * Python values shared by both revisions *)

(** Exceptions that the modelled paths can raise. *)
Inductive exn : Type :=
| Exception (msg : string)        (* raise Exception("Trade failed") *)
| ValueError (msg : string)       (* from_webhook, float(...) *)
| AttributeError (msg : string)   (* attribute access on None *)
| NameError (name : string)       (* unbound global *)
| IndexError (msg : string)       (* price_data[-1] on an empty list *)
| TypeError (msg : string)        (* iteration over None *)
| RetryError.                     (* tenacity.RetryError *)

(** ** Characters *)

(** Text is a string of 8-bit characters. The classes below are those of
    [re] on ASCII text; on a [str], [\w] and [\d] also match letters and
    digits outside ASCII, which this text does not hold: the statements
    about the parser are about ASCII payloads, see [isascii]. *)

Definition code (c : ascii) : nat := nat_of_ascii c.

(** [\d], for an ASCII character *)
Definition is_digit (c : ascii) : bool :=
  (48 <=? code c)%nat && (code c <=? 57)%nat.

Definition is_upper (c : ascii) : bool :=
  (65 <=? code c)%nat && (code c <=? 90)%nat.

Definition is_lower (c : ascii) : bool :=
  (97 <=? code c)%nat && (code c <=? 122)%nat.

(** [\w], for an ASCII character *)
Definition is_word (c : ascii) : bool :=
  is_digit c || is_upper c || is_lower c || (code c =? 95)%nat.

(** [[\w/]] *)
Definition is_word_or_slash (c : ascii) : bool :=
  is_word c || (code c =? 47)%nat.

(** [.] : any character but the line feed *)
Definition is_dot (c : ascii) : bool := negb (code c =? 10)%nat.

Definition lower_char (c : ascii) : ascii :=
  if is_upper c then ascii_of_nat (code c + 32) else c.

(** [str.lower] *)
Fixpoint lower (s : string) : string :=
  match s with
  | EmptyString => EmptyString
  | String c s' => String (lower_char c) (lower s')
  end.

Fixpoint all_chars (p : ascii -> bool) (s : string) : bool :=
  match s with
  | EmptyString => true
  | String c s' => p c && all_chars p s'
  end.

(** [str.isascii] *)
Definition isascii (s : string) : bool :=
  all_chars (fun c => (code c <? 128)%nat) s.

(** [x in xs] for a list of strings *)
Fixpoint str_in (x : string) (xs : list string) : bool :=
  match xs with
  | [] => false
  | y :: ys => (x =? y) || str_in x ys
  end.

(* ================================================================== *)
(** * The [re] engine, as far as [from_webhook] uses it *)

Module Re.

(** The constructs of the pattern of [from_webhook]. *)
Inductive regex : Type :=
| Lit (l : string)               (* literal text *)
| Plus (cls : ascii -> bool)     (* [cls+], greedy *)
| Star (cls : ascii -> bool)     (* [cls*], greedy *)
| Cat (r1 r2 : regex)            (* r1 r2 *)
| Group (r : regex)              (* ( r ) *)
| Opt (r : regex).               (* r ?, greedy *)

Fixpoint ngroups (r : regex) : nat :=
  match r with
  | Lit _ | Plus _ | Star _ => 0
  | Cat r1 r2 => ngroups r1 + ngroups r2
  | Group r1 => S (ngroups r1)
  | Opt r1 => ngroups r1
  end.

(** The rest of [s] after the literal [l], if [s] starts with it. *)
Fixpoint strip (l s : string) : option string :=
  match l with
  | EmptyString => Some s
  | String a l' =>
      match s with
      | String b s' => if Ascii.eqb a b then strip l' s' else None
      | EmptyString => None
      end
  end.

(** The text of [s] before its suffix [rest]. *)
Definition consumed (s rest : string) : string :=
  substring 0 (String.length s - String.length rest) s.

(** Captured groups, in closing order; [None] is an unmatched group. *)
Definition groups := list (option string).

Section Matcher.
Variable A : Type.

(** Greedy repetition of one character class: the longest run first,
    then shorter ones while the continuation fails. *)
Fixpoint repeat_greedy (cls : ascii -> bool) (s : string)
         (k : string -> option A) : option A :=
  match s with
  | String c s' =>
      if cls c then
        match repeat_greedy cls s' k with
        | Some x => Some x
        | None => k s
        end
      else k s
  | EmptyString => k s
  end.

(** Backtracking match of [r] at the start of [s]; [k] is what remains
    of the pattern. *)
Fixpoint run (r : regex) (s : string) (caps : groups)
         (k : string -> groups -> option A) : option A :=
  match r with
  | Lit l =>
      match strip l s with
      | Some s' => k s' caps
      | None => None
      end
  | Plus cls =>
      match s with
      | String c s' =>
          if cls c then repeat_greedy cls s' (fun t => k t caps) else None
      | EmptyString => None
      end
  | Star cls => repeat_greedy cls s (fun t => k t caps)
  | Cat r1 r2 => run r1 s caps (fun s1 caps1 => run r2 s1 caps1 k)
  | Group r1 =>
      run r1 s caps (fun s1 caps1 => k s1 (caps1 ++ [Some (consumed s s1)])%list)
  | Opt r1 =>
      match run r1 s caps k with
      | Some x => Some x
      | None => k s (caps ++ repeat None (ngroups r1))%list
      end
  end.
End Matcher.

(** [re.match(pattern, s)]: anchored at the start only; the result is
    [match.groups()]. *)
Definition re_match (pattern : regex) (s : string) : option groups :=
  run pattern s [] (fun _ caps => Some caps).

(** [r] matches exactly the text [s], capturing [g]. *)
Inductive matches : regex -> string -> groups -> Prop :=
| MLit l : matches (Lit l) l []
| MPlus cls c s :
    cls c = true -> all_chars cls s = true -> matches (Plus cls) (String c s) []
| MStar cls s : all_chars cls s = true -> matches (Star cls) s []
| MCat r1 r2 s1 s2 g1 g2 :
    matches r1 s1 g1 -> matches r2 s2 g2 ->
    matches (Cat r1 r2) (s1 ++ s2) (g1 ++ g2)%list
| MGroup r s g : matches r s g -> matches (Group r) s (g ++ [Some s])%list
| MOptSome r s g : matches r s g -> matches (Opt r) s g
| MOptNone r : matches (Opt r) "" (repeat None (ngroups r)).

End Re.

Infix "+++" := Re.Cat (at level 61, right associativity).

(* ================================================================== *)
(** * [TradingSignal] *)

Inductive ActionType : Type := BUY | SELL | CLOSE.

(** [ActionType.X.value] *)
Definition value (a : ActionType) : string :=
  match a with BUY => "BUY" | SELL => "SELL" | CLOSE => "CLOSE" end.

(** The fields hold what [match.groups()] holds: four strings and, for
    [position_closed], a string or [None]. *)
Record TradingSignal : Type := mkSignal {
  action : string;
  symbol : string;
  volume : string;
  open_position : string;
  position_closed : option string
}.

Definition normalize_action (self : TradingSignal) : TradingSignal :=
  if str_in (lower (action self)) ["enter_long"; "buy"] then
    mkSignal "BUY" (symbol self) (volume self) (open_position self)
             (position_closed self)
  else if str_in (lower (action self)) ["enter_short"; "sell"] then
    mkSignal "SELL" (symbol self) (volume self) (open_position self)
             (position_closed self)
  else self.

(** The pattern of [from_webhook],
      action=(\w+);symbol=([\w/]+);volume=(D);open_position=(D);position_closed=(\w+_\d+)?
    where D stands for the greedy dot-star. *)
Definition pattern : Re.regex :=
  Re.Lit "action=" +++ Re.Group (Re.Plus is_word) +++
  Re.Lit ";symbol=" +++ Re.Group (Re.Plus is_word_or_slash) +++
  Re.Lit ";volume=" +++ Re.Group (Re.Star is_dot) +++
  Re.Lit ";open_position=" +++ Re.Group (Re.Star is_dot) +++
  Re.Lit ";position_closed=" +++
  Re.Opt (Re.Group (Re.Plus is_word +++ Re.Lit "_" +++ Re.Plus is_digit)).

Definition invalid_webhook : exn := ValueError "Invalid webhook data".

(** [cls] applied to [match.groups()]; the pattern has five groups and only the
    last can be unmatched. *)
Definition from_groups (g : Re.groups) : exn + TradingSignal :=
  match g with
  | [Some a; Some sy; Some v; Some o; pc] => inr (mkSignal a sy v o pc)
  | _ => inl (TypeError "TradingSignal arguments")
  end.

Definition from_webhook (webhook_data : string) : exn + TradingSignal :=
  match Re.re_match pattern webhook_data with
  | None => inl invalid_webhook
  | Some g => from_groups g
  end.

(* ================================================================== *)
(** * Python objects and calls *)

(** A call returns or raises. *)
Inductive outcome (A : Type) : Type :=
| Returned (a : A)
| Raised (e : exn).

Arguments Returned {A} a.
Arguments Raised {A} e.

(** [str(e)] for the exceptions of [exn]; the text of a [RetryError],
    which holds an address, is cut to its name. *)
Definition str_exn (e : exn) : string :=
  match e with
  | Exception msg | ValueError msg | AttributeError msg
  | IndexError msg | TypeError msg => msg
  | NameError name => "name '" ++ name ++ "' is not defined"
  | RetryError => "RetryError"
  end.

(** [needle in hay] for strings *)
Fixpoint contains (needle hay : string) : bool :=
  if prefix needle hay then true
  else match hay with
       | EmptyString => false
       | String _ hay' => contains needle hay'
       end.

(** [str(n)] for an int *)
Definition str_int (n : Z) : string :=
  DecimalString.NilZero.string_of_int (Z.to_int n).

(** What the two sides of [signal.action == ActionType.BUY] are: a [str]
    and a member of the plain [Enum] class [ActionType]. *)
Inductive pyval : Type :=
| PStr (s : string)
| PMember (a : ActionType).

Definition ActionType_eqb (a b : ActionType) : bool :=
  match a, b with
  | BUY, BUY | SELL, SELL | CLOSE, CLOSE => true
  | _, _ => false
  end.

(** [x == y]: strings compare by content, members of a plain [Enum] by
    identity, and a string never equals a member. *)
Definition py_eq (x y : pyval) : bool :=
  match x, y with
  | PStr s, PStr t => (s =? t)%string
  | PMember a, PMember b => ActionType_eqb a b
  | _, _ => false
  end.

(** The arithmetic of Python's [float], as far as the bot uses it:
    [x + y], [x - y], [x * y] and [x < y] ([x > y] is [y < x]).
    [float_of_str] is the builtin [float] on a string; [None] stands for
    its [ValueError]. *)
Class PyFloat (F : Type) : Type := {
  fadd : F -> F -> F;
  fsub : F -> F -> F;
  fmul : F -> F -> F;
  fltb : F -> F -> bool;
  float_of_str : string -> option F
}.

(** Digits of a plain decimal literal: the value of the digit string
    read as an integer. *)
Fixpoint digits_value (acc : Z) (s : string) : option Z :=
  match s with
  | EmptyString => Some acc
  | String c s' =>
      if is_digit c then digits_value (10 * acc + Z.of_nat (code c - 48)) s'
      else None
  end.

(** The text before and after the first dot. *)
Fixpoint split_dot (s : string) : string * option string :=
  match s with
  | EmptyString => (EmptyString, None)
  | String c s' =>
      if (code c =? 46)%nat then (EmptyString, Some s')
      else let (a, b) := split_dot s' in (String c a, b)
  end.

(** A literal [sign digits . digits] as numerator and power of ten of
    the denominator; other spellings that [float] accepts (exponents,
    [inf], blanks) are outside this reader. *)
Definition decimal_of_str (s : string) : option (Z * nat) :=
  let (neg, body) :=
    match s with
    | String c s' =>
        if (code c =? 45)%nat then (true, s')
        else if (code c =? 43)%nat then (false, s') else (false, s)
    | EmptyString => (false, s)
    end in
  let (int_part, frac) := split_dot body in
  let frac_part := match frac with Some f => f | None => EmptyString end in
  match (String.length int_part + String.length frac_part)%nat with
  | O => None
  | _ =>
      match digits_value 0 (int_part ++ frac_part) with
      | Some n => Some (if neg then (- n)%Z else n, String.length frac_part)
      | None => None
      end
  end.

Definition float_of_Z (n : Z) : float :=
  match n with
  | Z0 => PrimFloat.zero
  | Zpos _ => PrimFloat.of_uint63 (Uint63.of_Z n)
  | Zneg _ => PrimFloat.opp (PrimFloat.of_uint63 (Uint63.of_Z (- n)))
  end.

(** IEEE 754 binary64, as CPython computes. The reader divides two
    exactly represented integers, which rounds once: it is [float] on
    literals of at most 15 digits. *)
#[export] Instance binary64 : PyFloat float := {
  fadd := PrimFloat.add;
  fsub := PrimFloat.sub;
  fmul := PrimFloat.mul;
  fltb := PrimFloat.ltb;
  float_of_str := fun s =>
    match decimal_of_str s with
    | Some (n, k) =>
        if (Z.abs n <? 10 ^ 15)%Z && (k <=? 15)%nat
        then Some (PrimFloat.div (float_of_Z n) (float_of_Z (10 ^ Z.of_nat k)))
        else None
    | None => None
    end
}.

(* ================================================================== *)
(** * The MetaTrader5 terminal *)

(** [mt5.POSITION_TYPE_BUY], [mt5.POSITION_TYPE_SELL] *)
Inductive position_type : Type := POSITION_TYPE_BUY | POSITION_TYPE_SELL.

(** [mt5.ORDER_TYPE_BUY], [mt5.ORDER_TYPE_SELL] *)
Inductive order_type : Type := ORDER_TYPE_BUY | ORDER_TYPE_SELL.

(** [mt5.ORDER_FILLING_FOK], [mt5.ORDER_FILLING_IOC] *)
Inductive order_filling : Type := ORDER_FILLING_FOK | ORDER_FILLING_IOC.

(** [mt5.TRADE_ACTION_DEAL] and [mt5.ORDER_TIME_GTC] are the only values
    of their kind in the source. *)
Inductive trade_action : Type := TRADE_ACTION_DEAL.
Inductive order_time : Type := ORDER_TIME_GTC.

Definition TRADE_RETCODE_DONE : Z := 10009.

(** An open position, as [mt5.positions_get] reports it. *)
Module Pos.
Record t (F : Type) : Type := mk {
  ticket : Z;
  symbol : string;
  type_ : position_type;
  volume : F;
  comment : string
}.
End Pos.

(** The request dictionary passed to [mt5.order_send]. An entry has the
    keys [sl] and [tp] and no [position]; a close has [position] and no
    [sl], [tp]. *)
Module Req.
Record t (F : Type) : Type := mk {
  action : trade_action;
  symbol : string;
  volume : F;
  type_ : order_type;
  price : F;
  sl : option F;
  tp : option F;
  deviation : Z;
  magic : Z;
  comment : string;
  type_time : order_time;
  type_filling : order_filling;
  position : option Z
}.
End Req.

Record Tick (F : Type) : Type := mkTick { bid : F; ask : F }.
Record SymbolInfo (F : Type) : Type := mkInfo { point : F }.
Record OrderSendResult : Type := mkResult { retcode : Z }.
Record Rate (F : Type) : Type := mkRate { high : F; low : F; close : F }.

(** The calls the bot makes on the [MetaTrader5] module, over a terminal
    state [B]. A query that fails returns [None], as the module does. *)
Class Terminal (F B : Type) : Type := {
  positions_get : B -> option (list (Pos.t F));
  symbol_info_tick : B -> string -> option (Tick F);
  symbol_info : B -> string -> option (SymbolInfo F);
  order_send : B -> Req.t F -> option OrderSendResult * B
}.

(* ================================================================== *)
(** * The world a call runs in *)

Inductive day : Type :=
| Monday | Tuesday | Wednesday | Thursday | Friday | Saturday | Sunday.

(** [beijing_time]: the hour and the day of the Asia/Shanghai wall clock. *)
Record datetime : Type := mkTime { hour : Z; day_of_week : day }.

(** [datetime.weekday()] *)
Definition weekday (t : datetime) : Z :=
  match day_of_week t with
  | Monday => 0 | Tuesday => 1 | Wednesday => 2 | Thursday => 3
  | Friday => 4 | Saturday => 5 | Sunday => 6
  end.

(** Records of the root logger, whose level is INFO: the [debug] calls
    of the source, and tenacity's [after_log] at DEBUG, emit nothing. *)
Inductive LogRecord : Type :=
| LogInfo (msg : string)
| LogError (msg : string)
| LogExecuting (signal : TradingSignal)   (* "Executing order: %s" *)
| LogLastError.                           (* logging.error(mt5.last_error()) *)

(** The bodies of the decorated methods, as a tracer would see them
    entered. *)
Inductive Call : Type :=
| CallEnterLong (signal : TradingSignal)
| CallEnterShort (signal : TradingSignal)
| CallClose (comment : string).

(** What an entry or a close returns: [None] or the result of
    [mt5.order_send]. [PyExc] is an exception object returned as a value;
    no modelled method returns one. *)
Inductive pyobj : Type :=
| PyNone
| PyResult (r : OrderSendResult)
| PyExc (e : exn).

(** ** Methods: state and exceptions *)

Section Monad.
Variable S : Type.

(** A method over the mutable state [S]: it returns or raises, and
    leaves a state either way. *)
Definition M (A : Type) : Type := S -> outcome A * S.

Definition ret {A} (a : A) : M A := fun s => (Returned a, s).

Definition raise {A} (e : exn) : M A := fun s => (Raised e, s).

Definition bind {A C} (m : M A) (k : A -> M C) : M C :=
  fun s =>
    match m s with
    | (Returned a, s') => k a s'
    | (Raised e, s') => (Raised e, s')
    end.

(** [try: m except Exception as err: h err] *)
Definition try_except {A} (m : M A) (h : exn -> M A) : M A :=
  fun s =>
    match m s with
    | (Returned a, s') => (Returned a, s')
    | (Raised e, s') => h e s'
    end.

Definition get : M S := fun s => (Returned s, s).

Definition put (s : S) : M unit := fun _ => (Returned tt, s).

(** [for x in xs: body x] *)
Fixpoint for_each {X} (xs : list X) (body : X -> M unit) : M unit :=
  match xs with
  | [] => ret tt
  | x :: xs' => bind (body x) (fun _ => for_each xs' body)
  end.

(** [obj.name] where [obj] may be [None] *)
Definition attr {X A} (obj : option X) (proj : X -> A) (name : string) : M A :=
  match obj with
  | Some x => ret (proj x)
  | None =>
      raise (AttributeError ("'NoneType' object has no attribute '" ++ name ++ "'"))
  end.

End Monad.

Arguments ret {S A} a.
Arguments raise {S A} e.
Arguments get {S}.

Notation "x <- c1 ;; c2" := (bind c1 (fun x => c2))
  (at level 61, c1 at next level, right associativity).
Notation "c1 ;;; c2" := (bind c1 (fun _ => c2))
  (at level 61, right associativity).

(** ** The state of the bot's process *)

Section World.
Context {F : Type} {PF : PyFloat F} {B : Type} {T : Terminal F B}.

Record World : Type := mkWorld {
  mt5 : B;                      (* the terminal *)
  now : datetime;               (* the wall clock, Asia/Shanghai *)
  sent : list (Req.t F);        (* requests given to mt5.order_send *)
  logged : list LogRecord;      (* records emitted *)
  slept : nat;                  (* seconds spent in tenacity's wait *)
  calls : list Call             (* decorated bodies entered *)
}.

Definition log (r : LogRecord) : M World unit :=
  fun w => (Returned tt,
            mkWorld (mt5 w) (now w) (sent w) (logged w ++ [r]) (slept w) (calls w)).

Definition enter (c : Call) : M World unit :=
  fun w => (Returned tt,
            mkWorld (mt5 w) (now w) (sent w) (logged w) (slept w) (calls w ++ [c])).

Definition sleep (seconds : nat) (w : World) : World :=
  mkWorld (mt5 w) (now w) (sent w) (logged w) (slept w + seconds) (calls w).

Definition mt5_positions_get : M World (option (list (Pos.t F))) :=
  fun w => (Returned (positions_get (mt5 w)), w).

Definition mt5_symbol_info_tick (sym : string) : M World (option (Tick F)) :=
  fun w => (Returned (symbol_info_tick (mt5 w) sym), w).

Definition mt5_symbol_info (sym : string) : M World (option (SymbolInfo F)) :=
  fun w => (Returned (symbol_info (mt5 w) sym), w).

Definition mt5_order_send (request : Req.t F) : M World (option OrderSendResult) :=
  fun w =>
    let (result, terminal) := order_send (mt5 w) request in
    (Returned result,
     mkWorld terminal (now w) (sent w ++ [request]) (logged w) (slept w) (calls w)).

(** [float(s)] *)
Definition py_float (s : string) : M World F :=
  match float_of_str s with
  | Some x => ret x
  | None => raise (ValueError ("could not convert string to float: '" ++ s ++ "'"))
  end.

End World.

Arguments World F B : clear implicits.

(* ================================================================== *)
(** * tenacity *)

(** [is_requote_error] *)
Definition is_requote_error (result : pyobj) : bool :=
  match result with
  | PyExc e => contains "Trade failed" (str_exn e)
  | PyNone | PyResult _ => false
  end.

Section Tenacity.
Context {F B : Type}.

(** The loop of
    [@retry(retry=retry_if_result(p), stop=stop_after_attempt(n), wait=wait_fixed(1), reraise=True)]
    with [left] attempts to go. [retry_if_result] looks at returned values
    only: an attempt that raises is not retried and its exception leaves
    the loop. A returned value that satisfies [p] is retried after the
    wait, until the attempts are used up; then [RetryError] is raised,
    since [reraise] re-raises only the exception of a last attempt that
    raised. *)
Fixpoint retrying (p : pyobj -> bool) (left : nat) (fn : M (World F B) pyobj)
  : M (World F B) pyobj :=
  fun w =>
    match left with
    | O => (Raised RetryError, w)
    | S left' =>
        match fn w with
        | (Raised e, w1) => (Raised e, w1)
        | (Returned result, w1) =>
            if p result then
              match left' with
              | O => (Raised RetryError, w1)
              | S _ => retrying p left' fn (sleep 1 w1)
              end
            else (Returned result, w1)
        end
    end.

(** The decorator of [enter_long], [enter_short] and
    [close_position_by_comment]. *)
Definition retry (fn : M (World F B) pyobj) : M (World F B) pyobj :=
  retrying is_requote_error 5 fn.

End Tenacity.

(* ================================================================== *)
(** * [TradingBot] *)

(** The two revisions of the source. *)
Inductive revision : Type := Last_version | Last_version1.

(** The [trading] table of [config.toml]. *)
Record Config (F : Type) : Type := mkConfig {
  stop_loss_pips : F;
  take_profit_pips : F
}.

(** The attributes set by [__init__]; [magic_number] and [deviation]
    exist in [Last_version1.py] only. *)
Record TradingBot : Type := mkBot {
  login : Z;
  password : string;
  server : string;
  magic_number : Z;
  deviation : Z
}.

(** [day_of_week >= 5 or (hour >= 4 and hour < 7)], with 6 for 4 in
    [Last_version1.py]; the value returned is [tradetime]. *)
Definition tradetime (rev : revision) (beijing_time : datetime) : Z :=
  let hour := hour beijing_time in
  let day_of_week := weekday beijing_time in
  match rev with
  | Last_version =>
      if (day_of_week >=? 5)%Z || ((hour >=? 4)%Z && (hour <? 7)%Z)
      then 0%Z else 1%Z
  | Last_version1 =>
      if (day_of_week >=? 5)%Z || ((hour >=? 6)%Z && (hour <? 7)%Z)
      then 0%Z else 1%Z
  end.

Section TradingBot.
Context {F : Type} {PF : PyFloat F} {B : Type} {T : Terminal F B}.
Variable rev : revision.
Variable config : Config F.
Variable self : TradingBot.

Local Abbreviation Cmd := (M (World F B)).

(** A read of a module-level name. [Last_version.py] binds
    [stop_loss_pips] and [take_profit_pips] at import; in
    [Last_version1.py] they are locals of [Config.get_parameters] and
    [main], and no module-level name. *)
Definition module_global (name : string) (v : F) : Cmd F :=
  match rev with
  | Last_version => ret v
  | Last_version1 => raise (NameError name)
  end.

(** [signal.action == ActionType.X] in [Last_version.py],
    [signal.action == "X"] in [Last_version1.py]. *)
Definition action_is (signal : TradingSignal) (a : ActionType) : bool :=
  match rev with
  | Last_version => py_eq (PStr (action signal)) (PMember a)
  | Last_version1 => py_eq (PStr (action signal)) (PStr (value a))
  end.

Definition entry_deviation : Z :=
  match rev with Last_version => 20 | Last_version1 => deviation self end.

Definition close_deviation : Z :=
  match rev with Last_version => 30 | Last_version1 => deviation self + 10 end.

Definition magic_of : Z :=
  match rev with Last_version => 234000 | Last_version1 => magic_number self end.

Definition is_trading_time : Cmd Z :=
  fun w => (Returned (tradetime rev (now w)), w).

(** The check after [mt5.order_send] in the two entry methods. *)
Definition entry_result (trade_result : option OrderSendResult) (done : string)
  : Cmd pyobj :=
  code_ <- attr trade_result retcode "retcode" ;;
  if negb (code_ =? TRADE_RETCODE_DONE)%Z then
    log (LogError ("Trade failed, retcode=" ++ str_int code_)) ;;;
    log LogLastError ;;;
    raise (Exception "Trade failed")
  else
    log (LogInfo done) ;;;
    ret (match trade_result with Some r => PyResult r | None => PyNone end).

(** The [trade_request] dictionary of [enter_long]. *)
Definition long_request (signal : TradingSignal)
           (ask point volume stop_loss_pips take_profit_pips : F) : Req.t F :=
  Req.mk TRADE_ACTION_DEAL (symbol signal) volume ORDER_TYPE_BUY ask
         (Some (fsub ask (fmul stop_loss_pips point)))
         (Some (fadd ask (fmul take_profit_pips point)))
         entry_deviation magic_of (open_position signal)
         ORDER_TIME_GTC ORDER_FILLING_IOC None.

(** The function under the decorator of [enter_long]. *)
Definition enter_long_wrapped (signal : TradingSignal) : Cmd pyobj :=
  enter (CallEnterLong signal) ;;;
  symbol_info_tick <- mt5_symbol_info_tick (symbol signal) ;;
  ask <- attr symbol_info_tick (fun t => ask t) "ask" ;;
  info <- mt5_symbol_info (symbol signal) ;;
  point <- attr info (fun i => point i) "point" ;;
  volume <- py_float (volume signal) ;;
  stop_loss_pips <- module_global "stop_loss_pips" (stop_loss_pips config) ;;
  take_profit_pips <- module_global "take_profit_pips" (take_profit_pips config) ;;
  trade_result <-
    mt5_order_send
      (long_request signal ask point volume stop_loss_pips take_profit_pips) ;;
  entry_result trade_result
    ("Enter long " ++ open_position signal ++ " processed successfully!").

Definition enter_long (signal : TradingSignal) : Cmd pyobj :=
  retry (enter_long_wrapped signal).

(** The [trade_request] dictionary of [enter_short]. *)
Definition short_request (signal : TradingSignal)
           (bid point volume stop_loss_pips take_profit_pips : F) : Req.t F :=
  Req.mk TRADE_ACTION_DEAL (symbol signal) volume ORDER_TYPE_SELL bid
         (Some (fadd bid (fmul stop_loss_pips point)))
         (Some (fsub bid (fmul take_profit_pips point)))
         entry_deviation magic_of (open_position signal)
         ORDER_TIME_GTC ORDER_FILLING_IOC None.

(** The function under the decorator of [enter_short]. *)
Definition enter_short_wrapped (signal : TradingSignal) : Cmd pyobj :=
  enter (CallEnterShort signal) ;;;
  symbol_info_tick <- mt5_symbol_info_tick (symbol signal) ;;
  bid <- attr symbol_info_tick (fun t => bid t) "bid" ;;
  info <- mt5_symbol_info (symbol signal) ;;
  point <- attr info (fun i => point i) "point" ;;
  volume <- py_float (volume signal) ;;
  stop_loss_pips <- module_global "stop_loss_pips" (stop_loss_pips config) ;;
  take_profit_pips <- module_global "take_profit_pips" (take_profit_pips config) ;;
  trade_result <-
    mt5_order_send
      (short_request signal bid point volume stop_loss_pips take_profit_pips) ;;
  entry_result trade_result
    ("Enter short " ++ open_position signal ++ " processed successfully!").

Definition enter_short (signal : TradingSignal) : Cmd pyobj :=
  retry (enter_short_wrapped signal).

(** The first loop of [close_position_by_comment]: [position_info]. *)
Fixpoint find_position (comment : string) (positions : list (Pos.t F))
  : option (Pos.t F) :=
  match positions with
  | [] => None
  | position :: rest =>
      if (Pos.comment position =? comment)%string then Some position
      else find_position comment rest
  end.

(** The [trade_request] dictionary of [close_position_by_comment]: the
    opposite side at the opposing price, the position's own volume and
    ticket. *)
Definition close_request (position : Pos.t F) (bid ask : F) : Req.t F :=
  let is_buy :=
    match Pos.type_ position with
    | POSITION_TYPE_BUY => true
    | POSITION_TYPE_SELL => false
    end in
  Req.mk TRADE_ACTION_DEAL (Pos.symbol position) (Pos.volume position)
         (if is_buy then ORDER_TYPE_SELL else ORDER_TYPE_BUY)
         (if is_buy then bid else ask)
         None None close_deviation magic_of
         ("closed " ++ str_int (Pos.ticket position))
         ORDER_TIME_GTC ORDER_FILLING_FOK (Some (Pos.ticket position)).

(** The body of the second loop, for a position whose comment matches.
    Every path through it leaves the method. The locals [sl] and [tp]
    computed there are not part of the request and are left out. *)
Definition close_one (comment : string) (position : Pos.t F) : Cmd pyobj :=
  symbol_info_tick <- mt5_symbol_info_tick (Pos.symbol position) ;;
  bid <- attr symbol_info_tick (fun t => bid t) "bid" ;;
  ask <- attr symbol_info_tick (fun t => ask t) "ask" ;;
  info <- mt5_symbol_info (Pos.symbol position) ;;
  point <- attr info (fun i => point i) "point" ;;
  trade_result <- mt5_order_send (close_request position bid ask) ;;
  match trade_result with
  | None => log (LogError "Error: Order send result is None") ;;; ret PyNone
  | Some r =>
      if negb (retcode r =? TRADE_RETCODE_DONE)%Z then
        log (LogError ("Trade failed, retcode=" ++ str_int (retcode r))) ;;;
        log LogLastError ;;;
        raise (Exception "Trade failed")
      else
        log (LogInfo ("Close " ++ comment ++ " processed successfully!")) ;;;
        ret (PyResult r)
  end.

(** The second loop of [close_position_by_comment]. *)
Fixpoint close_matching (comment : string) (positions : list (Pos.t F))
  : Cmd pyobj :=
  match positions with
  | [] => ret PyNone
  | position :: rest =>
      if (Pos.comment position =? comment)%string
      then close_one comment position
      else close_matching comment rest
  end.

(** The function under the decorator of [close_position_by_comment]. *)
Definition close_position_by_comment_wrapped (comment : string) : Cmd pyobj :=
  enter (CallClose comment) ;;;
  positions <- mt5_positions_get ;;
  match positions with
  | None => log (LogError "Error: Unable to retrieve positions") ;;; ret PyNone
  | Some positions =>
      match find_position comment positions with
      | None =>
          log (LogError ("Error: Position with comment " ++ comment
                         ++ " does not exist")) ;;;
          ret PyNone
      | Some _ => close_matching comment positions
      end
  end.

Definition close_position_by_comment (comment : string) : Cmd pyobj :=
  retry (close_position_by_comment_wrapped comment).

Definition close_all_positions : Cmd unit :=
  positions <- mt5_positions_get ;;
  match positions with
  | None => log (LogError "Error: Unable to retrieve positions")
  | Some positions =>
      for_each positions
        (fun position =>
           close_position_by_comment (Pos.comment position) ;;; ret tt)
  end.

(** Truth of [signal.position_closed]: neither [None] nor empty. *)
Definition close_tag (signal : TradingSignal) : option string :=
  match position_closed signal with
  | Some EmptyString | None => None
  | Some tag => Some tag
  end.

Definition close_old (signal : TradingSignal) : Cmd unit :=
  match close_tag signal with
  | Some tag => close_position_by_comment tag ;;; ret tt
  | None => ret tt
  end.

Definition execute_order (signal : TradingSignal) : Cmd unit :=
  log (LogExecuting signal) ;;;
  try_except
    (t <- is_trading_time ;;
     if negb (t =? 0)%Z && negb (open_position signal =? "")%string then
       if action_is signal BUY then
         enter_long signal ;;; close_old signal
       else if action_is signal SELL then
         enter_short signal ;;; close_old signal
       else log (LogError "Action is not supported.")
     else
       t' <- is_trading_time ;;
       if (t' =? 0)%Z then
         close_all_positions ;;;
         log (LogError "Now is not trading time, all positions closed.")
       else log (LogError "Correct open position (like Long_12345) is required!"))
    (fun err => log (LogError ("An error occurred: " ++ str_exn err))).

End TradingBot.

(* ================================================================== *)
(** * [DynamicStopLossTakeProfit] *)

Module DSLTP.

Record t (F : Type) : Type := mk {
  symbol : string;
  action : string;
  take_profit : F;
  stop_loss : F;
  boll_periods : Z;
  rsi_periods : Z;
  trailing_stop_distance : F
}.

Section Methods.
Context {F : Type} {PF : PyFloat F}.

Definition set_stop_loss (self : t F) (x : F) : t F :=
  mk (symbol self) (action self) (take_profit self) x
     (boll_periods self) (rsi_periods self) (trailing_stop_distance self).

(** [get_price_data], given what [mt5.copy_rates_from_pos] returned. *)
Definition get_price_data (rates : option (list (Rate F))) : M (t F) (list F) :=
  match rates with
  | None => raise (TypeError "'NoneType' object is not iterable")
  | Some rates => ret (map (fun rate => close rate) rates)
  end.

(** [price_data[-1]] *)
Definition item_last (price_data : list F) : M (t F) F :=
  match rev price_data with
  | [] => raise (IndexError "list index out of range")
  | x :: _ => ret x
  end.

(** [a and b], where [b] is evaluated only when [a] holds *)
Definition and_then (a : bool) (b : M (t F) bool) : M (t F) bool :=
  if a then b else ret false.

(** [adjust_trailing_stop] of [Last_version1.py], and its first
    definition in [Last_version.py]; [ActionType.BUY.value] is ["BUY"]. *)
Definition adjust_trailing_stop (rates : option (list (Rate F))) : M (t F) unit :=
  price_data <- get_price_data rates ;;
  self <- get ;;
  long_moved <-
    and_then (action self =? value BUY)%string
      (last <- item_last price_data ;;
       ret (fltb (fadd (stop_loss self) (trailing_stop_distance self)) last)) ;;
  if long_moved then
    last <- item_last price_data ;;
    put (set_stop_loss self (fsub last (trailing_stop_distance self)))
  else
    short_moved <-
      and_then (action self =? value SELL)%string
        (last <- item_last price_data ;;
         ret (fltb last (fsub (stop_loss self) (trailing_stop_distance self)))) ;;
    if short_moved then
      last <- item_last price_data ;;
      put (set_stop_loss self (fadd last (trailing_stop_distance self)))
    else ret tt.

(** The second definition in [Last_version.py], which replaces the first
    in the class: the same update, then [modify_sl_tp]. That method
    assigns no attribute; what it returns or raises is left open. *)
Definition adjust_trailing_stop_redefined
           (modify_sl_tp : t F -> outcome unit)
           (rates : option (list (Rate F))) : M (t F) unit :=
  adjust_trailing_stop rates ;;;
  (fun self => (modify_sl_tp self, self)).

End Methods.
End DSLTP.

(* ================================================================== *)
(** * A terminal for examples *)

(** One quote and one point size for every symbol, a fixed list of open
    positions, and the replies [mt5.order_send] gives in turn ([None]
    once they are used up). *)
Record Script (F : Type) : Type := mkScript {
  open_positions : option (list (Pos.t F));
  quote : option (Tick F);
  info : option (SymbolInfo F);
  replies : list (option OrderSendResult)
}.

#[export] Instance scripted (F : Type) : Terminal F (Script F) := {
  positions_get := fun b => open_positions b;
  symbol_info_tick := fun b _ => quote b;
  symbol_info := fun b _ => info b;
  order_send := fun b _ =>
    match replies b with
    | [] => (None, b)
    | r :: rest => (r, mkScript (open_positions b) (quote b) (info b) rest)
    end
}.

(** A world at [t] with nothing sent, logged or called yet. *)
Definition fresh {F : Type} (b : Script F) (t : datetime) : World F (Script F) :=
  mkWorld b t [] [] 0 [].

Definition done : option OrderSendResult := Some (mkResult TRADE_RETCODE_DONE).

(** [TRADE_RETCODE_REQUOTE] *)
Definition requote : option OrderSendResult := Some (mkResult 10004).

Definition a_bot : TradingBot := mkBot 1 "secret" "demo" 234000 20.

Set Warnings "-inexact-float".

Definition buy_signal : TradingSignal :=
  mkSignal "BUY" "EURUSD" "1.0" "Long_1" None.

(** The scenario of the specification: ask 1.1050, point 0.0001, 50 and
    100 pips. *)
Definition scenario_config : Config float := mkConfig 50%float 100%float.

Definition scenario_quote : Tick float := mkTick 1.1049%float 1.1050%float.

Definition scenario_info : SymbolInfo float := mkInfo 0.0001%float.

(** No position open; the first order is answered with a requote, the
    second would be filled. *)
Definition requote_then_done : Script float :=
  mkScript (Some []) (Some scenario_quote) (Some scenario_info) [requote; done].

Definition position_A : Pos.t float :=
  Pos.mk 1 "EURUSD" POSITION_TYPE_BUY 1%float "A".

Definition position_B : Pos.t float :=
  Pos.mk 2 "EURUSD" POSITION_TYPE_SELL 2%float "B".

(** A second position with the tag of [position_A]. *)
Definition position_A2 : Pos.t float :=
  Pos.mk 3 "GBPUSD" POSITION_TYPE_SELL 3%float "A".

Definition two_positions (script : list (option OrderSendResult)) : Script float :=
  mkScript (Some [position_A; position_B]) (Some scenario_quote)
           (Some scenario_info) script.

Definition monday_10h : datetime := mkTime 10 Monday.
Definition monday_5h : datetime := mkTime 5 Monday.

(** A long position with its stop at 1.0900, trailed at 0.0050. *)

(** An operation that returns its failure instead of raising it: the
    exception object, for its first [failures] runs, then [None]. The
    runs are counted in [calls]. *)
Definition returns_failure {F B : Type} (failures : nat) : M (World F B) pyobj :=
  fun w =>
    (Returned (if (length (calls w) <? failures)%nat
               then PyExc (Exception "Trade failed") else PyNone),
     snd (enter (CallClose "op") w)).

(** The long position and the rising bars in binary64. *)
Definition long_stop_binary64 : DSLTP.t float :=
  DSLTP.mk "EURUSD" "BUY" 1.1200%float 1.0900%float 20%Z 14%Z 0.0050%float.

Definition rising_rates_binary64 : option (list (Rate float)) :=
  Some [mkRate 1.1010%float 1.0890%float 1.0950%float;
        mkRate 1.1020%float 1.0940%float 1.1000%float].

(** A long position whose stop is 1 and whose distance is half a unit in
    the last place of 1, and a last close one such unit above 1. *)
Definition tight_stop_binary64 : DSLTP.t float :=
  DSLTP.mk "EURUSD" "BUY" 2%float 1%float 20%Z 14%Z 0x1p-53%float.

Definition tight_rates_binary64 : option (list (Rate float)) :=
  Some [mkRate 2%float 1%float 0x1.0000000000001p+0%float].

(* ================================================================== *)
(** * Predicates of the statements *)

(** The trading-hours rule for a maintenance window
    [[startHour, endHour)]: closed on Saturday and Sunday and during the
    window. *)
Definition gate_uses_window (rev : revision) (startHour endHour : Z) : Prop :=
  forall t : datetime,
    tradetime rev t = 0%Z <->
    (day_of_week t = Saturday \/ day_of_week t = Sunday)
    \/ (startHour <= hour t < endHour)%Z.

(** A non-empty text of characters of one class. *)
Definition some_of (cls : ascii -> bool) (s : string) : Prop :=
  s <> "" /\ all_chars cls s = true.

(** The grammar of the specification, read as [re.match] reads the
    pattern: the five keys in order, each followed by its value, at the
    start of the payload; whatever follows [position_closed=] is free. *)
Definition grammar (payload : string) : Prop :=
  exists a sy v o rest,
    payload = "action=" ++ a ++ ";symbol=" ++ sy ++ ";volume=" ++ v
              ++ ";open_position=" ++ o ++ ";position_closed=" ++ rest
    /\ some_of is_word a /\ some_of is_word_or_slash sy
    /\ all_chars is_dot v = true /\ all_chars is_dot o = true.

(** [fn] never returns an exception object. *)
Definition no_exc {F B : Type} (fn : M (World F B) pyobj) : Prop :=
  forall w e w1, fn w <> (Returned (PyExc e), w1).

(** The loop of [close_all_positions] over the enumerated positions. *)
Definition close_loop {F B : Type} {T : Terminal F B} (rev : revision)
           (self : TradingBot) (positions : list (Pos.t F))
  : M (World F B) unit :=
  for_each positions
    (fun position =>
       close_position_by_comment rev self (Pos.comment position) ;;; ret tt).

(** The state after closing [positions] by their comments one after
    the other, as the loop of [close_all_positions] does, when every one
    of these calls returns; [None] when one of them raises. *)
Fixpoint after_closes {F B : Type} {T : Terminal F B} (rev : revision)
         (self : TradingBot) (positions : list (Pos.t F)) (w : World F B)
  : option (World F B) :=
  match positions with
  | [] => Some w
  | position :: rest =>
      match close_position_by_comment rev self (Pos.comment position) w with
      | (Returned _, w1) => after_closes rev self rest w1
      | (Raised _, _) => None
      end
  end.

(* ================================================================== *)
(** * The other methods of [DynamicStopLossTakeProfit] *)

Module Strategies.
Import DSLTP.

Section Methods.
Context {F : Type} {PF : PyFloat F} {B : Type} {T : Terminal F B}.

Definition set_levels (self : t F) (tp sl : F) : t F :=
  mk (symbol self) (action self) tp sl
     (boll_periods self) (rsi_periods self) (trailing_stop_distance self).

(** [calculate_fixed_sl_tp], on the terminal [b]: the quote is read
    once and the symbol data twice. The side of the position is not
    looked at. *)
Definition calculate_fixed_sl_tp (b : B) (stop_loss_pips take_profit_pips : F)
  : M (t F) (F * F) :=
  self <- get ;;
  current_price <-
    attr (symbol_info_tick b (symbol self)) (fun t => ask t) "ask" ;;
  point_sl <- attr (symbol_info b (symbol self)) (fun i => point i) "point" ;;
  let stop_loss_price := fsub current_price (fmul stop_loss_pips point_sl) in
  point_tp <- attr (symbol_info b (symbol self)) (fun i => point i) "point" ;;
  let take_profit_price := fadd current_price (fmul take_profit_pips point_tp) in
  ret (stop_loss_price, take_profit_price).

(** [[bar.name for bar in prices]]: the elements of [prices] are the
    floats that [get_price_data] returned, and a float has none of the
    attributes [high], [low], [close]; the first element raises. *)
Definition attribute_of_each (name : string) (prices : list F)
  : M (t F) (list F) :=
  match prices with
  | [] => ret []
  | _ :: _ =>
      raise (AttributeError
               ("'numpy.float64' object has no attribute '" ++ name ++ "'"))
  end.

(** A call into the module [ta], indexed with [[-1]]. [Last_version.py]
    never imports [ta]; for [Last_version1.py], which does, [external]
    is what the call and the indexing give. *)
Definition ta_call (rev : revision) (external : outcome F) : M (t F) F :=
  match rev with
  | Last_version => raise (NameError "ta")
  | Last_version1 => fun self => (external, self)
  end.

Definition calculate_average_true_range (rev : revision) (external : outcome F)
           (rates : option (list (Rate F))) : M (t F) F :=
  prices <- get_price_data rates ;;
  high_prices <- attribute_of_each "high" prices ;;
  low_prices <- attribute_of_each "low" prices ;;
  close_prices <- attribute_of_each "close" prices ;;
  ta_call rev external.

Definition calculate_moving_average (rev : revision) (external : outcome F)
           (rates : option (list (Rate F))) : M (t F) F :=
  prices <- get_price_data rates ;;
  close_prices <- attribute_of_each "close" prices ;;
  ta_call rev external.

(** [adjust_stop_loss_take_profit]: in [Last_version.py] the levels are
    set from the moving average and the range; the definition that
    stands in [Last_version1.py] (its second) reads the unbound name
    [stop_loss_take_profit_type] after the same three calls. *)
Definition adjust_stop_loss_take_profit (rev : revision)
           (external_atr external_ma : outcome F)
           (rates : option (list (Rate F))) : M (t F) unit :=
  price_data <- get_price_data rates ;;
  atr <- calculate_average_true_range rev external_atr rates ;;
  ma <- calculate_moving_average rev external_ma rates ;;
  match rev with
  | Last_version =>
      self <- get ;;
      if (action self =? value BUY)%string then
        put (set_levels self (fadd ma atr) (fsub ma atr))
      else if (action self =? value SELL)%string then
        put (set_levels self (fsub ma atr) (fadd ma atr))
      else ret tt
  | Last_version1 => raise (NameError "stop_loss_take_profit_type")
  end.

(** [modify_sl_tp], the same in both revisions. [order_modify] is the
    attribute of that name of the module [MetaTrader5], if the module
    has one: the callee is evaluated before its arguments, and the
    first argument is the name [order], which is bound nowhere. Both
    arms of the conditional expressions read the same attribute. What
    the method prints is not kept. *)
Definition modify_sl_tp
           (order_modify : option (Z -> F -> F -> outcome (option OrderSendResult)))
  : M (t F) unit :=
  self <- get ;;
  let stoploss_price :=
    if (action self =? value BUY)%string
    then stop_loss self else stop_loss self in
  let takeprofit_price :=
    if (action self =? value BUY)%string
    then take_profit self else take_profit self in
  match order_modify with
  | None =>
      raise (AttributeError
               "module 'MetaTrader5' has no attribute 'order_modify'")
  | Some call =>
      order <- (raise (NameError "order") : M (t F) Z) ;;
      result <-
        (fun self => (call order stoploss_price takeprofit_price, self)) ;;
      retcode_ <- attr result (fun r => retcode r) "retcode" ;;
      ret tt
  end.

End Methods.
End Strategies.

(* ================================================================== *)
(** * [webhook_handler] *)

Record Response : Type := mkResponse { status : Z; message : string }.

(** The synchronous part of [webhook_handler]: the response, and the
    signal of the task it creates for [execute_order], if any. Only
    [ValueError] is caught. *)
Definition webhook_handler (body : string)
  : outcome (Response * option TradingSignal) :=
  match from_webhook body with
  | inr signal =>
      Returned (mkResponse 200 "Signal received", Some (normalize_action signal))
  | inl (ValueError msg) => Returned (mkResponse 400 msg, None)
  | inl e => Raised e
  end.

(* ================================================================== *)
(** * The text that [from_webhook] reads back *)

(** A character of a field that holds neither the separator [;] nor a
    line feed. *)
Definition plain_char (c : ascii) : bool :=
  negb (code c =? 59)%nat && negb (code c =? 10)%nat.

(** The number of separators of a text. *)
Fixpoint separators (s : string) : nat :=
  match s with
  | EmptyString => 0
  | String c s' => (if (code c =? 59)%nat then 1 else 0) + separators s'
  end.

(** The end of [pattern], from each of its last two keys on. *)
Definition tag_re : Re.regex :=
  Re.Group (Re.Plus is_word +++ Re.Lit "_" +++ Re.Plus is_digit).

Definition closed_re : Re.regex := Re.Lit ";position_closed=" +++ Re.Opt tag_re.

Definition open_re : Re.regex :=
  Re.Lit ";open_position=" +++ Re.Group (Re.Star is_dot) +++ closed_re.

(** A tag of a position to close: a word, an underscore, a number. *)
Definition is_tag (tag : string) : Prop :=
  exists w d,
    tag = w ++ "_" ++ d /\ some_of is_word w /\ some_of is_digit d.

Definition tag_text (position_closed : option string) : string :=
  match position_closed with
  | Some tag => tag
  | None => ""
  end.

(** The payload that spells the fields of [signal] out, in the order of
    [pattern]. *)
Definition webhook_text (signal : TradingSignal) : string :=
  "action=" ++ action signal ++ ";symbol=" ++ symbol signal
  ++ ";volume=" ++ volume signal
  ++ ";open_position=" ++ open_position signal
  ++ ";position_closed=" ++ tag_text (position_closed signal).

(** The signals whose fields the payload keeps apart. *)
Definition readable (signal : TradingSignal) : Prop :=
  some_of is_word (action signal)
  /\ some_of is_word_or_slash (symbol signal)
  /\ all_chars plain_char (volume signal) = true
  /\ all_chars plain_char (open_position signal) = true
  /\ match position_closed signal with
     | Some tag => is_tag tag
     | None => True
     end.

(** A request that closes a position. *)
Definition is_close {F : Type} (request : Req.t F) : Prop :=
  Req.position request <> None /\ Req.sl request = None
  /\ Req.tp request = None.

(** A short position. *)
Definition short_levels : DSLTP.t float :=
  DSLTP.mk "EURUSD" "SELL" 1.0900%float 1.1200%float 20%Z 14%Z 0.0050%float.


(** A signal that closes a position. *)
Definition close_signal : TradingSignal :=
  mkSignal "close" "EUR/USD" "0.10" "" (Some "Long_7").

(** A terminal that has no quote. *)
Definition no_quote : Script float :=
  mkScript (Some []) None (Some scenario_info) [done].

(* ================================================================== *)
(** * The line of the binary floats *)

(** What the facts about the rounding of [+], [-] and [*] are stated
    with: the values of the floats of a format as integers, in units of
    the smallest positive float. *)
Module Line.
Local Open Scope Z_scope.

(** [mrs] is [m0] shifted by [k]: the quotient, and flags that are set
    only when bits were lost. *)
Definition shr_inv (m0 k : Z) (mrs : shr_record) : Prop :=
  shr_m mrs = m0 / 2 ^ k
  /\ (shr_r mrs || shr_s mrs = true -> m0 mod 2 ^ k <> 0).

Section Format.
Variables prec emax : Z.

(** The value of a mantissa at an exponent, in units of [2 ^ emin]. *)
Definition Vz (m e : Z) : Z := m * 2 ^ (e - SpecFloat.emin prec emax).

(** The magnitude of a result, infinity standing above every float. *)
Definition Uabs (r : spec_float) : Z :=
  match r with
  | S754_zero _ => 0
  | S754_finite _ m e => Vz (Zpos m) e
  | S754_infinity _ => 2 ^ (emax - SpecFloat.emin prec emax)
  | S754_nan => 0
  end.

(** The place of a float on the line, infinities at both ends. *)
Definition ord (x : spec_float) : Z :=
  match x with
  | S754_zero _ => 0
  | S754_finite s m e => if s then - Vz (Zpos m) e else Vz (Zpos m) e
  | S754_infinity s => if s then - 2 ^ (emax - SpecFloat.emin prec emax) else 2 ^ (emax - SpecFloat.emin prec emax)
  | S754_nan => 0
  end.

(** Zero or a finite float. *)
Definition finz (x : spec_float) : bool :=
  match x with
  | S754_zero _ | S754_finite _ _ _ => true
  | _ => false
  end.

(** [r] is a rounding of the exact value [w]: no float lies between
    them. *)
Definition brackets (r : spec_float) (w : Z) : Prop :=
  r <> S754_nan
  /\ forall f, SpecFloat.valid_binary prec emax f = true -> finz f = true ->
     (ord f <= w -> ord f <= ord r) /\ (w <= ord f -> ord r <= ord f).

End Format.

(** A result that is zero, finite or infinite with the sign [s]. *)
Definition signed (s : bool) (r : spec_float) : Prop :=
  r = S754_zero s \/ (exists m e, r = S754_finite s m e) \/ r = S754_infinity s.

(** A float that is finite and not negative. *)
Definition amount (x : float) : bool :=
  ((0 <=? x) && (x <? infinity))%float.

End Line.

(* ================================================================== *)
(** * Facts about the matcher *)

Module ReFacts.
Import Re.

Lemma strip_app l s : strip l (l ++ s) = Some s.
Proof.
  induction l as [|a l IH]; simpl; [reflexivity|].
  rewrite Ascii.eqb_refl. exact IH.
Qed.

Lemma strip_inv l : forall s s', strip l s = Some s' -> s = l ++ s'.
Proof.
  induction l as [|a l IH]; simpl; intros s s' H.
  - congruence.
  - destruct s as [|b s]; [discriminate|].
    destruct (Ascii.eqb_spec a b) as [->|]; [|discriminate].
    f_equal. now apply IH.
Qed.

Lemma length_app (s1 s2 : string) :
  String.length (s1 ++ s2) = (String.length s1 + String.length s2)%nat.
Proof. induction s1; simpl; congruence. Qed.

Lemma substring_prefix (s1 s2 : string) :
  substring 0 (String.length s1) (s1 ++ s2) = s1.
Proof.
  induction s1 as [|c s1 IH]; simpl.
  - destruct s2; reflexivity.
  - now rewrite IH.
Qed.

Lemma consumed_app s1 s2 : consumed (s1 ++ s2) s2 = s1.
Proof.
  unfold consumed. rewrite length_app.
  replace (String.length s1 + String.length s2 - String.length s2)%nat
    with (String.length s1) by lia.
  apply substring_prefix.
Qed.

Lemma app_assoc (s1 s2 s3 : string) : (s1 ++ s2) ++ s3 = s1 ++ (s2 ++ s3).
Proof. induction s1; simpl; congruence. Qed.

Section Correct.
Variable A : Type.

Lemma repeat_greedy_sound cls (k : string -> option A) x :
  forall s, repeat_greedy cls s k = Some x ->
  exists s1 s2, s = s1 ++ s2 /\ all_chars cls s1 = true /\ k s2 = Some x.
Proof.
  induction s as [|c s IH]; simpl; intros H.
  - exists "", "". auto.
  - destruct (cls c) eqn:Hc.
    + destruct (repeat_greedy cls s k) as [y|] eqn:Hr.
      * injection H as ->. destruct (IH eq_refl) as (s1 & s2 & -> & Ha & Hk).
        exists (String c s1), s2. simpl. rewrite Hc. auto.
      * exists "", (String c s). auto.
    + exists "", (String c s). auto.
Qed.

Lemma repeat_greedy_complete cls (k : string -> option A) :
  forall s1 s2, all_chars cls s1 = true -> k s2 <> None ->
  repeat_greedy cls (s1 ++ s2) k <> None.
Proof.
  induction s1 as [|c s1 IH]; simpl; intros s2 Ha Hk.
  - destruct s2 as [|d s2]; simpl; [exact Hk|].
    destruct (cls d); [|exact Hk].
    destruct (repeat_greedy cls s2 k); [discriminate|exact Hk].
  - apply andb_true_iff in Ha as [Hc Ha]. rewrite Hc.
    specialize (IH s2 Ha Hk).
    destruct (repeat_greedy cls (s1 ++ s2) k); [discriminate|congruence].
Qed.

(** Whatever the matcher returns comes from a split of the text into
    a part matched by [r] and a rest accepted by the continuation. *)
Lemma run_sound r : forall s caps (k : string -> groups -> option A) x,
  run r s caps k = Some x ->
  exists s1 s2 g,
    s = s1 ++ s2 /\ matches r s1 g /\ k s2 (caps ++ g)%list = Some x.
Proof.
  induction r as [l|cls|cls|r1 IH1 r2 IH2|r1 IH1|r1 IH1];
    simpl; intros s caps k x H.
  - destruct (strip l s) as [s'|] eqn:Hs; [|discriminate].
    apply strip_inv in Hs. exists l, s', []. rewrite app_nil_r.
    repeat split; auto. constructor.
  - destruct s as [|c s]; [discriminate|].
    destruct (cls c) eqn:Hc; [|discriminate].
    apply repeat_greedy_sound in H as (s1 & s2 & -> & Ha & Hk).
    exists (String c s1), s2, []. rewrite app_nil_r.
    repeat split; auto. now constructor.
  - apply repeat_greedy_sound in H as (s1 & s2 & -> & Ha & Hk).
    exists s1, s2, []. rewrite app_nil_r.
    repeat split; auto. now constructor.
  - apply IH1 in H as (s1 & s2 & g1 & -> & M1 & H).
    apply IH2 in H as (s3 & s4 & g2 & -> & M2 & H).
    exists (s1 ++ s3), s4, (g1 ++ g2)%list.
    rewrite app_assoc, List.app_assoc. repeat split; auto.
    now constructor.
  - apply IH1 in H as (s1 & s2 & g1 & -> & M1 & H).
    rewrite consumed_app in H.
    exists s1, s2, (g1 ++ [Some s1])%list.
    rewrite List.app_assoc. repeat split; auto. now constructor.
  - destruct (run r1 s caps k) as [y|] eqn:Hr.
    + injection H as ->. apply IH1 in Hr as (s1 & s2 & g1 & -> & M1 & H).
      exists s1, s2, g1. repeat split; auto. now constructor.
    + exists "", s, (repeat None (ngroups r1)). repeat split; auto.
      apply MOptNone.
Qed.

(** Every such split is found, by this or by an earlier alternative. *)
Lemma run_complete r s1 g : matches r s1 g ->
  forall s2 caps (k : string -> groups -> option A),
  k s2 (caps ++ g)%list <> None -> run r (s1 ++ s2) caps k <> None.
Proof.
  induction 1 as [l|cls c s Hc Ha|cls s Ha|r1 r2 s1 s3 g1 g2 M1 IH1 M2 IH2
                  |r s g M IH|r s g M IH|r]; simpl; intros s2 caps k Hk.
  - rewrite strip_app. now rewrite app_nil_r in Hk.
  - rewrite Hc. rewrite app_nil_r in Hk.
    now apply (repeat_greedy_complete cls (fun t => k t caps)).
  - rewrite app_nil_r in Hk.
    now apply (repeat_greedy_complete cls (fun t => k t caps)).
  - rewrite app_assoc. apply IH1. apply IH2.
    now rewrite <- List.app_assoc.
  - apply IH. rewrite consumed_app. now rewrite <- List.app_assoc.
  - specialize (IH s2 caps k Hk).
    destruct (run r (s ++ s2) caps k); [discriminate|congruence].
  - destruct (run r s2 caps k); [discriminate|exact Hk].
Qed.
End Correct.

(** [re.match] succeeds exactly on the texts with a matching prefix. *)
Lemma re_match_accepts r s :
  re_match r s <> None <-> exists s1 s2 g, s = s1 ++ s2 /\ matches r s1 g.
Proof.
  unfold re_match. split.
  - destruct (run r s [] (fun _ caps => Some caps)) as [x|] eqn:H;
      [|congruence].
    intros _. apply run_sound in H as (s1 & s2 & g & -> & M & _).
    now exists s1, s2, g.
  - intros (s1 & s2 & g & -> & M).
    apply (run_complete M). discriminate.
Qed.

Lemma re_match_groups r s caps :
  re_match r s = Some caps ->
  exists s1 s2, s = s1 ++ s2 /\ matches r s1 caps.
Proof.
  unfold re_match. intros H.
  apply run_sound in H as (s1 & s2 & g & -> & M & H).
  injection H as <-. now exists s1, s2.
Qed.

End ReFacts.

(* ================================================================== *)
(** * The signal parser *)

Module SignalFacts.
Import Re ReFacts.

Lemma matches_lit_inv l s g : matches (Lit l) s g -> s = l /\ g = [].
Proof. inversion 1; auto. Qed.

Lemma matches_plus_inv cls s g :
  matches (Plus cls) s g -> some_of cls s /\ g = [].
Proof.
  inversion 1; subst. split; [|reflexivity].
  split; [discriminate|]. simpl. now apply andb_true_iff.
Qed.

Lemma matches_star_inv cls s g :
  matches (Star cls) s g -> all_chars cls s = true /\ g = [].
Proof. inversion 1; auto. Qed.

Lemma matches_cat_inv r1 r2 s g :
  matches (Cat r1 r2) s g ->
  exists s1 s2 g1 g2,
    s = s1 ++ s2 /\ g = (g1 ++ g2)%list /\ matches r1 s1 g1 /\ matches r2 s2 g2.
Proof. inversion 1; subst. now exists s1, s2, g1, g2. Qed.

Lemma matches_group_inv r s g :
  matches (Group r) s g -> exists g1, g = (g1 ++ [Some s])%list /\ matches r s g1.
Proof. inversion 1; subst. now exists g0. Qed.

Lemma matches_opt_inv r s g :
  matches (Opt r) s g ->
  matches r s g \/ (s = "" /\ g = repeat None (ngroups r)).
Proof. inversion 1; subst; auto. Qed.

Lemma some_of_plus cls s : some_of cls s -> matches (Plus cls) s [].
Proof.
  intros [Hne Hall]. destruct s as [|c s]; [congruence|].
  simpl in Hall. apply andb_true_iff in Hall as [Hc Hs]. now constructor.
Qed.

(** What a match of the pattern of [from_webhook] looks like. *)
Lemma pattern_inv s g :
  matches pattern s g ->
  exists a sy v o tail pc,
    s = "action=" ++ a ++ ";symbol=" ++ sy ++ ";volume=" ++ v
        ++ ";open_position=" ++ o ++ ";position_closed=" ++ tail
    /\ g = [Some a; Some sy; Some v; Some o; pc]
    /\ some_of is_word a /\ some_of is_word_or_slash sy
    /\ all_chars is_dot v = true /\ all_chars is_dot o = true.
Proof.
  unfold pattern. intros H.
  apply matches_cat_inv in H as (l1 & s1 & gl1 & g1 & -> & -> & Hl1 & H).
  apply matches_lit_inv in Hl1 as [-> ->].
  apply matches_cat_inv in H as (a & s2 & ga & g2 & -> & -> & Ha & H).
  apply matches_group_inv in Ha as (ga' & -> & Ha).
  apply matches_plus_inv in Ha as [Ha ->].
  apply matches_cat_inv in H as (l2 & s3 & gl2 & g3 & -> & -> & Hl2 & H).
  apply matches_lit_inv in Hl2 as [-> ->].
  apply matches_cat_inv in H as (sy & s4 & gsy & g4 & -> & -> & Hsy & H).
  apply matches_group_inv in Hsy as (gsy' & -> & Hsy).
  apply matches_plus_inv in Hsy as [Hsy ->].
  apply matches_cat_inv in H as (l3 & s5 & gl3 & g5 & -> & -> & Hl3 & H).
  apply matches_lit_inv in Hl3 as [-> ->].
  apply matches_cat_inv in H as (v & s6 & gv & g6 & -> & -> & Hv & H).
  apply matches_group_inv in Hv as (gv' & -> & Hv).
  apply matches_star_inv in Hv as [Hv ->].
  apply matches_cat_inv in H as (l4 & s7 & gl4 & g7 & -> & -> & Hl4 & H).
  apply matches_lit_inv in Hl4 as [-> ->].
  apply matches_cat_inv in H as (o & s8 & go & g8 & -> & -> & Ho & H).
  apply matches_group_inv in Ho as (go' & -> & Ho).
  apply matches_star_inv in Ho as [Ho ->].
  apply matches_cat_inv in H as (l5 & tail & gl5 & g9 & -> & -> & Hl5 & H).
  apply matches_lit_inv in Hl5 as [-> ->].
  assert (Hpc : exists pc, g9 = [pc]).
  { apply matches_opt_inv in H as [H|[_ ->]]; [|now exists None].
    apply matches_group_inv in H as (gt & -> & H).
    apply matches_cat_inv in H as (t1 & t2 & h1 & h2 & -> & -> & H1 & H).
    apply matches_plus_inv in H1 as [_ ->].
    apply matches_cat_inv in H as (t3 & t4 & h3 & h4 & -> & -> & H3 & H4).
    apply matches_lit_inv in H3 as [_ ->].
    apply matches_plus_inv in H4 as [_ ->].
    now exists (Some (t1 ++ t3 ++ t4)). }
  destruct Hpc as [pc ->].
  exists a, sy, v, o, tail, pc. simpl.
  split; [reflexivity|]. split; [reflexivity|]. auto.
Qed.

(** A payload of the grammar has a prefix that the pattern matches with
    the last group unmatched. *)
Lemma grammar_matches a sy v o :
  some_of is_word a -> some_of is_word_or_slash sy ->
  all_chars is_dot v = true -> all_chars is_dot o = true ->
  matches pattern
    ("action=" ++ a ++ ";symbol=" ++ sy ++ ";volume=" ++ v
     ++ ";open_position=" ++ o ++ ";position_closed=" ++ "")
    [Some a; Some sy; Some v; Some o; None].
Proof.
  intros Ha Hsy Hv Ho. unfold pattern.
  exact (MCat (MLit "action=")
    (MCat (MGroup (some_of_plus Ha))
    (MCat (MLit ";symbol=")
    (MCat (MGroup (some_of_plus Hsy))
    (MCat (MLit ";volume=")
    (MCat (MGroup (MStar is_dot v Hv))
    (MCat (MLit ";open_position=")
    (MCat (MGroup (MStar is_dot o Ho))
    (MCat (MLit ";position_closed=")
          (MOptNone
             (Group (Plus is_word +++ Lit "_" +++ Plus is_digit)))))))))))).
Qed.

Lemma from_groups_shape s g :
  matches pattern s g -> exists signal, from_groups g = inr signal.
Proof.
  intros H. apply pattern_inv in H
    as (a & sy & v & o & tail & pc & _ & -> & _).
  simpl. eauto.
Qed.

Lemma from_webhook_accepts payload :
  grammar payload -> exists signal, from_webhook payload = inr signal.
Proof.
  intros (a & sy & v & o & rest & -> & Ha & Hsy & Hv & Ho).
  unfold from_webhook.
  destruct (re_match pattern _) as [g|] eqn:Hm.
  - apply re_match_groups in Hm as (s1 & s2 & _ & M).
    exact (from_groups_shape M).
  - exfalso. revert Hm. apply re_match_accepts.
    exists ("action=" ++ a ++ ";symbol=" ++ sy ++ ";volume=" ++ v
            ++ ";open_position=" ++ o ++ ";position_closed=" ++ ""),
           rest, [Some a; Some sy; Some v; Some o; None].
    split; [|now apply grammar_matches].
    repeat (rewrite ?ReFacts.app_assoc; simpl). reflexivity.
Qed.

(** The fields of an accepted payload. *)
Lemma from_webhook_fields payload signal :
  from_webhook payload = inr signal ->
  exists rest,
    payload = "action=" ++ action signal ++ ";symbol=" ++ symbol signal
              ++ ";volume=" ++ volume signal
              ++ ";open_position=" ++ open_position signal
              ++ ";position_closed=" ++ rest
    /\ some_of is_word (action signal)
    /\ some_of is_word_or_slash (symbol signal)
    /\ all_chars is_dot (volume signal) = true
    /\ all_chars is_dot (open_position signal) = true.
Proof.
  unfold from_webhook.
  destruct (re_match pattern payload) as [g|] eqn:Hm; [|discriminate].
  apply re_match_groups in Hm as (s1 & s2 & -> & M).
  apply pattern_inv in M
    as (a & sy & v & o & tail & pc & -> & -> & Ha & Hsy & Hv & Ho).
  simpl. intros [= <-]. simpl.
  exists (tail ++ s2). split; [|auto].
  repeat (rewrite ?ReFacts.app_assoc; simpl). reflexivity.
Qed.

Lemma from_webhook_rejects payload :
  ~ grammar payload -> from_webhook payload = inl invalid_webhook.
Proof.
  intros Hn. destruct (from_webhook payload) as [e|signal] eqn:H.
  - unfold from_webhook in H.
    destruct (re_match pattern payload) as [g|] eqn:Hm; [|now symmetry].
    apply re_match_groups in Hm as (s1 & s2 & _ & M).
    destruct (from_groups_shape M) as [signal Hs]. congruence.
  - exfalso. apply Hn.
    apply from_webhook_fields in H as (rest & Hp & Ha & Hsy & Hv & Ho).
    now exists (action signal), (symbol signal), (volume signal),
               (open_position signal), rest.
Qed.

End SignalFacts.

(* ================================================================== *)
(** * The retry wrapper *)

Section RetryFacts.
Context {F B : Type}.

(** Without a returned exception object there is one attempt and no
    wait: the decorated method is the method. *)
Lemma retry_once (fn : M (World F B) pyobj) w :
  (forall e w1, fn w <> (Returned (PyExc e), w1)) -> retry fn w = fn w.
Proof.
  intros H. unfold retry. simpl.
  destruct (fn w) as [[result|e] w1] eqn:E; [|reflexivity].
  destruct result as [| r | e]; simpl; try reflexivity.
  now destruct (H e w1).
Qed.

Lemma no_exc_retry (fn : M (World F B) pyobj) :
  no_exc fn -> forall w, retry fn w = fn w.
Proof. intros H w. apply retry_once. apply H. Qed.

Lemma no_exc_bind {A} (m : M (World F B) A) (k : A -> M (World F B) pyobj) :
  (forall a, no_exc (k a)) -> no_exc (bind m k).
Proof.
  intros H w e w1. unfold bind.
  destruct (m w) as [[a|e'] w']; [apply H|discriminate].
Qed.

Lemma no_exc_raise e : no_exc (F:=F) (B:=B) (raise e).
Proof. intros w e' w1. discriminate. Qed.

Lemma no_exc_none : no_exc (F:=F) (B:=B) (ret PyNone).
Proof. intros w e' w1. discriminate. Qed.

Lemma no_exc_result r : no_exc (F:=F) (B:=B) (ret (PyResult r)).
Proof. intros w e' w1. discriminate. Qed.

End RetryFacts.

(** The wrapper does retry a failure that is returned: after two
    returned failures the third run succeeds, with two waits; a failure
    returned every time uses up the five attempts, with four waits, and
    ends in [RetryError]. *)
Example retry_on_returned_failures :
  retry (returns_failure 2) (fresh requote_then_done monday_10h)
  = (Returned PyNone,
     mkWorld requote_then_done monday_10h [] [] 2
             [CallClose "op"; CallClose "op"; CallClose "op"])
  /\ retry (returns_failure 9) (fresh requote_then_done monday_10h)
     = (Raised RetryError,
        mkWorld requote_then_done monday_10h [] [] 4
                [CallClose "op"; CallClose "op"; CallClose "op";
                 CallClose "op"; CallClose "op"]).
Proof. split; reflexivity. Qed.

(* ================================================================== *)
(** * The [for] loop *)

Lemma for_each_returned {S X} (xs : list X) (body : X -> M S unit) x s s1 :
  body x s = (Returned tt, s1) -> for_each (x :: xs) body s = for_each xs body s1.
Proof. intros H. simpl. unfold bind. now rewrite H. Qed.

Lemma for_each_raised {S X} (xs : list X) (body : X -> M S unit) x s e s1 :
  body x s = (Raised e, s1) -> for_each (x :: xs) body s = (Raised e, s1).
Proof. intros H. simpl. unfold bind. now rewrite H. Qed.

Ltac no_exc_tac :=
  repeat first
    [ apply no_exc_raise
    | apply no_exc_none
    | apply no_exc_result
    | apply no_exc_bind; intros
    | match goal with
      | |- no_exc (match ?x with _ => _ end) => destruct x
      | |- no_exc (ret (match ?x with _ => _ end)) => destruct x
      end ].

(* ================================================================== *)
(** * The methods of [TradingBot] *)

Section BotFacts.
Context {F : Type} {PF : PyFloat F} {B : Type} {T : Terminal F B}.
Variable rev : revision.
Variable config : Config F.
Variable self : TradingBot.

Lemma entry_result_no_exc res msg : no_exc (entry_result (B:=B) (F:=F) res msg).
Proof. unfold entry_result. no_exc_tac. Qed.

Lemma enter_long_wrapped_no_exc signal :
  no_exc (enter_long_wrapped rev config self signal).
Proof.
  unfold enter_long_wrapped. no_exc_tac; try apply entry_result_no_exc.
Qed.

Lemma enter_short_wrapped_no_exc signal :
  no_exc (enter_short_wrapped rev config self signal).
Proof.
  unfold enter_short_wrapped. no_exc_tac; try apply entry_result_no_exc.
Qed.

Lemma close_one_no_exc comment position :
  no_exc (close_one rev self comment position).
Proof. unfold close_one. no_exc_tac. Qed.

Lemma close_matching_no_exc comment positions :
  no_exc (close_matching rev self comment positions).
Proof.
  induction positions as [|p ps IH]; simpl.
  - apply no_exc_none.
  - destruct (Pos.comment p =? comment)%string;
      [apply close_one_no_exc|exact IH].
Qed.

Lemma close_wrapped_no_exc comment :
  no_exc (close_position_by_comment_wrapped rev self comment).
Proof.
  unfold close_position_by_comment_wrapped.
  no_exc_tac; try apply close_matching_no_exc.
Qed.

Lemma enter_long_unwrap signal w :
  enter_long rev config self signal w
  = enter_long_wrapped rev config self signal w.
Proof. apply no_exc_retry, enter_long_wrapped_no_exc. Qed.

Lemma enter_short_unwrap signal w :
  enter_short rev config self signal w
  = enter_short_wrapped rev config self signal w.
Proof. apply no_exc_retry, enter_short_wrapped_no_exc. Qed.

Lemma close_unwrap comment w :
  close_position_by_comment rev self comment w
  = close_position_by_comment_wrapped rev self comment w.
Proof. apply no_exc_retry, close_wrapped_no_exc. Qed.

(** ** Searching the enumerated positions *)

Lemma find_position_none comment (positions : list (Pos.t F)) :
  (forall p, In p positions -> Pos.comment p <> comment) ->
  find_position comment positions = None.
Proof.
  induction positions as [|q qs IH]; simpl; intros H; [reflexivity|].
  destruct (String.eqb_spec (Pos.comment q) comment) as [E|_].
  - destruct (H q); auto.
  - apply IH. intros p Hp. apply H. now right.
Qed.

Lemma find_position_first comment (before after : list (Pos.t F)) p :
  (forall q, In q before -> Pos.comment q <> comment) ->
  Pos.comment p = comment ->
  find_position comment (before ++ p :: after) = Some p.
Proof.
  intros Hb Hp. induction before as [|q qs IH]; simpl.
  - rewrite Hp, String.eqb_refl. reflexivity.
  - destruct (String.eqb_spec (Pos.comment q) comment) as [E|_].
    + destruct (Hb q); simpl; auto.
    + apply IH. intros r Hr. apply Hb. now right.
Qed.

Lemma close_matching_first comment (before after : list (Pos.t F)) p :
  (forall q, In q before -> Pos.comment q <> comment) ->
  Pos.comment p = comment ->
  close_matching rev self comment (before ++ p :: after)
  = close_one rev self comment p.
Proof.
  intros Hb Hp. induction before as [|q qs IH]; simpl.
  - rewrite Hp, String.eqb_refl. reflexivity.
  - destruct (String.eqb_spec (Pos.comment q) comment) as [E|_].
    + destruct (Hb q); simpl; auto.
    + apply IH. intros r Hr. apply Hb. now right.
Qed.

(** ** What one close does to the world *)

Lemma close_one_effect comment position w :
  let w' := snd (close_one rev self comment position w) in
  calls w' = calls w
  /\ (sent w' = sent w
      \/ exists tick,
           symbol_info_tick (mt5 w) (Pos.symbol position) = Some tick
           /\ sent w' = (sent w ++ [close_request rev self position
                                                  (bid tick) (ask tick)])%list).
Proof.
  unfold close_one, bind, mt5_symbol_info_tick, mt5_symbol_info,
    mt5_order_send, attr, log, ret, raise. simpl.
  destruct (symbol_info_tick (mt5 w) (Pos.symbol position)) as [tick|] eqn:Et;
    simpl; [|auto].
  destruct (symbol_info (mt5 w) (Pos.symbol position)) as [i|]; simpl; [|auto].
  destruct (order_send (mt5 w) (close_request rev self position
                                              (bid tick) (ask tick)))
    as [[r0|] b] eqn:Eo; simpl.
  - destruct (negb (retcode r0 =? TRADE_RETCODE_DONE)%Z); simpl;
      (split; [reflexivity|right; exists tick; auto]).
  - split; [reflexivity|right; exists tick; auto].
Qed.

Lemma close_matching_calls comment positions w :
  calls (snd (close_matching rev self comment positions w)) = calls w.
Proof.
  induction positions as [|p ps IH]; simpl; [reflexivity|].
  destruct (Pos.comment p =? comment)%string; [|exact IH].
  apply close_one_effect.
Qed.

(** Each call of the decorated [close_position_by_comment] enters its
    body once. *)
Lemma close_calls comment w :
  calls (snd (close_position_by_comment rev self comment w))
  = (calls w ++ [CallClose comment])%list.
Proof.
  rewrite close_unwrap.
  unfold close_position_by_comment_wrapped, bind, enter, mt5_positions_get,
    log, ret. simpl.
  destruct (positions_get (mt5 w)) as [ps|]; simpl; [|reflexivity].
  destruct (find_position comment ps); simpl; [|reflexivity].
  apply close_matching_calls.
Qed.

End BotFacts.

(* ================================================================== *)
(** * The parser and the normalizer *)

(** C6, as the code has it, for ASCII payloads: [from_webhook] raises
    [ValueError("Invalid webhook data")] exactly for the payloads that do
    not start with the five keys and their values; the key
    [position_closed=] is required, only its value may be missing, and
    the text after it is not looked at. Every other payload yields a
    signal. *)
Theorem from_webhook_raises_iff (payload : string) :
  isascii payload = true ->
  (from_webhook payload = inl invalid_webhook <-> ~ grammar payload)
  /\ ((exists signal, from_webhook payload = inr signal) <-> grammar payload).
Proof.
  intros _. split; split.
  - intros H G. apply SignalFacts.from_webhook_accepts in G as [signal G].
    congruence.
  - apply SignalFacts.from_webhook_rejects.
  - intros [signal H].
    apply SignalFacts.from_webhook_fields in H as (rest & Hp & Ha & Hsy & Hv & Ho).
    now exists (action signal), (symbol signal), (volume signal),
               (open_position signal), rest.
  - apply SignalFacts.from_webhook_accepts.
Qed.

Lemma from_webhook_raises_iff_witness :
  isascii "action=buy;symbol=;volume=1.0;open_position=Long_1;position_closed=" = true
  /\ ~ grammar "action=buy;symbol=;volume=1.0;open_position=Long_1;position_closed="
  /\ grammar "action=buy;symbol=EURUSD;volume=1.0;open_position=;position_closed=".
Proof.
  split; [reflexivity|]. split.
  - exact (proj1 (proj1 (from_webhook_raises_iff
                           "action=buy;symbol=;volume=1.0;open_position=Long_1;position_closed="
                           eq_refl)) eq_refl).
  - apply (proj2 (from_webhook_raises_iff
                    "action=buy;symbol=EURUSD;volume=1.0;open_position=;position_closed="
                    eq_refl)).
    eexists. reflexivity.
Defined.

(** C6 as stated fails: a payload in which the [position_closed] field
    is entirely absent, and which is otherwise well formed, is rejected. *)
Lemma position_closed_absent_is_rejected :
  from_webhook "action=buy;symbol=EURUSD;volume=1.0;open_position=Long_1"
  = inl invalid_webhook.
Proof. reflexivity. Qed.

(** The value of [position_closed] may be missing, and text that is no
    tag is passed over. *)
Example position_closed_empty_or_junk :
  from_webhook
    "action=buy;symbol=EURUSD;volume=1.0;open_position=Long_1;position_closed="
  = inr (mkSignal "buy" "EURUSD" "1.0" "Long_1" None)
  /\ from_webhook
       "action=buy;symbol=EURUSD;volume=1.0;open_position=Long_1;position_closed=?!"
     = inr (mkSignal "buy" "EURUSD" "1.0" "Long_1" None)
  /\ from_webhook
       "action=buy;symbol=EURUSD;volume=1.0;open_position=Long_1;position_closed=Short_7;x"
     = inr (mkSignal "buy" "EURUSD" "1.0" "Long_1" (Some "Short_7")).
Proof. repeat split. Qed.

(** C8, as the code has it, for ASCII payloads: after [from_webhook] and
    [normalize_action] the action is [BUY] or [SELL] when the parsed word is one of the four
    aliases in any letter case, and the parsed word itself otherwise; the
    parsed word is a non-empty run of word characters; the symbol is a
    non-empty run of word characters and slashes; the volume is the text
    of its field, kept as a string and not checked. *)
Theorem normalized_signal_fields (payload : string) (signal : TradingSignal) :
  isascii payload = true ->
  from_webhook payload = inr signal ->
  (action (normalize_action signal) = "BUY"
   /\ str_in (lower (action signal)) ["enter_long"; "buy"] = true
   \/ action (normalize_action signal) = "SELL"
      /\ str_in (lower (action signal)) ["enter_short"; "sell"] = true
   \/ action (normalize_action signal) = action signal
      /\ str_in (lower (action signal))
           ["enter_long"; "buy"; "enter_short"; "sell"] = false)
  /\ some_of is_word (action signal)
  /\ some_of is_word_or_slash (symbol (normalize_action signal))
  /\ volume (normalize_action signal) = volume signal
  /\ all_chars is_dot (volume signal) = true.
Proof.
  intros _ H.
  apply SignalFacts.from_webhook_fields in H as (rest & _ & Ha & Hsy & Hv & _).
  assert (Hsym : symbol (normalize_action signal) = symbol signal).
  { unfold normalize_action.
    destruct (str_in _ ["enter_long"; "buy"]); [reflexivity|].
    destruct (str_in _ ["enter_short"; "sell"]); reflexivity. }
  assert (Hvol : volume (normalize_action signal) = volume signal).
  { unfold normalize_action.
    destruct (str_in _ ["enter_long"; "buy"]); [reflexivity|].
    destruct (str_in _ ["enter_short"; "sell"]); reflexivity. }
  rewrite Hsym. repeat split; try apply Ha; try apply Hsy; auto.
  unfold normalize_action. simpl.
  destruct (lower (action signal) =? "enter_long")%string; simpl; auto.
  destruct (lower (action signal) =? "buy")%string; simpl; auto.
  destruct (lower (action signal) =? "enter_short")%string; simpl; auto.
  destruct (lower (action signal) =? "sell")%string; simpl; auto.
Qed.

Lemma normalized_signal_fields_witness :
  from_webhook
    "action=Enter_Long;symbol=EUR/USD;volume=1.0;open_position=Long_1;position_closed="
  = inr (mkSignal "Enter_Long" "EUR/USD" "1.0" "Long_1" None)
  /\ action (normalize_action (mkSignal "Enter_Long" "EUR/USD" "1.0" "Long_1" None))
     = "BUY".
Proof.
  split; [reflexivity|].
  destruct (normalized_signal_fields
              "action=Enter_Long;symbol=EUR/USD;volume=1.0;open_position=Long_1;position_closed="
              (signal := mkSignal "Enter_Long" "EUR/USD" "1.0" "Long_1" None)
              eq_refl eq_refl) as [[[H _]|[[H _]|[_ H]]] _].
  - exact H.
  - discriminate H.
  - discriminate H.
Defined.

(** C8 as stated fails: an accepted payload whose normalized action is
    none of [BUY], [SELL], [CLOSE] and whose volume is negative. *)
Lemma accepted_signal_not_canonical :
  from_webhook "action=hold;symbol=EURUSD;volume=-1;open_position=x;position_closed="
  = inr (mkSignal "hold" "EURUSD" "-1" "x" None)
  /\ normalize_action (mkSignal "hold" "EURUSD" "-1" "x" None)
     = mkSignal "hold" "EURUSD" "-1" "x" None
  /\ ~ In "hold" (map value [BUY; SELL; CLOSE])
  /\ float_of_str (F := float) "-1" = Some (-1)%float.
Proof.
  repeat split. simpl. intros [H|[H|[H|[]]]]; discriminate H.
Qed.

(* ================================================================== *)
(** * The trading-hours gate *)

(** C7, as the code has it: the gate is closed exactly on Saturday and
    Sunday and during the hours 4, 5, 6 ([Last_version.py]) or the hour
    6 ([Last_version1.py]) of the Asia/Shanghai clock. The bounds are
    literals of [is_trading_time]: the rule holds for no other window. *)
Theorem gate_window_is_fixed (rev : revision) (startHour endHour : Z) :
  gate_uses_window rev startHour endHour <->
  startHour = match rev with Last_version => 4%Z | Last_version1 => 6%Z end
  /\ endHour = 7%Z.
Proof.
  unfold gate_uses_window. split.
  - intros H.
    assert (Hat : forall h, tradetime rev (mkTime h Monday) = 0%Z <->
                            (startHour <= h < endHour)%Z).
    { intros h. rewrite (H (mkTime h Monday)). simpl.
      split; [intros [[E|E]|E]; [discriminate E|discriminate E|exact E]|auto]. }
    destruct rev.
    + pose proof (proj1 (Hat 4%Z) eq_refl) as H4.
      pose proof (proj1 (Hat 6%Z) eq_refl) as H6.
      assert (H3 : ~ (startHour <= 3 < endHour)%Z)
        by (intros E; apply Hat in E; discriminate E).
      assert (H7 : ~ (startHour <= 7 < endHour)%Z)
        by (intros E; apply Hat in E; discriminate E).
      lia.
    + pose proof (proj1 (Hat 6%Z) eq_refl) as H6.
      assert (H5 : ~ (startHour <= 5 < endHour)%Z)
        by (intros E; apply Hat in E; discriminate E).
      assert (H7 : ~ (startHour <= 7 < endHour)%Z)
        by (intros E; apply Hat in E; discriminate E).
      lia.
  - intros [-> ->] [h d]. unfold tradetime, weekday. simpl.
    destruct rev, d; simpl;
      repeat match goal with
             | |- context [(?a >=? ?b)%Z] =>
                 destruct (Z.geb_spec a b)
             | |- context [(?a <? ?b)%Z] =>
                 destruct (Z.ltb_spec a b)
             end; simpl; split; intros E; try reflexivity; try discriminate E;
      try (right; lia); try (left; auto; fail);
      try (destruct E as [[E|E]|E]; try discriminate E; lia).
Qed.

(** C7 as stated fails: the window is no parameter. With the window
    [[6, 7)] of the other revision, [Last_version.py] is closed on a
    Monday at 04:00, outside that window. *)
Lemma gate_ignores_configured_window :
  tradetime Last_version (mkTime 4 Monday) = 0%Z
  /\ ~ gate_uses_window Last_version 6 7.
Proof.
  split; [reflexivity|]. intros H.
  destruct (proj1 (H (mkTime 4 Monday)) eq_refl) as [[E|E]|E].
  - discriminate E.
  - discriminate E.
  - simpl in E. lia.
Qed.

(* ================================================================== *)
(** * Closing positions *)

Section CloseClaims.
Context {F : Type} {B : Type} {T : Terminal F B}.
Variable rev : revision.
Variable self : TradingBot.

(** C5: when the enumeration succeeds and no open position carries the
    tag, [close_position_by_comment] reports the missing position (it
    logs the error and returns [None]) and sends nothing: the terminal
    and the list of requests are as before, after one attempt and no
    wait. *)
Theorem close_unknown_tag_sends_nothing (w : World F B) (tag : string)
        (positions : list (Pos.t F)) :
  positions_get (mt5 w) = Some positions ->
  (forall p, In p positions -> Pos.comment p <> tag) ->
  close_position_by_comment rev self tag w
  = (Returned PyNone,
     mkWorld (mt5 w) (now w) (sent w)
             (logged w ++ [LogError ("Error: Position with comment " ++ tag
                                     ++ " does not exist")])
             (slept w) (calls w ++ [CallClose tag])).
Proof.
  intros Hps Hnone. rewrite close_unwrap.
  unfold close_position_by_comment_wrapped, bind, enter, mt5_positions_get,
    log, ret. simpl.
  rewrite Hps. simpl. rewrite (find_position_none positions Hnone). reflexivity.
Qed.

(** C10: with the first position of the enumeration that carries the
    tag called [p], one call of [close_position_by_comment] sends the
    closing request of [p] and nothing else, or nothing at all when the
    terminal has no quote or no symbol data for [p]; later positions
    with the same tag get no request. *)
Theorem close_by_comment_closes_first_match (w : World F B) (tag : string)
        (before after : list (Pos.t F)) (p : Pos.t F) :
  positions_get (mt5 w) = Some (before ++ p :: after)%list ->
  (forall q, In q before -> Pos.comment q <> tag) ->
  Pos.comment p = tag ->
  match symbol_info_tick (mt5 w) (Pos.symbol p),
        symbol_info (mt5 w) (Pos.symbol p) with
  | Some tick, Some _ =>
      sent (snd (close_position_by_comment rev self tag w))
      = (sent w ++ [close_request rev self p (bid tick) (ask tick)])%list
      /\ Req.position (close_request rev self p (bid tick) (ask tick))
         = Some (Pos.ticket p)
  | _, _ => sent (snd (close_position_by_comment rev self tag w)) = sent w
  end.
Proof.
  intros Hps Hbefore Hp. rewrite close_unwrap.
  unfold close_position_by_comment_wrapped, bind, enter, mt5_positions_get,
    log, ret. simpl.
  rewrite Hps. simpl.
  rewrite (find_position_first before after p Hbefore Hp).
  rewrite (close_matching_first rev self before after p Hbefore Hp).
  unfold close_one, bind, mt5_symbol_info_tick, mt5_symbol_info,
    mt5_order_send, attr, log, ret, raise. simpl.
  destruct (symbol_info_tick (mt5 w) (Pos.symbol p)) as [tick|]; simpl;
    [|reflexivity].
  destruct (symbol_info (mt5 w) (Pos.symbol p)) as [i|]; simpl;
    [|reflexivity].
  destruct (order_send (mt5 w) (close_request rev self p (bid tick) (ask tick)))
    as [[r|] b]; simpl; [|split; reflexivity].
  destruct (negb (retcode r =? TRADE_RETCODE_DONE)%Z); simpl; split; reflexivity.
Qed.

(** When every close returns, the loop returns after the last one. *)
Lemma close_loop_returns (positions : list (Pos.t F)) :
  forall w w' : World F B,
  after_closes rev self positions w = Some w' ->
  close_loop rev self positions w = (Returned tt, w')
  /\ calls w'
     = (calls w ++ map (fun p => CallClose (Pos.comment p)) positions)%list.
Proof.
  induction positions as [|p ps IH]; intros w w' H.
  - injection H as <-. simpl. rewrite app_nil_r. auto.
  - pose proof (close_calls rev self (Pos.comment p) w) as Hc.
    simpl in H.
    destruct (close_position_by_comment rev self (Pos.comment p) w)
      as [[result|e] w1] eqn:E; [|discriminate H]. simpl in Hc.
    unfold close_loop.
    rewrite (for_each_returned ps
               (fun position =>
                  close_position_by_comment rev self (Pos.comment position)
                  ;;; ret tt) p w (s1 := w1))
      by (unfold bind; rewrite E; reflexivity).
    destruct (IH w1 w' H) as [Hr Hcalls]. split; [exact Hr|].
    rewrite Hcalls, Hc, <- List.app_assoc. reflexivity.
Qed.

(** The first close that raises ends the loop. *)
Lemma close_loop_raises (before after : list (Pos.t F)) (p : Pos.t F) e :
  forall w w1 w2 : World F B,
  after_closes rev self before w = Some w1 ->
  close_position_by_comment rev self (Pos.comment p) w1 = (Raised e, w2) ->
  close_loop rev self (before ++ p :: after)%list w = (Raised e, w2).
Proof.
  induction before as [|q qs IH]; intros w w1 w2 H Hp.
  - injection H as <-. unfold close_loop. simpl app.
    apply (for_each_raised after
             (fun position =>
                close_position_by_comment rev self (Pos.comment position)
                ;;; ret tt) p w (e := e) (s1 := w2)).
    unfold bind. rewrite Hp. reflexivity.
  - simpl in H.
    destruct (close_position_by_comment rev self (Pos.comment q) w)
      as [[result|e0] w0] eqn:E; [|discriminate H].
    change ((q :: qs) ++ p :: after)%list with (q :: (qs ++ p :: after))%list.
    unfold close_loop.
    rewrite (for_each_returned (qs ++ p :: after)%list
               (fun position =>
                  close_position_by_comment rev self (Pos.comment position)
                  ;;; ret tt) q w (s1 := w0))
      by (unfold bind; rewrite E; reflexivity).
    exact (IH w0 w1 w2 H Hp).
Qed.

(** Every close returns, or there is a first one that raises. *)
Lemma close_loop_cases (positions : list (Pos.t F)) :
  forall w : World F B,
  (exists w', after_closes rev self positions w = Some w')
  \/ (exists before p after w1 e w2,
         positions = (before ++ p :: after)%list
         /\ after_closes rev self before w = Some w1
         /\ close_position_by_comment rev self (Pos.comment p) w1
            = (Raised e, w2)).
Proof.
  induction positions as [|p ps IH]; intros w.
  - left. exists w. reflexivity.
  - simpl.
    destruct (close_position_by_comment rev self (Pos.comment p) w)
      as [[result|e] w1] eqn:E.
    + destruct (IH w1) as [[w' H]|(before & q & after & w2 & e & w3 & -> & H & Hq)].
      * left. exists w'. exact H.
      * right. exists (p :: before), q, after, w2, e, w3.
        split; [reflexivity|]. split; [|exact Hq].
        simpl. rewrite E. exact H.
    + right. exists [], p, ps, w, e, w1. auto.
Qed.

(** C3, as the code has it: [close_all_positions] calls
    [close_position_by_comment] with the comment of each enumerated
    position, in order, as long as the calls return, and it returns,
    in the state the last call left, exactly when all of them return.
    Otherwise it raises what the first call that raised has raised, in
    the state that call left: the closes before it have run, in order,
    and the positions after it are not attempted. One of the two is
    always the case. *)
Theorem close_all_positions_stops_at_first_raise (w : World F B)
        (positions : list (Pos.t F)) :
  positions_get (mt5 w) = Some positions ->
  (forall w',
      after_closes rev self positions w = Some w' ->
      close_all_positions rev self w = (Returned tt, w')
      /\ calls w'
         = (calls w ++ map (fun p => CallClose (Pos.comment p)) positions)%list)
  /\ (forall before p after w1 e w2,
         positions = (before ++ p :: after)%list ->
         after_closes rev self before w = Some w1 ->
         close_position_by_comment rev self (Pos.comment p) w1 = (Raised e, w2) ->
         close_all_positions rev self w = (Raised e, w2)
         /\ calls w2
            = (calls w ++ map (fun p => CallClose (Pos.comment p))
                              (before ++ [p]))%list)
  /\ ((exists w', after_closes rev self positions w = Some w')
      \/ (exists before p after w1 e w2,
             positions = (before ++ p :: after)%list
             /\ after_closes rev self before w = Some w1
             /\ close_position_by_comment rev self (Pos.comment p) w1
                = (Raised e, w2))).
Proof.
  intros Hps.
  assert (E : close_all_positions rev self w = close_loop rev self positions w).
  { unfold close_all_positions, mt5_positions_get.
    unfold bind at 1. rewrite Hps. reflexivity. }
  rewrite E. split; [|split].
  - intros w' H. exact (close_loop_returns positions w H).
  - intros before p after w1 e w2 -> Hb Hp. split.
    + exact (close_loop_raises before after p w Hb Hp).
    + pose proof (close_calls rev self (Pos.comment p) w1) as Hc.
      rewrite Hp in Hc. simpl in Hc.
      destruct (close_loop_returns before w Hb) as [_ Hcalls].
      rewrite Hc, Hcalls, map_app, <- List.app_assoc. reflexivity.
  - apply close_loop_cases.
Qed.

End CloseClaims.

(* ================================================================== *)
(** * Entry orders *)

Section EntryFacts.
Context {F : Type} {PF : PyFloat F} {B : Type} {T : Terminal F B}.
Variable config : Config F.
Variable self : TradingBot.

(** What the check after [mt5.order_send] leaves of the requests. *)
Lemma entry_result_sent res msg (w : World F B) :
  sent (snd (entry_result res msg w)) = sent w.
Proof.
  unfold entry_result, bind, attr, log, ret, raise.
  destruct res as [r|]; simpl; [|reflexivity].
  destruct (negb (retcode r =? TRADE_RETCODE_DONE)%Z); reflexivity.
Qed.

Lemma enter_long_sent signal (w : World F B) tick info vol :
  symbol_info_tick (mt5 w) (symbol signal) = Some tick ->
  symbol_info (mt5 w) (symbol signal) = Some info ->
  float_of_str (volume signal) = Some vol ->
  sent (snd (enter_long Last_version config self signal w))
  = (sent w ++ [long_request Last_version self signal (ask tick) (point info)
                  vol (stop_loss_pips config) (take_profit_pips config)])%list.
Proof.
  intros Ht Hi Hv. rewrite enter_long_unwrap.
  unfold enter_long_wrapped, bind, enter, mt5_symbol_info_tick, mt5_symbol_info,
    py_float, module_global, mt5_order_send, attr, ret. simpl.
  rewrite Ht. simpl. rewrite Hi. simpl. rewrite Hv. simpl.
  destruct (order_send (mt5 w) _) as [res b]. simpl.
  now rewrite entry_result_sent.
Qed.

Lemma enter_short_sent signal (w : World F B) tick info vol :
  symbol_info_tick (mt5 w) (symbol signal) = Some tick ->
  symbol_info (mt5 w) (symbol signal) = Some info ->
  float_of_str (volume signal) = Some vol ->
  sent (snd (enter_short Last_version config self signal w))
  = (sent w ++ [short_request Last_version self signal (bid tick) (point info)
                  vol (stop_loss_pips config) (take_profit_pips config)])%list.
Proof.
  intros Ht Hi Hv. rewrite enter_short_unwrap.
  unfold enter_short_wrapped, bind, enter, mt5_symbol_info_tick,
    mt5_symbol_info, py_float, module_global, mt5_order_send, attr, ret. simpl.
  rewrite Ht. simpl. rewrite Hi. simpl. rewrite Hv. simpl.
  destruct (order_send (mt5 w) _) as [res b]. simpl.
  now rewrite entry_result_sent.
Qed.

(** In [Last_version1.py] an entry raises before it reaches
    [mt5.order_send]: at the latest on the unbound [stop_loss_pips]. *)
Lemma enter_long_v1_raises signal (w : World F B) :
  exists e,
    enter_long Last_version1 config self signal w
    = (Raised e,
       mkWorld (mt5 w) (now w) (sent w) (logged w) (slept w)
               (calls w ++ [CallEnterLong signal]))
    /\ (symbol_info_tick (mt5 w) (symbol signal) <> None ->
        symbol_info (mt5 w) (symbol signal) <> None ->
        float_of_str (volume signal) <> None ->
        e = NameError "stop_loss_pips").
Proof.
  rewrite enter_long_unwrap.
  unfold enter_long_wrapped, bind, enter, mt5_symbol_info_tick, mt5_symbol_info,
    py_float, module_global, attr, ret, raise. simpl.
  destruct (symbol_info_tick (mt5 w) (symbol signal)); simpl;
    [|eexists; split; [reflexivity|intros H; now destruct H]].
  destruct (symbol_info (mt5 w) (symbol signal)); simpl;
    [|eexists; split; [reflexivity|intros _ H; now destruct H]].
  destruct (float_of_str (volume signal)); simpl;
    [|eexists; split; [reflexivity|intros _ _ H; now destruct H]].
  eexists; split; reflexivity.
Qed.

Lemma enter_short_v1_raises signal (w : World F B) :
  exists e,
    enter_short Last_version1 config self signal w
    = (Raised e,
       mkWorld (mt5 w) (now w) (sent w) (logged w) (slept w)
               (calls w ++ [CallEnterShort signal]))
    /\ (symbol_info_tick (mt5 w) (symbol signal) <> None ->
        symbol_info (mt5 w) (symbol signal) <> None ->
        float_of_str (volume signal) <> None ->
        e = NameError "stop_loss_pips").
Proof.
  rewrite enter_short_unwrap.
  unfold enter_short_wrapped, bind, enter, mt5_symbol_info_tick,
    mt5_symbol_info, py_float, module_global, attr, ret, raise. simpl.
  destruct (symbol_info_tick (mt5 w) (symbol signal)); simpl;
    [|eexists; split; [reflexivity|intros H; now destruct H]].
  destruct (symbol_info (mt5 w) (symbol signal)); simpl;
    [|eexists; split; [reflexivity|intros _ H; now destruct H]].
  destruct (float_of_str (volume signal)); simpl;
    [|eexists; split; [reflexivity|intros _ _ H; now destruct H]].
  eexists; split; reflexivity.
Qed.

End EntryFacts.

(** C4: [enter_long] of [Last_version.py] sends one request, a buy at
    the ask with [sl = ask - stop_loss_pips * point] and
    [tp = ask + take_profit_pips * point]; [enter_short] sends a sell at
    the bid with [sl = bid + stop_loss_pips * point] and
    [tp = bid - take_profit_pips * point]. In binary64, with ask 1.1050,
    point 0.0001 and 50 and 100 pips, the buy carries [sl] 1.1000 and
    [tp] 1.1150, the doubles nearest to these decimals. *)
Theorem entry_orders_carry_levels :
  (forall (F : Type) (PF : PyFloat F) (B : Type) (T : Terminal F B)
          (config : Config F) (self : TradingBot) (signal : TradingSignal)
          (w : World F B) (tick : Tick F) (info : SymbolInfo F) (vol : F),
      symbol_info_tick (mt5 w) (symbol signal) = Some tick ->
      symbol_info (mt5 w) (symbol signal) = Some info ->
      float_of_str (volume signal) = Some vol ->
      sent (snd (enter_long Last_version config self signal w))
      = (sent w ++
         [Req.mk TRADE_ACTION_DEAL (symbol signal) vol ORDER_TYPE_BUY (ask tick)
            (Some (fsub (ask tick) (fmul (stop_loss_pips config) (point info))))
            (Some (fadd (ask tick) (fmul (take_profit_pips config) (point info))))
            20 234000 (open_position signal)
            ORDER_TIME_GTC ORDER_FILLING_IOC None])%list
      /\ sent (snd (enter_short Last_version config self signal w))
         = (sent w ++
            [Req.mk TRADE_ACTION_DEAL (symbol signal) vol ORDER_TYPE_SELL (bid tick)
               (Some (fadd (bid tick) (fmul (stop_loss_pips config) (point info))))
               (Some (fsub (bid tick) (fmul (take_profit_pips config) (point info))))
               20 234000 (open_position signal)
               ORDER_TIME_GTC ORDER_FILLING_IOC None])%list)
  /\ (forall (B : Type) (T : Terminal float B) (self : TradingBot)
             (signal : TradingSignal) (w : World float B)
             (tick : Tick float) (info : SymbolInfo float) (vol : float),
         symbol_info_tick (mt5 w) (symbol signal) = Some tick ->
         symbol_info (mt5 w) (symbol signal) = Some info ->
         float_of_str (volume signal) = Some vol ->
         ask tick = 1.1050%float ->
         point info = 0.0001%float ->
         exists request,
           sent (snd (enter_long Last_version scenario_config self signal w))
           = (sent w ++ [request])%list
           /\ Req.type_ request = ORDER_TYPE_BUY
           /\ Req.price request = 1.1050%float
           /\ Req.sl request = Some 1.1000%float
           /\ Req.tp request = Some 1.1150%float).
Proof.
  split.
  - intros F PF B T config self signal w tick info vol Ht Hi Hv. split.
    + now rewrite (enter_long_sent config self signal w Ht Hi Hv).
    + now rewrite (enter_short_sent config self signal w Ht Hi Hv).
  - intros B T self signal w tick info vol Ht Hi Hv Hask Hpoint.
    eexists. split; [apply (enter_long_sent _ _ _ _ Ht Hi Hv)|].
    unfold long_request. simpl. rewrite Hask, Hpoint.
    repeat split.
Qed.

Lemma entry_orders_carry_levels_witness :
  map (fun r : Req.t float => (Req.type_ r, Req.price r, Req.sl r, Req.tp r))
      (sent (snd (enter_long Last_version scenario_config a_bot buy_signal
                    (fresh requote_then_done monday_10h))))
  = [(ORDER_TYPE_BUY, 1.1050%float, Some 1.1000%float, Some 1.1150%float)].
Proof.
  destruct (proj2 entry_orders_carry_levels (Script float) (scripted float)
              a_bot buy_signal (fresh requote_then_done monday_10h)
              scenario_quote scenario_info 1%float
              eq_refl eq_refl eq_refl eq_refl eq_refl)
    as (request & Hsent & Htype & Hprice & Hsl & Htp).
  rewrite Hsent. simpl. now rewrite Htype, Hprice, Hsl, Htp.
Defined.

(* ================================================================== *)
(** * [execute_order] *)

Section ExecuteClaims.
Context {F : Type} {PF : PyFloat F} {B : Type} {T : Terminal F B}.
Variable config : Config F.
Variable self : TradingBot.

Lemma action_is_last_version signal a :
  action_is Last_version signal a = false.
Proof. reflexivity. Qed.

(** The branch of [execute_order] taken while the gate is open and the
    tag is not empty. *)
Lemma execute_order_open rev signal (w : World F B) :
  tradetime rev (now w) <> 0%Z -> open_position signal <> "" ->
  execute_order rev config self signal w
  = try_except
      (if action_is rev signal BUY then
         enter_long rev config self signal ;;; close_old rev self signal
       else if action_is rev signal SELL then
         enter_short rev config self signal ;;; close_old rev self signal
       else log (LogError "Action is not supported."))
      (fun err => log (LogError ("An error occurred: " ++ str_exn err)))
      (snd (log (LogExecuting signal) w)).
Proof.
  intros Hgate Htag. unfold execute_order.
  unfold bind at 1. simpl.
  unfold try_except, bind at 1, is_trading_time. simpl.
  destruct (Z.eqb_spec (tradetime rev (now w)) 0) as [E|_]; [contradiction|].
  destruct (String.eqb_spec (open_position signal) "") as [E|_];
    [contradiction|].
  reflexivity.
Qed.

(** C1, on the code: while the gate is open and the tag is not empty,
    [execute_order] sends nothing, whatever the action. In
    [Last_version.py] the action, a string, never equals a member of
    [ActionType], so [BUY] and [SELL] are reported as unsupported like
    every other action. In [Last_version1.py] the entry methods are
    called and raise before [mt5.order_send], at the latest with the
    [NameError] of [stop_loss_pips], which [execute_order] logs. *)
Theorem execute_order_submits_no_entry rev signal (w : World F B) :
  tradetime rev (now w) <> 0%Z -> open_position signal <> "" ->
  sent (snd (execute_order rev config self signal w)) = sent w
  /\ (rev = Last_version ->
      execute_order rev config self signal w
      = (Returned tt,
         mkWorld (mt5 w) (now w) (sent w)
                 (logged w ++ [LogExecuting signal;
                               LogError "Action is not supported."])
                 (slept w) (calls w)))
  /\ (rev = Last_version1 -> action signal = "BUY" ->
      symbol_info_tick (mt5 w) (symbol signal) <> None ->
      symbol_info (mt5 w) (symbol signal) <> None ->
      float_of_str (volume signal) <> None ->
      execute_order rev config self signal w
      = (Returned tt,
         mkWorld (mt5 w) (now w) (sent w)
                 (logged w ++
                  [LogExecuting signal;
                   LogError "An error occurred: name 'stop_loss_pips' is not defined"])
                 (slept w) (calls w ++ [CallEnterLong signal])))
  /\ (rev = Last_version1 -> action signal = "SELL" ->
      symbol_info_tick (mt5 w) (symbol signal) <> None ->
      symbol_info (mt5 w) (symbol signal) <> None ->
      float_of_str (volume signal) <> None ->
      execute_order rev config self signal w
      = (Returned tt,
         mkWorld (mt5 w) (now w) (sent w)
                 (logged w ++
                  [LogExecuting signal;
                   LogError "An error occurred: name 'stop_loss_pips' is not defined"])
                 (slept w) (calls w ++ [CallEnterShort signal]))).
Proof.
  intros Hgate Htag. rewrite (execute_order_open rev signal w Hgate Htag).
  destruct rev.
  - rewrite !action_is_last_version. unfold try_except, log. simpl.
    rewrite <- List.app_assoc. simpl.
    repeat split; intros E; discriminate E.
  - remember (snd (log (LogExecuting signal) w)) as w0 eqn:Hw0.
    assert (Hs : sent w0 = sent w) by (subst w0; reflexivity).
    unfold try_except, bind.
    destruct (enter_long_v1_raises config self signal w0) as (e1 & E1 & N1).
    destruct (enter_short_v1_raises config self signal w0) as (e2 & E2 & N2).
    assert (Ht0 : symbol_info_tick (mt5 w) (symbol signal) <> None ->
                  symbol_info_tick (mt5 w0) (symbol signal) <> None)
      by (subst w0; auto).
    assert (Hi0 : symbol_info (mt5 w) (symbol signal) <> None ->
                  symbol_info (mt5 w0) (symbol signal) <> None)
      by (subst w0; auto).
    split; [|split; [intros E; discriminate E|split]].
    + destruct (action_is Last_version1 signal BUY).
      * rewrite E1. exact Hs.
      * destruct (action_is Last_version1 signal SELL).
        -- rewrite E2. exact Hs.
        -- exact Hs.
    + intros _ Ha Ht Hi Hv. unfold action_is. rewrite Ha.
      change (py_eq (PStr "BUY") (PStr (value BUY))) with true.
      cbv iota beta. rewrite E1.
      rewrite (N1 (Ht0 Ht) (Hi0 Hi) Hv). subst w0. unfold log. simpl.
      rewrite <- List.app_assoc. reflexivity.
    + intros _ Ha Ht Hi Hv. unfold action_is. rewrite Ha.
      change (py_eq (PStr "SELL") (PStr (value BUY))) with false.
      change (py_eq (PStr "SELL") (PStr (value SELL))) with true.
      cbv iota beta. rewrite E2.
      rewrite (N2 (Ht0 Ht) (Hi0 Hi) Hv). subst w0. unfold log. simpl.
      rewrite <- List.app_assoc. reflexivity.
Qed.

End ExecuteClaims.

Lemma execute_order_submits_no_entry_witness :
  tradetime Last_version (now (fresh requote_then_done monday_10h)) <> 0%Z
  /\ open_position buy_signal <> ""
  /\ execute_order Last_version scenario_config a_bot buy_signal
       (fresh requote_then_done monday_10h)
     = (Returned tt,
        mkWorld requote_then_done monday_10h []
                [LogExecuting buy_signal; LogError "Action is not supported."]
                0 []).
Proof.
  assert (Hgate : tradetime Last_version (now (fresh requote_then_done monday_10h))
                  <> 0%Z) by (intros E; discriminate E).
  assert (Htag : open_position buy_signal <> "") by (intros E; discriminate E).
  split; [exact Hgate|]. split; [exact Htag|].
  exact (proj1 (proj2 (execute_order_submits_no_entry scenario_config a_bot
                         Last_version buy_signal
                         (fresh requote_then_done monday_10h) Hgate Htag))
               eq_refl).
Defined.

(* ================================================================== *)
(** * The retry policy, as applied *)

(** C2, on the code: an attempt that raises is never repeated. The
    predicate of [retry_if_result] is asked about returned values only,
    and the three decorated methods return [None] or the result of
    [mt5.order_send], never an exception object: each of them is its
    undecorated body, run once, with no wait, and the exception of a
    rejected order leaves at the first attempt. *)
Theorem decorated_methods_run_once :
  forall (F : Type) (PF : PyFloat F) (B : Type) (T : Terminal F B)
         (rev : revision) (config : Config F) (self : TradingBot)
         (signal : TradingSignal) (comment : string) (w : World F B),
    enter_long rev config self signal w
    = enter_long_wrapped rev config self signal w
    /\ enter_short rev config self signal w
       = enter_short_wrapped rev config self signal w
    /\ close_position_by_comment rev self comment w
       = close_position_by_comment_wrapped rev self comment w
    /\ (forall (fn : M (World F B) pyobj) e w1,
           fn w = (Raised e, w1) -> retry fn w = (Raised e, w1)).
Proof.
  intros. split; [apply enter_long_unwrap|].
  split; [apply enter_short_unwrap|]. split; [apply close_unwrap|].
  intros fn e w1 H. rewrite retry_once; [exact H|].
  intros e' w2 E. congruence.
Qed.

(** The failing input of C2: the terminal answers the first order with a
    requote and would fill the second. [enter_long] sends one request,
    raises, has not waited, and the filling answer is still unused. *)
Lemma decorated_methods_run_once_witness :
  fst (enter_long Last_version scenario_config a_bot buy_signal
         (fresh requote_then_done monday_10h))
  = Raised (Exception "Trade failed")
  /\ length (sent (snd (enter_long Last_version scenario_config a_bot buy_signal
                          (fresh requote_then_done monday_10h)))) = 1%nat
  /\ slept (snd (enter_long Last_version scenario_config a_bot buy_signal
                   (fresh requote_then_done monday_10h))) = 0%nat
  /\ calls (snd (enter_long Last_version scenario_config a_bot buy_signal
                   (fresh requote_then_done monday_10h)))
     = [CallEnterLong buy_signal]
  /\ replies (mt5 (snd (enter_long Last_version scenario_config a_bot buy_signal
                          (fresh requote_then_done monday_10h))))
     = [done].
Proof.
  rewrite (proj1 (@decorated_methods_run_once
                    float binary64 (Script float) (scripted float)
                    Last_version scenario_config a_bot buy_signal ""
                    (fresh requote_then_done monday_10h))).
  repeat split.
Defined.

(* ================================================================== *)
(** * Examples of closing *)

(** C3 as stated fails: two open positions, [A] and [B], and a terminal
    that rejects the first closing order. The rejection raises out of
    the loop: [B] is never attempted and no request names its ticket. *)
Lemma close_all_positions_aborts_on_rejection :
  fst (close_all_positions Last_version a_bot
         (fresh (two_positions [requote; done]) monday_5h))
  = Raised (Exception "Trade failed")
  /\ calls (snd (close_all_positions Last_version a_bot
                   (fresh (two_positions [requote; done]) monday_5h)))
     = [CallClose "A"]
  /\ map (fun r : Req.t float => Req.position r)
         (sent (snd (close_all_positions Last_version a_bot
                       (fresh (two_positions [requote; done]) monday_5h))))
     = [Some 1%Z].
Proof. repeat split. Qed.

(** A close that returns does not end the loop: here [mt5.order_send]
    answers [None] for [A], and [B] is closed after it. *)
Example close_all_positions_goes_on_after_none :
  fst (close_all_positions Last_version a_bot
         (fresh (two_positions [None; done]) monday_5h))
  = Returned tt
  /\ map (fun r : Req.t float => Req.position r)
         (sent (snd (close_all_positions Last_version a_bot
                       (fresh (two_positions [None; done]) monday_5h))))
     = [Some 1%Z; Some 2%Z].
Proof. repeat split. Qed.

Lemma close_all_positions_stops_at_first_raise_witness :
  positions_get (mt5 (fresh (two_positions [None; requote]) monday_5h))
  = Some [position_A; position_B]
  /\ fst (close_all_positions Last_version a_bot
            (fresh (two_positions [None; requote]) monday_5h))
     = Raised (Exception "Trade failed")
  /\ fst (close_all_positions Last_version a_bot
            (fresh (two_positions [None; done]) monday_5h))
     = Returned tt.
Proof.
  split; [reflexivity|]. split.
  - set (w := fresh (two_positions [None; requote]) monday_5h).
    set (w1 := snd (close_position_by_comment Last_version a_bot "A" w)).
    set (w2 := snd (close_position_by_comment Last_version a_bot "B" w1)).
    assert (Hps : positions_get (mt5 w) = Some [position_A; position_B])
      by reflexivity.
    assert (Hbefore : after_closes Last_version a_bot [position_A] w = Some w1)
      by (vm_compute; reflexivity).
    assert (Hp : close_position_by_comment Last_version a_bot
                   (Pos.comment position_B) w1
                 = (Raised (Exception "Trade failed"), w2))
      by (vm_compute; reflexivity).
    destruct (close_all_positions_stops_at_first_raise Last_version a_bot w Hps)
      as (_ & Hraise & _).
    destruct (Hraise [position_A] position_B [] w1 _ w2 eq_refl Hbefore Hp)
      as [Hr _].
    rewrite Hr. reflexivity.
  - set (w := fresh (two_positions [None; done]) monday_5h).
    set (w2 := snd (close_position_by_comment Last_version a_bot "B"
                      (snd (close_position_by_comment Last_version a_bot "A" w)))).
    assert (Hps : positions_get (mt5 w) = Some [position_A; position_B])
      by reflexivity.
    assert (Hall : after_closes Last_version a_bot [position_A; position_B] w
                   = Some w2)
      by (vm_compute; reflexivity).
    destruct (close_all_positions_stops_at_first_raise Last_version a_bot w Hps)
      as (Hreturn & _ & _).
    destruct (Hreturn w2 Hall) as [Hd _].
    rewrite Hd. reflexivity.
Defined.

Lemma close_unknown_tag_sends_nothing_witness :
  positions_get (mt5 (fresh (two_positions [done]) monday_10h))
  = Some [position_A; position_B]
  /\ (forall p, In p [position_A; position_B] -> Pos.comment p <> "Long_1")
  /\ close_position_by_comment Last_version a_bot "Long_1"
       (fresh (two_positions [done]) monday_10h)
     = (Returned PyNone,
        mkWorld (two_positions [done]) monday_10h []
                [LogError "Error: Position with comment Long_1 does not exist"]
                0 [CallClose "Long_1"]).
Proof.
  assert (H : forall p, In p [position_A; position_B] ->
                        Pos.comment p <> "Long_1").
  { intros p [<-|[<-|[]]]; intros E; discriminate E. }
  split; [reflexivity|]. split; [exact H|].
  exact (close_unknown_tag_sends_nothing Last_version a_bot
           (fresh (two_positions [done]) monday_10h) eq_refl H).
Defined.

(** Two positions carry the tag [A]; the request names the first. *)
Lemma close_by_comment_closes_first_match_witness :
  map (fun r : Req.t float => Req.position r)
      (sent (snd (close_position_by_comment Last_version a_bot "A"
                    (fresh (mkScript (Some [position_B; position_A; position_A2])
                                     (Some scenario_quote) (Some scenario_info)
                                     [done; done])
                           monday_10h))))
  = [Some 1%Z].
Proof.
  assert (H : forall q, In q [position_B] -> Pos.comment q <> "A").
  { intros q [<-|[]]; intros E; discriminate E. }
  assert (Hps : positions_get
                  (mt5 (fresh (mkScript
                                 (Some [position_B; position_A; position_A2])
                                 (Some scenario_quote) (Some scenario_info)
                                 [done; done])
                              monday_10h))
                = Some ([position_B] ++ position_A :: [position_A2])%list)
    by reflexivity.
  destruct (close_by_comment_closes_first_match Last_version a_bot
              _ [position_B] [position_A2] position_A Hps H eq_refl)
    as [Hsent _].
  rewrite Hsent. reflexivity.
Defined.

(* ================================================================== *)
(** * The trailing stop *)

(* ================================================================== *)
(** * Facts about the rounding of binary floats *)

Module Rounding.
Import Line.
Local Open Scope Z_scope.

Lemma pow2_pos k : 0 <= k -> 0 < 2 ^ k.
Proof. intros H. apply Z.pow_pos_nonneg; lia. Qed.

Lemma pow2_add a b : 0 <= a -> 0 <= b -> 2 ^ (a + b) = 2 ^ a * 2 ^ b.
Proof. intros. apply Z.pow_add_r; assumption. Qed.

Lemma pow2_le a b : 0 <= a <= b -> 2 ^ a <= 2 ^ b.
Proof. intros. apply Z.pow_le_mono_r; lia. Qed.

Lemma pow2_lt a b : 0 <= a < b -> 2 ^ a < 2 ^ b.
Proof. intros. apply Z.pow_lt_mono_r; lia. Qed.

Lemma pow2_split a b : 0 <= a <= b -> 2 ^ b = 2 ^ (b - a) * 2 ^ a.
Proof.
  intros H. rewrite <- pow2_add by lia. f_equal. lia.
Qed.

(** The number of binary digits. *)
Lemma digits_bounds m :
  2 ^ (Zpos (digits2_pos m) - 1) <= Zpos m < 2 ^ Zpos (digits2_pos m).
Proof.
  induction m as [m IH|m IH|]; cbn [digits2_pos].
  - rewrite Pos2Z.inj_succ, Pos2Z.inj_xI.
    replace (Z.succ (Zpos (digits2_pos m)) - 1)
      with (1 + (Zpos (digits2_pos m) - 1)) by lia.
    replace (Z.succ (Zpos (digits2_pos m)))
      with (1 + Zpos (digits2_pos m)) by lia.
    rewrite !pow2_add by lia. change (2 ^ 1) with 2. lia.
  - rewrite Pos2Z.inj_succ, Pos2Z.inj_xO.
    replace (Z.succ (Zpos (digits2_pos m)) - 1)
      with (1 + (Zpos (digits2_pos m) - 1)) by lia.
    replace (Z.succ (Zpos (digits2_pos m)))
      with (1 + Zpos (digits2_pos m)) by lia.
    rewrite !pow2_add by lia. change (2 ^ 1) with 2. lia.
  - simpl. lia.
Qed.

(** Shifting a mantissa to the left. *)
Lemma iter_xO m d : Zpos (Pos.iter xO m d) = Zpos m * 2 ^ Zpos d.
Proof.
  revert m. induction d as [|d IH] using Pos.peano_ind; intros m.
  - simpl. lia.
  - rewrite Pos.iter_succ, Pos2Z.inj_xO, IH, Pos2Z.inj_succ.
    replace (Z.succ (Zpos d)) with (1 + Zpos d) by lia.
    rewrite pow2_add by lia. change (2 ^ 1) with 2. lia.
Qed.

Lemma digits_iter_xO m d :
  Zpos (digits2_pos (Pos.iter xO m d)) = Zpos (digits2_pos m) + Zpos d.
Proof.
  revert m. induction d as [|d IH] using Pos.peano_ind; intros m.
  - simpl. lia.
  - rewrite Pos.iter_succ. cbn [digits2_pos].
    rewrite Pos2Z.inj_succ, IH. lia.
Qed.


(** One step to the right. *)
Lemma shr_1_nonneg m r s :
  0 <= m ->
  shr_1 {| shr_m := m; shr_r := r; shr_s := s |}
  = {| shr_m := Z.div2 m; shr_r := Z.odd m; shr_s := r || s |}.
Proof.
  intros H. destruct m as [|p|p]; [reflexivity| |lia].
  destruct p; reflexivity.
Qed.


Lemma shr_inv_step m0 k mrs :
  0 <= m0 -> 0 <= k -> shr_inv m0 k mrs -> shr_inv m0 (k + 1) (shr_1 mrs).
Proof.
  intros Hm0 Hk [Hm Hf]. destruct mrs as [m r s]. cbn [shr_m shr_r shr_s] in *.
  assert (Hp : 0 < 2 ^ k) by (apply pow2_pos; lia).
  assert (Hm' : 0 <= m) by (subst m; apply Z.div_pos; lia).
  rewrite shr_1_nonneg by exact Hm'. cbn [shr_m shr_r shr_s].
  assert (E : 2 ^ (k + 1) = 2 ^ k * 2)
    by (rewrite pow2_add by lia; reflexivity).
  split.
  - rewrite Z.div2_div, Hm, E, Z.div_div by lia. reflexivity.
  - intros Hflag Hmod. rewrite E in Hmod.
    apply Z.mod_divide in Hmod; [|lia]. destruct Hmod as [q Hq].
    assert (Hq' : m0 = (q * 2) * 2 ^ k) by lia.
    assert (Hmk : m0 mod 2 ^ k = 0)
      by (rewrite Hq'; apply Z.mod_mul; lia).
    assert (Hdk : m = q * 2)
      by (rewrite Hm, Hq'; apply Z.div_mul; lia).
    assert (Hodd : Z.odd m = false).
    { rewrite Hdk, Z.odd_mul. simpl. apply andb_false_r. }
    rewrite Hodd in Hflag. simpl in Hflag. exact (Hf Hflag Hmk).
Qed.

Lemma shr_inv_iter m0 (Hm0 : 0 <= m0) p :
  forall k mrs, 0 <= k -> shr_inv m0 k mrs ->
  shr_inv m0 (k + Zpos p) (iter_pos shr_1 p mrs).
Proof.
  induction p as [p IH|p IH|]; intros k mrs Hk H; cbn [iter_pos].
  - replace (k + Zpos p~1) with (((k + 1) + Zpos p) + Zpos p) by lia.
    apply IH; [lia|]. apply IH; [lia|]. apply shr_inv_step; assumption.
  - replace (k + Zpos p~0) with ((k + Zpos p) + Zpos p) by lia.
    apply IH; [lia|]. apply IH; assumption.
  - apply shr_inv_step; assumption.
Qed.

Lemma shr_inv_0 m : shr_inv m 0 {| shr_m := m; shr_r := false; shr_s := false |}.
Proof.
  split; cbn [shr_m shr_r shr_s].
  - change (2 ^ 0) with 1. rewrite Z.div_1_r. reflexivity.
  - discriminate.
Qed.

Lemma rne_cases mrs :
  round_nearest_even (shr_m mrs) (loc_of_shr_record mrs) = shr_m mrs
  \/ (round_nearest_even (shr_m mrs) (loc_of_shr_record mrs) = shr_m mrs + 1
      /\ shr_r mrs || shr_s mrs = true).
Proof.
  destruct mrs as [m [] []]; cbn; try destruct (Z.even m); auto.
Qed.


Section Format.
Variables prec emax : Z.
Hypothesis Hprec : 0 < prec.
Hypothesis Hemax : prec < emax.

Local Abbreviation emin := (SpecFloat.emin prec emax).
Local Abbreviation fexp := (SpecFloat.fexp prec emax).
Local Abbreviation Vz := (Line.Vz prec emax).
Local Abbreviation Uabs := (Line.Uabs prec emax).
Local Abbreviation ord := (Line.ord prec emax).
Local Abbreviation brackets := (Line.brackets prec emax).


Lemma fexp_eq x : fexp x = Z.max (x - prec) emin.
Proof. reflexivity. Qed.

Lemma emin_eq : emin = 3 - emax - prec.
Proof. reflexivity. Qed.

Lemma shr_fexp_inv m e :
  0 <= m ->
  shr_inv m (Z.max 0 (fexp (Zdigits2 m + e) - e))
          (fst (shr_fexp prec emax m e loc_Exact))
  /\ snd (shr_fexp prec emax m e loc_Exact)
     = e + Z.max 0 (fexp (Zdigits2 m + e) - e).
Proof.
  intros Hm. unfold shr_fexp, shr. cbn [shr_record_of_loc].
  destruct (fexp (Zdigits2 m + e) - e) as [|p|p]; cbn [fst snd].
  - split; [apply shr_inv_0|lia].
  - replace (Z.max 0 (Zpos p)) with (0 + Zpos p) by lia. split; [|lia].
    apply shr_inv_iter; [exact Hm|lia|apply shr_inv_0].
  - replace (Z.max 0 (Zneg p)) with 0 by lia. split; [apply shr_inv_0|lia].
Qed.

Lemma bounded_inv mf ef :
  bounded prec emax mf ef = true ->
  ef = fexp (Zpos (digits2_pos mf) + ef) /\ ef <= emax - prec.
Proof.
  unfold bounded, canonical_mantissa. intros H.
  apply andb_prop in H. destruct H as [H1 H2].
  apply Z.eqb_eq in H1. apply Z.leb_le in H2. split; [symmetry; exact H1|exact H2].
Qed.

(** No float lies strictly between a truncated value and the next
    multiple of its unit. *)
Lemma gap m e mf ef :
  emin <= e -> e <= fexp (Zpos (digits2_pos m) + e) ->
  bounded prec emax mf ef = true ->
  Vz (Zpos mf) ef
  < (Zpos m / 2 ^ (fexp (Zpos (digits2_pos m) + e) - e) + 1)
    * 2 ^ (fexp (Zpos (digits2_pos m) + e) - emin) ->
  Vz (Zpos mf) ef
  <= (Zpos m / 2 ^ (fexp (Zpos (digits2_pos m) + e) - e))
     * 2 ^ (fexp (Zpos (digits2_pos m) + e) - emin).
Proof.
  intros He Hc Hb. apply bounded_inv in Hb. destruct Hb as [Hef _].
  set (d := Zpos (digits2_pos m)) in *.
  set (df := Zpos (digits2_pos mf)) in *.
  set (c := fexp (d + e)) in *.
  set (q := Zpos m / 2 ^ (c - e)).
  assert (Hd : 0 < d) by (unfold d; lia).
  assert (Hdf : 0 < df) by (unfold df; lia).
  assert (Hcv : c = Z.max (d + e - prec) emin) by reflexivity.
  assert (Hefv : ef = Z.max (df + ef - prec) emin) by exact Hef.
  unfold Line.Vz. intros Hlt.
  assert (HA : 0 < 2 ^ (c - emin)) by (apply pow2_pos; lia).
  destruct (Z_le_gt_dec c ef) as [Hge|Hlt'].
  - rewrite (pow2_split (a := c - emin) (b := ef - emin)) in * by lia.
    replace (ef - emin - (c - emin)) with (ef - c) in * by lia.
    assert (HB : 0 < 2 ^ (ef - c)) by (apply pow2_pos; lia).
    rewrite Z.mul_assoc in *.
    apply Z.mul_lt_mono_pos_r in Hlt; [|exact HA].
    apply Z.mul_le_mono_nonneg_r; lia.
  - assert (Hcd : c = d + e - prec) by lia.
    assert (Hmag : df + ef <= d + e - 1) by lia.
    pose proof (digits_bounds mf) as [_ Hmf]. fold df in Hmf.
    pose proof (digits_bounds m) as [Hm _]. fold d in Hm.
    assert (H1 : Zpos mf * 2 ^ (ef - emin) < 2 ^ (d + e - 1 - emin)).
    { apply Z.lt_le_trans with (2 ^ df * 2 ^ (ef - emin)).
      - apply Z.mul_lt_mono_pos_r; [apply pow2_pos; lia|exact Hmf].
      - rewrite <- pow2_add by lia. apply pow2_le. lia. }
    assert (H2 : 2 ^ (prec - 1) <= q).
    { unfold q. apply Z.div_le_lower_bound; [apply pow2_pos; lia|].
      rewrite <- pow2_add by lia.
      replace (c - e + (prec - 1)) with (d - 1) by lia. exact Hm. }
    assert (H3 : 2 ^ (d + e - 1 - emin) <= q * 2 ^ (c - emin)).
    { replace (d + e - 1 - emin) with ((prec - 1) + (c - emin)) by lia.
      rewrite pow2_add by lia. apply Z.mul_le_mono_nonneg_r; lia. }
    lia.
Qed.


Lemma bounded_lt_top mf ef :
  bounded prec emax mf ef = true ->
  0 < Vz (Zpos mf) ef < 2 ^ (emax - emin).
Proof.
  intros Hb. apply bounded_inv in Hb. destruct Hb as [He Hmax].
  rewrite fexp_eq in He. pose proof (digits_bounds mf) as [_ Hm].
  assert (Hd : 0 < Zpos (digits2_pos mf)) by lia.
  unfold Line.Vz. split.
  - apply Z.mul_pos_pos; [lia|apply pow2_pos; lia].
  - apply Z.lt_le_trans
      with (2 ^ Zpos (digits2_pos mf) * 2 ^ (ef - emin)).
    + apply Z.mul_lt_mono_pos_r; [apply pow2_pos; lia|exact Hm].
    + rewrite <- pow2_add by lia. apply pow2_le. rewrite emin_eq in *. lia.
Qed.



(** Quotient and remainder of a truncation, as values. *)
Lemma trunc_bounds m k e :
  0 <= m -> 0 <= k -> emin <= e ->
  (m / 2 ^ k) * 2 ^ (e + k - emin) <= m * 2 ^ (e - emin)
  < (m / 2 ^ k + 1) * 2 ^ (e + k - emin).
Proof.
  intros Hm Hk He.
  assert (Hp : 0 < 2 ^ k) by (apply pow2_pos; lia).
  assert (HA : 0 < 2 ^ (e - emin)) by (apply pow2_pos; lia).
  replace (e + k - emin) with (k + (e - emin)) by lia.
  rewrite pow2_add by lia. rewrite !Z.mul_assoc.
  pose proof (Z.div_mod m (2 ^ k) ltac:(lia)) as Hdm.
  pose proof (Z.mod_pos_bound m (2 ^ k) Hp) as Hr.
  split.
  - apply Z.mul_le_mono_nonneg_r; [lia|]. nia.
  - apply Z.mul_lt_mono_pos_r; [lia|]. nia.
Qed.

Lemma round_aux_bracket sx m e :
  emin <= e -> e <= fexp (Zpos (digits2_pos m) + e) ->
  signed sx (binary_round_aux prec emax sx (Zpos m) e loc_Exact)
  /\ (forall mf ef, bounded prec emax mf ef = true ->
       Vz (Zpos mf) ef <= Vz (Zpos m) e ->
       Vz (Zpos mf) ef
       <= Uabs (binary_round_aux prec emax sx (Zpos m) e loc_Exact))
  /\ (forall mf ef, bounded prec emax mf ef = true ->
       Vz (Zpos m) e <= Vz (Zpos mf) ef ->
       Uabs (binary_round_aux prec emax sx (Zpos m) e loc_Exact)
       <= Vz (Zpos mf) ef).
Proof.
  intros He Hc.
  set (d := Zpos (digits2_pos m)) in *.
  set (c := fexp (d + e)) in *.
  assert (Hcv : c = Z.max (d + e - prec) emin) by reflexivity.
  assert (Hd : 0 < d) by (unfold d; lia).
  (* the first truncation *)
  destruct (shr_fexp_inv (m := Zpos m) e ltac:(lia)) as [[Hq Hflag] He1].
  cbn [Zdigits2] in Hq, Hflag, He1. fold d in Hq, Hflag, He1.
  fold c in Hq, Hflag, He1.
  replace (Z.max 0 (c - e)) with (c - e) in Hq, Hflag, He1 by lia.
  replace (e + (c - e)) with c in He1 by lia.
  unfold binary_round_aux.
  destruct (shr_fexp prec emax (Zpos m) e loc_Exact) as [mrs1 e1].
  cbn [fst snd] in Hq, Hflag, He1. subst e1.
  set (q := Zpos m / 2 ^ (c - e)) in *.
  assert (Hq0 : 0 <= q) by (apply Z.div_pos; [lia|apply pow2_pos; lia]).
  pose proof (trunc_bounds (m := Zpos m) (k := c - e) (e := e)
                ltac:(lia) ltac:(lia) He) as Hv.
  fold q in Hv. replace (e + (c - e) - emin) with (c - emin) in Hv by lia.
  fold (Vz (Zpos m) e) in Hv.
  (* rounding *)
  set (m2 := round_nearest_even (shr_m mrs1) (loc_of_shr_record mrs1)).
  assert (Hm2 : m2 = q
                \/ m2 = q + 1 /\ q * 2 ^ (c - emin) < Vz (Zpos m) e).
  { destruct (rne_cases mrs1) as [E|[E Hf]]; fold m2 in E; rewrite Hq in E.
    - left. exact E.
    - right. split; [exact E|]. apply Hflag in Hf.
      unfold Line.Vz. replace (c - emin) with ((c - e) + (e - emin)) by lia.
      rewrite pow2_add by lia. rewrite Z.mul_assoc.
      apply Z.mul_lt_mono_pos_r; [apply pow2_pos; lia|].
      pose proof (Z.div_mod (Zpos m) (2 ^ (c - e))
                    ltac:(pose proof (pow2_pos (k := c - e)); lia)) as Hdm.
      pose proof (Z.mod_pos_bound (Zpos m) (2 ^ (c - e))
                    ltac:(apply pow2_pos; lia)) as Hr.
      fold q in Hdm. nia. }
  assert (Hm20 : 0 <= m2) by lia.
  assert (Hqm2 : q <= m2) by lia.
  (* the second truncation *)
  destruct (shr_fexp_inv (m := m2) c Hm20) as [[Hq2 _] He2].
  destruct (shr_fexp prec emax m2 c loc_Exact) as [mrs2 e2].
  cbn [fst snd] in Hq2, He2.
  set (k2 := Z.max 0 (fexp (Zdigits2 m2 + c) - c)) in *.
  assert (Hk2 : 0 <= k2) by (unfold k2; lia).
  assert (Hq20 : 0 <= shr_m mrs2)
    by (rewrite Hq2; apply Z.div_pos; [lia|apply pow2_pos; lia]).
  pose proof (trunc_bounds (m := m2) (k := k2) (e := c)
                Hm20 Hk2 ltac:(lia)) as Hv2.
  rewrite <- Hq2, <- He2 in Hv2.
  (* a float below the rounded mantissa is below its truncation *)
  assert (F3 : forall mf ef, bounded prec emax mf ef = true ->
               Vz (Zpos mf) ef <= m2 * 2 ^ (c - emin) ->
               Vz (Zpos mf) ef <= shr_m mrs2 * 2 ^ (e2 - emin)).
  { intros mf ef Hb Hle.
    destruct (Z_le_gt_dec (fexp (Zdigits2 m2 + c) - c) 0) as [Hk|Hk].
    - assert (k2 = 0) by (unfold k2; lia).
      replace k2 with 0 in *. change (2 ^ 0) with 1 in Hq2.
      rewrite Z.div_1_r in Hq2. rewrite Hq2, He2.
      replace (c + 0 - emin) with (c - emin) by lia. exact Hle.
    - assert (k2 = fexp (Zdigits2 m2 + c) - c) by (unfold k2; lia).
      destruct m2 as [|p2|p2]; [|clear Hm20|lia].
      + pose proof (bounded_lt_top mf ef Hb). lia.
      + cbn [Zdigits2] in *.
        pose proof (@gap p2 c mf ef ltac:(lia) ltac:(lia) Hb) as G.
        replace (fexp (Zpos (digits2_pos p2) + c) - c) with k2 in G by lia.
        replace (fexp (Zpos (digits2_pos p2) + c) - emin)
          with (e2 - emin) in G by lia.
        rewrite <- Hq2 in G. apply G. lia. }
  split; [|split].
  - (* the kind of the result *)
    destruct (shr_m mrs2) as [|p|p]; [left; reflexivity| |lia].
    destruct (e2 <=? emax - prec); right; [left; eauto|right; reflexivity].
  - intros mf ef Hb Hle.
    assert (Hfq : Vz (Zpos mf) ef <= q * 2 ^ (c - emin)).
    { apply (@gap m e mf ef He Hc Hb). fold d. fold c. fold q. lia. }
    assert (Hfm : Vz (Zpos mf) ef <= m2 * 2 ^ (c - emin)).
    { apply Z.le_trans with (1 := Hfq).
      apply Z.mul_le_mono_nonneg_r; [|lia].
      pose proof (pow2_pos (k := c - emin)). lia. }
    pose proof (F3 mf ef Hb Hfm) as Hres.
    pose proof (bounded_lt_top mf ef Hb) as Htop.
    destruct (shr_m mrs2) as [|p|p]; [exact Hres| |lia].
    destruct (e2 <=? emax - prec); cbn [Line.Uabs]; [exact Hres|lia].
  - intros mf ef Hb Hle.
    pose proof (bounded_lt_top mf ef Hb) as Htop.
    assert (Hmf : m2 * 2 ^ (c - emin) <= Vz (Zpos mf) ef).
    { destruct Hm2 as [->|[-> Hlt]]; [lia|].
      destruct (Z_lt_le_dec (Vz (Zpos mf) ef) ((q + 1) * 2 ^ (c - emin)))
        as [Hlow|Hhigh]; [|exact Hhigh].
      assert (Vz (Zpos mf) ef <= q * 2 ^ (c - emin)).
      { apply (@gap m e mf ef He Hc Hb). fold d. fold c. fold q.
        exact Hlow. }
      lia. }
    destruct (shr_m mrs2) as [|p|p] eqn:Ep; [cbn [Line.Uabs]; lia| |lia].
    destruct (Z.leb_spec e2 (emax - prec)) as [Hfin|Hover]; cbn [Line.Uabs].
    + unfold Line.Vz at 1. lia.
    + exfalso.
      assert (Htopm : 2 ^ (emax - emin) <= m2 * 2 ^ (c - emin));
        [|lia].
      destruct (Z_le_gt_dec (fexp (Zdigits2 m2 + c) - c) 0) as [Hk|Hk].
      * assert (k2 = 0) by (unfold k2; lia).
        assert (Hcd : c = d + e - prec) by (rewrite emin_eq in *; lia).
        assert (H2 : 2 ^ (prec - 1) <= q).
        { unfold q. apply Z.div_le_lower_bound; [apply pow2_pos; lia|].
          rewrite <- pow2_add by lia.
          replace (c - e + (prec - 1)) with (d - 1) by lia.
          apply (digits_bounds m). }
        apply Z.le_trans with (2 ^ (prec - 1) * 2 ^ (c - emin)).
        -- rewrite <- pow2_add by lia. apply pow2_le.
           rewrite emin_eq in *. lia.
        -- apply Z.mul_le_mono_nonneg_r; [|lia].
           pose proof (pow2_pos (k := c - emin)). lia.
      * assert (k2 = fexp (Zdigits2 m2 + c) - c) by (unfold k2; lia).
        destruct m2 as [|p2|p2]; [|clear Hm20|lia].
        { change (0 / 2 ^ k2) with 0 in Hq2. lia. }
        cbn [Zdigits2] in *.
        pose proof (digits_bounds p2) as [Hp2 _].
        assert (Hdig : emax + 1 <= Zpos (digits2_pos p2) + c)
          by (rewrite fexp_eq, emin_eq in *; lia).
        apply Z.le_trans
          with (2 ^ (Zpos (digits2_pos p2) - 1) * 2 ^ (c - emin)).
        -- rewrite <- pow2_add by lia. apply pow2_le.
           rewrite emin_eq in *. lia.
        -- apply Z.mul_le_mono_nonneg_r; [|lia].
           pose proof (pow2_pos (k := c - emin)). lia.
Qed.


Lemma Vz_shift m d e :
  emin <= e -> Vz (m * 2 ^ Zpos d) e = Vz m (e + Zpos d).
Proof.
  intros He. unfold Line.Vz.
  replace (e + Zpos d - emin) with (Zpos d + (e - emin)) by lia.
  rewrite pow2_add by lia. ring.
Qed.

(** Aligning a mantissa to a lower exponent keeps its value. *)
Lemma shl_align_value m e e' :
  emin <= e' ->
  Vz (Zpos (fst (shl_align m e e'))) (snd (shl_align m e e')) = Vz (Zpos m) e
  /\ (e' <= e -> snd (shl_align m e e') = e')
  /\ (e <= e' -> shl_align m e e' = (m, e))
  /\ Zpos (digits2_pos (fst (shl_align m e e'))) + snd (shl_align m e e')
     = Zpos (digits2_pos m) + e.
Proof.
  intros He'. unfold shl_align.
  destruct (e' - e) as [|p|p] eqn:E; cbn [fst snd].
  - repeat split; auto; lia.
  - repeat split; auto; lia.
  - rewrite iter_xO, digits_iter_xO, Vz_shift by lia.
    replace (e' + Zpos p) with e by lia.
    repeat split; auto; lia.
Qed.

Lemma round_bracket sx m e :
  emin <= e ->
  signed sx (binary_round prec emax sx m e)
  /\ (forall mf ef, bounded prec emax mf ef = true ->
       Vz (Zpos mf) ef <= Vz (Zpos m) e ->
       Vz (Zpos mf) ef <= Uabs (binary_round prec emax sx m e))
  /\ (forall mf ef, bounded prec emax mf ef = true ->
       Vz (Zpos m) e <= Vz (Zpos mf) ef ->
       Uabs (binary_round prec emax sx m e) <= Vz (Zpos mf) ef).
Proof.
  intros He. unfold binary_round.
  set (c := fexp (Zpos (digits2_pos m) + e)).
  assert (Hc : emin <= c) by (unfold c; rewrite fexp_eq; lia).
  destruct (shl_align_value m e Hc) as (Hv & Hlow & Hsame & Hdig).
  fold c in Hv, Hlow, Hsame, Hdig.
  destruct (shl_align m e c) as [mz ez]. cbn [fst snd] in *.
  rewrite <- Hv.
  apply round_aux_bracket.
  - destruct (Z_le_gt_dec c e) as [H|H].
    + rewrite (Hlow H). exact Hc.
    + injection (Hsame ltac:(lia)) as _ ->. exact He.
  - rewrite Hdig. fold c.
    destruct (Z_le_gt_dec c e) as [H|H].
    + rewrite (Hlow H). lia.
    + injection (Hsame ltac:(lia)) as _ ->. lia.
Qed.




Lemma top_pos : 0 < 2 ^ (emax - emin).
Proof. apply pow2_pos. rewrite emin_eq. lia. Qed.

Lemma signed_ord s r :
  signed s r ->
  r <> S754_nan /\ 0 <= Uabs r
  /\ ord r = if s then - Uabs r else Uabs r.
Proof.
  pose proof top_pos.
  intros [->|[(m & e & ->)| ->]]; cbn [Line.Uabs Line.ord];
    (split; [discriminate|]); (split; [|destruct s; reflexivity]).
  - lia.
  - unfold Line.Vz. apply Z.mul_nonneg_nonneg; [lia|].
    apply Z.pow_nonneg. lia.
  - lia.
Qed.

Lemma normalize_brackets M e szero :
  emin <= e -> brackets (binary_normalize prec emax M e szero) (Vz M e).
Proof.
  intros He. unfold binary_normalize.
  destruct M as [|m|m].
  - split; [discriminate|]. intros f _ _. unfold Line.Vz. cbn [Line.ord]. lia.
  - destruct (round_bracket false m He) as (Hs & Hlo & Hhi).
    destruct (signed_ord Hs) as (Hn & H0 & Ho).
    split; [exact Hn|]. intros f Hv Hf. rewrite Ho.
    assert (Hw : 0 < Vz (Zpos m) e).
    { unfold Line.Vz. apply Z.mul_pos_pos; [lia|apply pow2_pos; lia]. }
    destruct f as [sf| |  |sf mf ef]; try discriminate Hf; cbn [Line.ord].
    + lia.
    + cbn [SpecFloat.valid_binary] in Hv. pose proof (bounded_lt_top mf ef Hv).
      destruct sf; [lia|]. split; [apply Hlo|apply Hhi]; exact Hv.
  - destruct (round_bracket true m He) as (Hs & Hlo & Hhi).
    destruct (signed_ord Hs) as (Hn & H0 & Ho).
    split; [exact Hn|]. intros f Hv Hf. rewrite Ho.
    assert (Hw : 0 < Vz (Zpos m) e).
    { unfold Line.Vz. apply Z.mul_pos_pos; [lia|apply pow2_pos; lia]. }
    assert (Hneg : Vz (Zneg m) e = - Vz (Zpos m) e).
    { unfold Line.Vz. rewrite <- Pos2Z.opp_pos. ring. }
    rewrite Hneg.
    destruct f as [sf| |  |sf mf ef]; try discriminate Hf; cbn [Line.ord].
    + lia.
    + cbn [SpecFloat.valid_binary] in Hv. pose proof (bounded_lt_top mf ef Hv).
      destruct sf; [|lia].
      pose proof (Hlo mf ef Hv). pose proof (Hhi mf ef Hv). lia.
Qed.


(** Floats with a lower exponent are smaller. *)
Lemma exp_lt_value m1 e1 m2 e2 :
  bounded prec emax m1 e1 = true -> bounded prec emax m2 e2 = true ->
  e1 < e2 -> Vz (Zpos m1) e1 < Vz (Zpos m2) e2.
Proof.
  intros H1 H2 Hlt.
  apply bounded_inv in H1, H2. destruct H1 as [H1 _], H2 as [H2 _].
  rewrite fexp_eq in H1, H2.
  pose proof (digits_bounds m1) as [_ Hm1].
  pose proof (digits_bounds m2) as [Hm2 _].
  set (d1 := Zpos (digits2_pos m1)) in *.
  set (d2 := Zpos (digits2_pos m2)) in *.
  assert (0 < d1) by (unfold d1; lia).
  assert (0 < d2) by (unfold d2; lia).
  unfold Line.Vz.
  apply Z.lt_le_trans with (2 ^ d1 * 2 ^ (e1 - emin)).
  - apply Z.mul_lt_mono_pos_r; [apply pow2_pos; lia|exact Hm1].
  - apply Z.le_trans with (2 ^ (d2 - 1) * 2 ^ (e2 - emin)).
    + rewrite <- !pow2_add by lia. apply pow2_le. lia.
    + apply Z.mul_le_mono_nonneg_r; [|exact Hm2].
      pose proof (pow2_pos (k := e2 - emin)). lia.
Qed.

Lemma compare_magnitudes m1 e1 m2 e2 :
  bounded prec emax m1 e1 = true -> bounded prec emax m2 e2 = true ->
  match e1 ?= e2 with
  | Lt => Lt
  | Gt => Gt
  | Eq => Pos.compare_cont Eq m1 m2
  end = (Vz (Zpos m1) e1 ?= Vz (Zpos m2) e2).
Proof.
  intros H1 H2. destruct (Z.compare_spec e1 e2) as [E|E|E].
  - subst e2. unfold Line.Vz.
    assert (Hp : 0 < 2 ^ (e1 - emin)).
    { apply pow2_pos. apply bounded_inv in H1. destruct H1 as [H1 _].
      rewrite fexp_eq in H1. lia. }
    change (Pos.compare_cont Eq m1 m2) with (Zpos m1 ?= Zpos m2).
    destruct (Z.compare_spec (Zpos m1) (Zpos m2)) as [E|E|E]; symmetry.
    + apply Z.compare_eq_iff. rewrite E. reflexivity.
    + apply Z.compare_lt_iff. apply Z.mul_lt_mono_pos_r; assumption.
    + apply Z.compare_gt_iff. apply Z.mul_lt_mono_pos_r; assumption.
  - symmetry. apply Z.compare_lt_iff. apply exp_lt_value; assumption.
  - symmetry. apply Z.compare_gt_iff. apply exp_lt_value; assumption.
Qed.

(** On valid floats, [SFcompare] is the order of the line. *)
Lemma compare_ord f1 f2 :
  SpecFloat.valid_binary prec emax f1 = true ->
  SpecFloat.valid_binary prec emax f2 = true ->
  f1 <> S754_nan -> f2 <> S754_nan ->
  SFcompare f1 f2 = Some (ord f1 ?= ord f2).
Proof.
  pose proof top_pos as Htop.
  intros V1 V2 N1 N2.
  destruct f1 as [s1|s1| |s1 m1 e1]; [| |congruence|];
    (destruct f2 as [s2|s2| |s2 m2 e2]; [| |congruence|]);
    cbn [SFcompare Line.ord SpecFloat.valid_binary] in *;
    try pose proof (bounded_lt_top m1 e1 V1);
    try pose proof (bounded_lt_top m2 e2 V2).
  - reflexivity.
  - f_equal. symmetry. destruct s2;
      [apply Z.compare_gt_iff|apply Z.compare_lt_iff]; lia.
  - f_equal. symmetry. destruct s2;
      [apply Z.compare_gt_iff|apply Z.compare_lt_iff]; lia.
  - f_equal. symmetry. destruct s1;
      [apply Z.compare_lt_iff|apply Z.compare_gt_iff]; lia.
  - f_equal. symmetry. destruct s1, s2;
      first [apply Z.compare_eq_iff; lia|apply Z.compare_lt_iff; lia
            |apply Z.compare_gt_iff; lia].
  - f_equal. symmetry. destruct s1, s2;
      first [apply Z.compare_lt_iff; lia|apply Z.compare_gt_iff; lia].
  - f_equal. symmetry. destruct s1;
      [apply Z.compare_lt_iff|apply Z.compare_gt_iff]; lia.
  - f_equal. symmetry. destruct s1, s2;
      first [apply Z.compare_lt_iff; lia|apply Z.compare_gt_iff; lia].
  - f_equal. destruct s1, s2.
    + rewrite Z.compare_opp.
      rewrite <- (compare_magnitudes m2 e2 m1 e1 V2 V1).
      rewrite (Z.compare_antisym e1 e2).
      destruct (e1 ?= e2); cbn [CompOpp]; try reflexivity.
      change (Pos.compare_cont Eq m1 m2) with (m1 ?= m2)%positive.
      change (Pos.compare_cont Eq m2 m1) with (m2 ?= m1)%positive.
      symmetry. apply Pos.compare_antisym.
    + symmetry. apply Z.compare_lt_iff. lia.
    + symmetry. apply Z.compare_gt_iff. lia.
    + apply compare_magnitudes; assumption.
Qed.


Lemma brackets_exact r :
  r <> S754_nan -> brackets r (ord r).
Proof. intros H. split; [exact H|]. intros f _ _. split; auto. Qed.

Lemma valid_exp s m e :
  SpecFloat.valid_binary prec emax (S754_finite s m e) = true -> emin <= e.
Proof.
  cbn [SpecFloat.valid_binary]. intros H. apply bounded_inv in H.
  destruct H as [H _]. rewrite fexp_eq in H. lia.
Qed.

Lemma Vz_add a b e : Vz (a + b) e = Vz a e + Vz b e.
Proof. unfold Line.Vz. ring. Qed.

Lemma Vz_sub a b e : Vz (a - b) e = Vz a e - Vz b e.
Proof. unfold Line.Vz. ring. Qed.

Lemma Vz_cond s m e :
  Vz (cond_Zopp s (Zpos m)) e = if s then - Vz (Zpos m) e else Vz (Zpos m) e.
Proof.
  destruct s; cbn [cond_Zopp]; unfold Line.Vz; [|reflexivity].
  apply Z.mul_opp_l.
Qed.

Lemma aligned_value m e e' :
  emin <= e' -> e' <= e ->
  Vz (Zpos (fst (shl_align m e e'))) e' = Vz (Zpos m) e.
Proof.
  intros H1 H2. destruct (shl_align_value m e H1) as (Hv & Hs & _).
  rewrite (Hs H2) in Hv. exact Hv.
Qed.

(** Addition rounds the exact sum. *)
Lemma add_brackets x y :
  SpecFloat.valid_binary prec emax x = true ->
  SpecFloat.valid_binary prec emax y = true ->
  finz x = true -> finz y = true ->
  brackets (SFadd prec emax x y) (ord x + ord y).
Proof.
  intros Vx Vy Fx Fy.
  destruct x as [sx| | |sx mx ex]; try discriminate Fx;
    (destruct y as [sy| | |sy my ey]; try discriminate Fy).
  - cbn [SFadd Line.ord].
    destruct sx, sy; (split; [discriminate|]); intros f _ _; cbn [Line.ord]; lia.
  - cbn [SFadd]. replace (ord (S754_zero sx) + _)
      with (ord (S754_finite sy my ey)) by (cbn [Line.ord]; lia).
    apply brackets_exact. discriminate.
  - cbn [SFadd]. replace (_ + ord (S754_zero sy))
      with (ord (S754_finite sx mx ex)) by (cbn [Line.ord]; lia).
    apply brackets_exact. discriminate.
  - pose proof (valid_exp _ _ _ Vx) as Hex. pose proof (valid_exp _ _ _ Vy) as Hey.
    cbn [SFadd].
    replace (ord (S754_finite sx mx ex) + ord (S754_finite sy my ey))
      with (Vz (cond_Zopp sx (Zpos (fst (shl_align mx ex (Z.min ex ey))))
                + cond_Zopp sy (Zpos (fst (shl_align my ey (Z.min ex ey)))))
               (Z.min ex ey)).
    + apply normalize_brackets. lia.
    + rewrite Vz_add, !Vz_cond, !aligned_value by lia. reflexivity.
Qed.

(** Subtraction rounds the exact difference. *)
Lemma sub_brackets x y :
  SpecFloat.valid_binary prec emax x = true ->
  SpecFloat.valid_binary prec emax y = true ->
  finz x = true -> finz y = true ->
  brackets (SFsub prec emax x y) (ord x - ord y).
Proof.
  intros Vx Vy Fx Fy.
  destruct x as [sx| | |sx mx ex]; try discriminate Fx;
    (destruct y as [sy| | |sy my ey]; try discriminate Fy).
  - cbn [SFsub Line.ord].
    destruct sx, sy; (split; [discriminate|]); intros f _ _; cbn [Line.ord]; lia.
  - cbn [SFsub].
    replace (ord (S754_zero sx) - ord (S754_finite sy my ey))
      with (ord (S754_finite (negb sy) my ey))
      by (cbn [Line.ord]; destruct sy; cbn [negb]; lia).
    apply brackets_exact. discriminate.
  - cbn [SFsub]. replace (_ - ord (S754_zero sy))
      with (ord (S754_finite sx mx ex)) by (cbn [Line.ord]; lia).
    apply brackets_exact. discriminate.
  - pose proof (valid_exp _ _ _ Vx) as Hex. pose proof (valid_exp _ _ _ Vy) as Hey.
    cbn [SFsub].
    replace (ord (S754_finite sx mx ex) - ord (S754_finite sy my ey))
      with (Vz (cond_Zopp sx (Zpos (fst (shl_align mx ex (Z.min ex ey))))
                - cond_Zopp sy (Zpos (fst (shl_align my ey (Z.min ex ey)))))
               (Z.min ex ey)).
    + apply normalize_brackets. lia.
    + rewrite Vz_sub, !Vz_cond, !aligned_value by lia. reflexivity.
Qed.


Lemma ltb_ord f1 f2 :
  SpecFloat.valid_binary prec emax f1 = true ->
  SpecFloat.valid_binary prec emax f2 = true ->
  f1 <> S754_nan -> f2 <> S754_nan ->
  SFltb f1 f2 = true -> ord f1 < ord f2.
Proof.
  intros V1 V2 N1 N2. unfold SFltb. rewrite (compare_ord V1 V2 N1 N2).
  destruct (Z.compare_spec (ord f1) (ord f2)); [discriminate|auto|discriminate].
Qed.

Lemma leb_ord f1 f2 :
  SpecFloat.valid_binary prec emax f1 = true ->
  SpecFloat.valid_binary prec emax f2 = true ->
  f1 <> S754_nan -> f2 <> S754_nan ->
  ord f1 <= ord f2 -> SFleb f1 f2 = true.
Proof.
  intros V1 V2 N1 N2 H. unfold SFleb. rewrite (compare_ord V1 V2 N1 N2).
  destruct (Z.compare_spec (ord f1) (ord f2)); [reflexivity|reflexivity|lia].
Qed.

Lemma finz_not_nan f : finz f = true -> f <> S754_nan.
Proof. destruct f; [discriminate| |discriminate|discriminate]. intros H; discriminate H. Qed.

(** A value above [s + d] lies, less [d], at or above [s]. *)
Lemma sub_after_add s d l :
  SpecFloat.valid_binary prec emax s = true ->
  SpecFloat.valid_binary prec emax d = true ->
  SpecFloat.valid_binary prec emax l = true ->
  SpecFloat.valid_binary prec emax (SFadd prec emax s d) = true ->
  SpecFloat.valid_binary prec emax (SFsub prec emax l d) = true ->
  SFltb (SFadd prec emax s d) l = true ->
  SFleb s (SFsub prec emax l d) = true.
Proof.
  intros Vs Vd Vl Va Vb Hlt.
  destruct (finz s && finz d && finz l) eqn:Hfin.
  - apply andb_prop in Hfin. destruct Hfin as [Hfin Fl].
    apply andb_prop in Hfin. destruct Hfin as [Fs Fd].
    destruct (add_brackets s d Vs Vd Fs Fd) as [Na Ha].
    destruct (sub_brackets l d Vl Vd Fl Fd) as [Nb Hb].
    pose proof (@finz_not_nan s Fs) as Ns. pose proof (@finz_not_nan l Fl) as Nl.
    apply (ltb_ord Va Vl Na Nl) in Hlt.
    apply (leb_ord Vs Vb Ns Nb).
    apply (Hb s Vs Fs).
    destruct (Z_le_gt_dec (ord s) (ord l - ord d)) as [H|H]; [exact H|].
    assert (Hl : ord l <= ord (SFadd prec emax s d))
      by (apply (Ha l Vl Fl); lia).
    lia.
  - assert (Hb : finz l = true -> finz d = true ->
                 SFsub prec emax l d <> S754_nan).
    { intros Fl Fd. apply (sub_brackets l d Vl Vd Fl Fd). }
    clear Va Vb.
    destruct s as [ss|ss| |ss ms es], d as [sd|sd| |sd md ed],
             l as [sl|sl| |sl ml el];
      try discriminate Hfin; cbn [SFadd SFsub finz] in *;
      repeat match goal with
             | b : bool |- _ => destruct b
             end;
      try discriminate Hlt; try reflexivity;
      try specialize (Hb eq_refl eq_refl);
      repeat match goal with
             | H : context [binary_normalize ?p ?q ?m ?e ?z] |- _ =>
                 destruct (binary_normalize p q m e z) as [[]|[]| |[] ? ?]
             | |- context [binary_normalize ?p ?q ?m ?e ?z] =>
                 destruct (binary_normalize p q m e z) as [[]|[]| |[] ? ?]
             end;
      try discriminate Hlt; try reflexivity; try congruence.
Qed.


(** A value below [s - d] lies, plus [d], at or below [s]. *)
Lemma add_after_sub s d l :
  SpecFloat.valid_binary prec emax s = true ->
  SpecFloat.valid_binary prec emax d = true ->
  SpecFloat.valid_binary prec emax l = true ->
  SpecFloat.valid_binary prec emax (SFsub prec emax s d) = true ->
  SpecFloat.valid_binary prec emax (SFadd prec emax l d) = true ->
  SFltb l (SFsub prec emax s d) = true ->
  SFleb (SFadd prec emax l d) s = true.
Proof.
  intros Vs Vd Vl Va Vb Hlt.
  destruct (finz s && finz d && finz l) eqn:Hfin.
  - apply andb_prop in Hfin. destruct Hfin as [Hfin Fl].
    apply andb_prop in Hfin. destruct Hfin as [Fs Fd].
    destruct (sub_brackets s d Vs Vd Fs Fd) as [Na Ha].
    destruct (add_brackets l d Vl Vd Fl Fd) as [Nb Hb].
    pose proof (@finz_not_nan s Fs) as Ns. pose proof (@finz_not_nan l Fl) as Nl.
    apply (ltb_ord Vl Va Nl Na) in Hlt.
    apply (leb_ord Vb Vs Nb Ns).
    apply (Hb s Vs Fs).
    destruct (Z_le_gt_dec (ord l + ord d) (ord s)) as [H|H]; [exact H|].
    assert (Hl : ord (SFsub prec emax s d) <= ord l)
      by (apply (Ha l Vl Fl); lia).
    lia.
  - assert (Hb : finz l = true -> finz d = true ->
                 SFadd prec emax l d <> S754_nan).
    { intros Fl Fd. apply (add_brackets l d Vl Vd Fl Fd). }
    clear Va Vb.
    destruct s as [ss|ss| |ss ms es], d as [sd|sd| |sd md ed],
             l as [sl|sl| |sl ml el];
      try discriminate Hfin; cbn [SFadd SFsub finz] in *;
      repeat match goal with
             | b : bool |- _ => destruct b
             end;
      try discriminate Hlt; try reflexivity;
      try specialize (Hb eq_refl eq_refl);
      repeat match goal with
             | H : context [binary_normalize ?p ?q ?m ?e ?z] |- _ =>
                 destruct (binary_normalize p q m e z) as [[]|[]| |[] ? ?]
             | |- context [binary_normalize ?p ?q ?m ?e ?z] =>
                 destruct (binary_normalize p q m e z) as [[]|[]| |[] ? ?]
             end;
      try discriminate Hlt; try reflexivity; try congruence.
Qed.


(** The result of a rounding has the sign it was given. *)
Lemma round_aux_signed sx m e :
  signed sx (binary_round_aux prec emax sx (Zpos m) e loc_Exact).
Proof.
  unfold binary_round_aux.
  destruct (shr_fexp_inv (m := Zpos m) e ltac:(lia)) as [[Hq _] _].
  destruct (shr_fexp prec emax (Zpos m) e loc_Exact) as [mrs1 e1].
  cbn [fst snd] in Hq.
  assert (Hq0 : 0 <= shr_m mrs1).
  { rewrite Hq. apply Z.div_pos; [lia|]. apply Z.pow_pos_nonneg; lia. }
  set (m2 := round_nearest_even (shr_m mrs1) (loc_of_shr_record mrs1)).
  assert (Hm20 : 0 <= m2).
  { destruct (rne_cases mrs1) as [E|[E _]]; fold m2 in E; lia. }
  destruct (shr_fexp_inv (m := m2) e1 Hm20) as [[Hq2 _] _].
  destruct (shr_fexp prec emax m2 e1 loc_Exact) as [mrs2 e2].
  cbn [fst snd] in Hq2.
  assert (Hq20 : 0 <= shr_m mrs2).
  { rewrite Hq2. apply Z.div_pos; [lia|]. apply Z.pow_pos_nonneg; lia. }
  destruct (shr_m mrs2) as [|p|p]; [left; reflexivity| |lia].
  destruct (e2 <=? emax - prec); right; [left; eauto|right; reflexivity].
Qed.

Lemma nonneg_sign s m e :
  SpecFloat.valid_binary prec emax (S754_finite s m e) = true ->
  0 <= ord (S754_finite s m e) -> s = false.
Proof.
  cbn [SpecFloat.valid_binary Line.ord]. intros V H.
  pose proof (bounded_lt_top m e V). destruct s; [lia|reflexivity].
Qed.

(** The product of two floats that are not negative is not negative. *)
Lemma mul_nonneg x y :
  SpecFloat.valid_binary prec emax x = true ->
  SpecFloat.valid_binary prec emax y = true ->
  finz x = true -> finz y = true -> 0 <= ord x -> 0 <= ord y ->
  SFmul prec emax x y <> S754_nan /\ 0 <= ord (SFmul prec emax x y).
Proof.
  intros Vx Vy Fx Fy Hx Hy.
  destruct x as [sx| | |sx mx ex]; try discriminate Fx;
    (destruct y as [sy| | |sy my ey]; try discriminate Fy);
    cbn [SFmul]; try (split; [discriminate|cbn [Line.ord]; lia]).
  rewrite (@nonneg_sign _ _ _ Vx Hx), (@nonneg_sign _ _ _ Vy Hy). cbn [xorb].
  destruct (signed_ord (round_aux_signed false (mx * my) (ex + ey)))
    as (Hn & H0 & Ho).
  split; [exact Hn|]. rewrite Ho. exact H0.
Qed.

Lemma leb_zero_inv p :
  SpecFloat.valid_binary prec emax p = true ->
  SFleb (S754_zero false) p = true -> p <> S754_nan /\ 0 <= ord p.
Proof.
  intros V H.
  assert (N : p <> S754_nan) by (intros ->; discriminate H).
  split; [exact N|]. unfold SFleb in H.
  rewrite (compare_ord (f1 := S754_zero false) eq_refl V
             ltac:(discriminate) N) in H.
  cbn [Line.ord] in H.
  destruct (Z.compare_spec 0 (ord p)); [lia|lia|discriminate H].
Qed.

(** Less a float that is not negative, a finite float does not grow. *)
Lemma sub_nonneg_le a p :
  SpecFloat.valid_binary prec emax a = true ->
  SpecFloat.valid_binary prec emax p = true ->
  SpecFloat.valid_binary prec emax (SFsub prec emax a p) = true ->
  finz a = true -> p <> S754_nan -> 0 <= ord p ->
  SFleb (SFsub prec emax a p) a = true.
Proof.
  pose proof top_pos as Htop.
  intros Va Vp Vr Fa Np Hp.
  destruct (finz p) eqn:Fp.
  - destruct (sub_brackets a p Va Vp Fa Fp) as [Nr Hr].
    apply (leb_ord Vr Va Nr (finz_not_nan Fa)).
    apply (Hr a Va Fa). lia.
  - destruct p as [sp|sp| |sp mp ep]; try discriminate Fp; [|congruence].
    destruct sp; [cbn [Line.ord] in Hp; lia|].
    destruct a as [sa| | |sa ma ea]; try discriminate Fa; reflexivity.
Qed.

(** Plus a float that is not negative, a finite float does not shrink. *)
Lemma add_nonneg_ge a p :
  SpecFloat.valid_binary prec emax a = true ->
  SpecFloat.valid_binary prec emax p = true ->
  SpecFloat.valid_binary prec emax (SFadd prec emax a p) = true ->
  finz a = true -> p <> S754_nan -> 0 <= ord p ->
  SFleb a (SFadd prec emax a p) = true.
Proof.
  pose proof top_pos as Htop.
  intros Va Vp Vr Fa Np Hp.
  destruct (finz p) eqn:Fp.
  - destruct (add_brackets a p Va Vp Fa Fp) as [Nr Hr].
    apply (leb_ord Va Vr (finz_not_nan Fa) Nr).
    apply (Hr a Va Fa). lia.
  - destruct p as [sp|sp| |sp mp ep]; try discriminate Fp; [|congruence].
    destruct sp; [cbn [Line.ord] in Hp; lia|].
    destruct a as [sa| | |sa ma ea]; try discriminate Fa;
      cbn [SFadd]; [reflexivity|destruct sa; reflexivity].
Qed.

(** [SFleb] one way excludes [SFltb] the other way. *)
Lemma leb_not_gt f1 f2 :
  SpecFloat.valid_binary prec emax f1 = true ->
  SpecFloat.valid_binary prec emax f2 = true ->
  SFleb f1 f2 = true -> SFltb f2 f1 = false.
Proof.
  intros V1 V2 H.
  assert (N1 : f1 <> S754_nan) by (intros ->; discriminate H).
  assert (N2 : f2 <> S754_nan)
    by (intros ->; destruct f1 as [| | |[] ? ?]; discriminate H).
  unfold SFleb in H. unfold SFltb.
  rewrite (compare_ord V1 V2 N1 N2) in H. rewrite (compare_ord V2 V1 N2 N1).
  destruct (Z.compare_spec (ord f1) (ord f2)); try discriminate H;
    destruct (Z.compare_spec (ord f2) (ord f1)); try reflexivity; lia.
Qed.

Lemma ltb_irrefl f : SFltb f f = false.
Proof.
  unfold SFltb. destruct f as [s|[]| |[] m e]; cbn [SFcompare]; try reflexivity;
    rewrite Z.compare_refl; try rewrite Pos.compare_cont_refl; reflexivity.
Qed.

End Format.

(** ** binary64 *)

Lemma float_sub_after_add (s d l : float) :
  (s + d <? l)%float = true -> (s <=? l - d)%float = true.
Proof.
  rewrite ltb_spec, leb_spec, add_spec, sub_spec.
  apply (@sub_after_add prec emax); try reflexivity;
    try apply Prim2SF_valid.
  - rewrite <- add_spec. apply Prim2SF_valid.
  - rewrite <- sub_spec. apply Prim2SF_valid.
Qed.

Lemma float_add_after_sub (s d l : float) :
  (l <? s - d)%float = true -> (l + d <=? s)%float = true.
Proof.
  rewrite ltb_spec, leb_spec, add_spec, sub_spec.
  apply (@add_after_sub prec emax); try reflexivity;
    try apply Prim2SF_valid.
  - rewrite <- sub_spec. apply Prim2SF_valid.
  - rewrite <- add_spec. apply Prim2SF_valid.
Qed.


Lemma float_leb_not_gt (x y : float) :
  (x <=? y)%float = true -> (y <? x)%float = false.
Proof.
  rewrite ltb_spec, leb_spec.
  apply (@leb_not_gt prec emax); try reflexivity; apply Prim2SF_valid.
Qed.

Lemma float_ltb_irrefl (x : float) : (x <? x)%float = false.
Proof. rewrite ltb_spec. apply ltb_irrefl. Qed.


Lemma amount_inv x :
  amount x = true ->
  finz (Prim2SF x) = true /\ 0 <= Line.ord prec emax (Prim2SF x).
Proof.
  unfold amount. intros H. apply andb_prop in H. destruct H as [H0 Hinf].
  rewrite leb_spec in H0. rewrite ltb_spec in Hinf.
  change (Prim2SF 0) with (S754_zero false) in H0.
  change (Prim2SF infinity) with (S754_infinity false) in Hinf.
  destruct (@leb_zero_inv prec emax eq_refl eq_refl (Prim2SF x)
              (Prim2SF_valid x) H0) as [N Hp].
  split; [|exact Hp].
  destruct (Prim2SF x) as [s|[]| |s m e]; try reflexivity;
    try discriminate Hinf.
  exfalso. cbn in Hp. lia.
Qed.

Lemma nonneg_inv p :
  (0 <=? p)%float = true ->
  Prim2SF p <> S754_nan /\ 0 <= Line.ord prec emax (Prim2SF p).
Proof.
  rewrite leb_spec. change (Prim2SF 0) with (S754_zero false).
  apply (@leb_zero_inv prec emax eq_refl eq_refl). apply Prim2SF_valid.
Qed.

Lemma float_mul_amounts (x y : float) :
  amount x = true -> amount y = true -> (0 <=? x * y)%float = true.
Proof.
  intros Hx Hy. apply amount_inv in Hx, Hy.
  destruct Hx as [Fx Hx], Hy as [Fy Hy].
  rewrite leb_spec, mul_spec. change (Prim2SF 0) with (S754_zero false).
  destruct (@mul_nonneg prec emax eq_refl eq_refl (Prim2SF x) (Prim2SF y)
              (Prim2SF_valid x) (Prim2SF_valid y) Fx Fy Hx Hy) as [N H].
  apply (@leb_ord prec emax eq_refl eq_refl); try exact N; try discriminate;
    try reflexivity.
  - rewrite <- mul_spec. apply Prim2SF_valid.
  - exact H.
Qed.

Lemma float_sub_le (a p : float) :
  amount a = true -> (0 <=? p)%float = true -> (a - p <=? a)%float = true.
Proof.
  intros Ha Hp. apply amount_inv in Ha. destruct Ha as [Fa _].
  apply nonneg_inv in Hp. destruct Hp as [Np Hp].
  rewrite leb_spec, sub_spec.
  apply (@sub_nonneg_le prec emax eq_refl eq_refl); try apply Prim2SF_valid;
    try assumption.
  rewrite <- sub_spec. apply Prim2SF_valid.
Qed.

Lemma float_add_ge (a p : float) :
  amount a = true -> (0 <=? p)%float = true -> (a <=? a + p)%float = true.
Proof.
  intros Ha Hp. apply amount_inv in Ha. destruct Ha as [Fa _].
  apply nonneg_inv in Hp. destruct Hp as [Np Hp].
  rewrite leb_spec, add_spec.
  apply (@add_nonneg_ge prec emax eq_refl eq_refl); try apply Prim2SF_valid;
    try assumption.
  rewrite <- add_spec. apply Prim2SF_valid.
Qed.

End Rounding.

(* ================================================================== *)
(** * The trailing stop *)

Module TrailingFacts.
Import DSLTP.

Lemma rev_head {A} (l : list A) x tl : rev l = x :: tl -> l = (rev tl ++ [x])%list.
Proof.
  intros H. rewrite <- (rev_involutive l), H. reflexivity.
Qed.

(** [modify_sl_tp] after the update leaves the update as it is. *)
Lemma redefined_state {F} {PF : PyFloat F} modify_sl_tp rates (self : t F) :
  snd (adjust_trailing_stop_redefined modify_sl_tp rates self)
  = snd (adjust_trailing_stop rates self).
Proof.
  unfold adjust_trailing_stop_redefined, bind at 1.
  destruct (adjust_trailing_stop rates self) as [[u|e] s]; reflexivity.
Qed.

(** The three ways a call can end, in any arithmetic. *)
Lemma adjust_cases {F} {PF : PyFloat F} (rates : option (list (Rate F)))
      (self : t F) :
  snd (adjust_trailing_stop rates self) = self
  \/ exists rs before last,
       rates = Some rs
       /\ map (fun rate => close rate) rs = (before ++ [last])%list
       /\ (action self = "BUY"
           /\ fltb (fadd (stop_loss self) (trailing_stop_distance self)) last
              = true
           /\ snd (adjust_trailing_stop rates self)
              = set_stop_loss self (fsub last (trailing_stop_distance self))
           \/ action self = "SELL"
              /\ fltb last (fsub (stop_loss self) (trailing_stop_distance self))
                 = true
              /\ snd (adjust_trailing_stop rates self)
                 = set_stop_loss self (fadd last (trailing_stop_distance self))).
Proof.
  unfold adjust_trailing_stop, get_price_data, bind, get, put, and_then,
    item_last, ret, raise.
  destruct rates as [rs|]; [|now left].
  destruct (String.eqb_spec (action self) (value BUY)) as [Eb|Nb].
  - destruct (rev (map (fun rate => close rate) rs)) as [|last tl] eqn:Er;
      [now left|].
    apply rev_head in Er.
    destruct (fltb (fadd (stop_loss self) (trailing_stop_distance self)) last)
      eqn:Ec.
    + right. exists rs, (rev tl), last. repeat split; auto.
    + destruct (String.eqb_spec (action self) (value SELL)) as [Es|Ns].
      * rewrite Eb in Es. discriminate Es.
      * now left.
  - destruct (String.eqb_spec (action self) (value SELL)) as [Es|Ns];
      [|now left].
    destruct (rev (map (fun rate => close rate) rs)) as [|last tl] eqn:Er;
      [now left|].
    apply rev_head in Er.
    destruct (fltb last (fsub (stop_loss self) (trailing_stop_distance self)))
      eqn:Ec.
    + right. exists rs, (rev tl), last. repeat split; auto.
    + now left.
Qed.

End TrailingFacts.

(** C9, in binary64, the arithmetic of the code, for all floats,
    infinities and NaN included: a call of [adjust_trailing_stop] leaves
    the state as it was, or the position is long, the last close exceeds
    the rounded [stop_loss + trailing_stop_distance] and the stop becomes
    the rounded [last - trailing_stop_distance], which is not below the
    old stop, or it is short, the last close is below the rounded
    [stop_loss - trailing_stop_distance] and the stop becomes the rounded
    [last + trailing_stop_distance], which is not above the old stop. So
    a long stop never goes down and a short stop never goes up; rounding
    can make the new stop equal to the old one. The redefinition in
    [Last_version.py] ends in the same state. *)
Theorem trailing_stop_only_tightens
        (rates : option (list (Rate float))) (self : DSLTP.t float)
        (modify_sl_tp : DSLTP.t float -> outcome unit) :
  snd (DSLTP.adjust_trailing_stop_redefined modify_sl_tp rates self)
  = snd (DSLTP.adjust_trailing_stop rates self)
  /\ (DSLTP.action self = "BUY" ->
      (DSLTP.stop_loss (snd (DSLTP.adjust_trailing_stop rates self))
       <? DSLTP.stop_loss self)%float = false)
  /\ (DSLTP.action self = "SELL" ->
      (DSLTP.stop_loss self
       <? DSLTP.stop_loss (snd (DSLTP.adjust_trailing_stop rates self)))%float
      = false)
  /\ (snd (DSLTP.adjust_trailing_stop rates self) = self
      \/ exists rs before last,
           rates = Some rs
           /\ map (fun rate => close rate) rs = (before ++ [last])%list
           /\ (DSLTP.action self = "BUY"
               /\ (DSLTP.stop_loss self + DSLTP.trailing_stop_distance self
                   <? last)%float = true
               /\ DSLTP.stop_loss (snd (DSLTP.adjust_trailing_stop rates self))
                  = (last - DSLTP.trailing_stop_distance self)%float
               /\ (DSLTP.stop_loss self
                   <=? last - DSLTP.trailing_stop_distance self)%float = true
               \/ DSLTP.action self = "SELL"
                  /\ (last
                      <? DSLTP.stop_loss self
                         - DSLTP.trailing_stop_distance self)%float = true
                  /\ DSLTP.stop_loss (snd (DSLTP.adjust_trailing_stop rates self))
                     = (last + DSLTP.trailing_stop_distance self)%float
                  /\ (last + DSLTP.trailing_stop_distance self
                      <=? DSLTP.stop_loss self)%float = true)).
Proof.
  split; [apply TrailingFacts.redefined_state|].
  destruct (TrailingFacts.adjust_cases rates self)
    as [E|(rs & before & last & Hr & Hl & [(Ha & Hc & E)|(Ha & Hc & E)])];
    rewrite E.
  - split; [intros _; apply Rounding.float_ltb_irrefl|].
    split; [intros _; apply Rounding.float_ltb_irrefl|]. now left.
  - pose proof (@Rounding.float_sub_after_add (DSLTP.stop_loss self)
                  (DSLTP.trailing_stop_distance self) last Hc) as Hle.
    cbn [DSLTP.set_stop_loss DSLTP.stop_loss].
    split; [intros _; apply Rounding.float_leb_not_gt; exact Hle|].
    split; [intros Hs; rewrite Ha in Hs; discriminate Hs|].
    right. exists rs, before, last. repeat split; auto.
  - pose proof (@Rounding.float_add_after_sub (DSLTP.stop_loss self)
                  (DSLTP.trailing_stop_distance self) last Hc) as Hle.
    cbn [DSLTP.set_stop_loss DSLTP.stop_loss].
    split; [intros Hb; rewrite Ha in Hb; discriminate Hb|].
    split; [intros _; apply Rounding.float_leb_not_gt; exact Hle|].
    right. exists rs, before, last. repeat split; auto.
Qed.

(** A long position with stop 1.09 and distance 0.005: a close of 1.1
    moves the stop to the rounded 1.1 - 0.005, which is not below 1.09. *)
Lemma trailing_stop_only_tightens_witness :
  DSLTP.stop_loss
    (snd (DSLTP.adjust_trailing_stop rising_rates_binary64 long_stop_binary64))
  = (1.1000 - 0.0050)%float
  /\ (DSLTP.stop_loss
        (snd (DSLTP.adjust_trailing_stop rising_rates_binary64
                long_stop_binary64))
      <? DSLTP.stop_loss long_stop_binary64)%float = false.
Proof.
  split; [reflexivity|].
  exact (proj1 (proj2 (trailing_stop_only_tightens rising_rates_binary64
                         long_stop_binary64 (fun _ => Returned tt)))
               eq_refl).
Defined.

(** A stop that is assigned and does not move: with stop 1 and a
    distance of half a unit in the last place, a close one unit above 1
    passes the test, since [1 + distance] rounds to 1, and
    [close - distance] rounds to 1 again. *)
Example trailing_stop_tie_binary64 :
  (DSLTP.stop_loss tight_stop_binary64
   + DSLTP.trailing_stop_distance tight_stop_binary64
   <? 0x1.0000000000001p+0)%float = true
  /\ DSLTP.stop_loss
       (snd (DSLTP.adjust_trailing_stop tight_rates_binary64
               tight_stop_binary64))
     = 1%float.
Proof. split; reflexivity. Qed.

(** The same call in binary64: the stop goes from 1.09 to
    1.1 - 0.005, which is the double 1.0950000000000002. *)
Example trailing_stop_binary64 :
  DSLTP.stop_loss
    (snd (DSLTP.adjust_trailing_stop rising_rates_binary64 long_stop_binary64))
  = (1.1000 - 0.0050)%float
  /\ PrimFloat.ltb 1.0900
       (DSLTP.stop_loss
          (snd (DSLTP.adjust_trailing_stop rising_rates_binary64
                  long_stop_binary64)))
     = true.
Proof. split; reflexivity. Qed.

(* ================================================================== *)
(** * Further properties: the normalizer and the handler *)

(** X1: [normalize_action] is idempotent and changes no field but the
    action. *)
Theorem normalize_action_idempotent (signal : TradingSignal) :
  normalize_action (normalize_action signal) = normalize_action signal
  /\ symbol (normalize_action signal) = symbol signal
  /\ volume (normalize_action signal) = volume signal
  /\ open_position (normalize_action signal) = open_position signal
  /\ position_closed (normalize_action signal) = position_closed signal.
Proof.
  unfold normalize_action.
  destruct (str_in (lower (action signal)) ["enter_long"; "buy"]) eqn:E1.
  - repeat split.
  - destruct (str_in (lower (action signal)) ["enter_short"; "sell"]) eqn:E2.
    + repeat split.
    + rewrite E1, E2. repeat split.
Qed.

(** X2: for an ASCII body, [webhook_handler] answers 200 exactly to the
    payloads of the grammar, and then hands [execute_order] a normalized
    signal; it answers 400 with the parser's message to every other
    payload and creates no task. It raises for no such body. *)
Theorem webhook_handler_responds (body : string) :
  isascii body = true ->
  (grammar body <->
   exists signal,
     from_webhook body = inr signal
     /\ webhook_handler body
        = Returned (mkResponse 200 "Signal received",
                    Some (normalize_action signal)))
  /\ (~ grammar body <->
      webhook_handler body
      = Returned (mkResponse 400 "Invalid webhook data", None)).
Proof.
  intros _. unfold webhook_handler. split; split.
  - intros G. destruct (SignalFacts.from_webhook_accepts G) as [signal H].
    exists signal. now rewrite H.
  - intros (signal & H & _).
    apply SignalFacts.from_webhook_fields in H
      as (rest & Hp & Ha & Hsy & Hv & Ho).
    now exists (action signal), (symbol signal), (volume signal),
               (open_position signal), rest.
  - intros N. now rewrite (SignalFacts.from_webhook_rejects N).
  - intros H G. destruct (SignalFacts.from_webhook_accepts G) as [signal E].
    rewrite E in H. discriminate H.
Qed.

Lemma webhook_handler_responds_witness :
  isascii "symbol=EURUSD;action=buy" = true
  /\ ~ grammar "symbol=EURUSD;action=buy"
  /\ webhook_handler "symbol=EURUSD;action=buy"
     = Returned (mkResponse 400 "Invalid webhook data", None).
Proof.
  split; [reflexivity|].
  pose proof (proj2 (webhook_handler_responds "symbol=EURUSD;action=buy"
                       eq_refl)) as H.
  split; [exact (proj2 H eq_refl)|reflexivity].
Defined.

(* ================================================================== *)
(** * Further properties: what reaches the terminal *)

Section SentFacts.
Context {F : Type} {B : Type} {T : Terminal F B}.
Variable rev : revision.
Variable self : TradingBot.

Lemma close_request_is_close (position : Pos.t F) (bid ask : F) :
  is_close (close_request rev self position bid ask).
Proof. unfold is_close, close_request. simpl. repeat split. discriminate. Qed.

(** What one run of [close_position_by_comment] adds to the requests. *)
Lemma close_sent comment (w : World F B) :
  exists new,
    sent (snd (close_position_by_comment rev self comment w))
    = (sent w ++ new)%list
    /\ (length new <= 1)%nat /\ Forall is_close new.
Proof.
  rewrite close_unwrap.
  unfold close_position_by_comment_wrapped, bind, enter, mt5_positions_get,
    log, ret. simpl.
  destruct (positions_get (mt5 w)) as [ps|]; simpl;
    [|exists []; rewrite app_nil_r; auto].
  destruct (find_position comment ps); simpl;
    [|exists []; rewrite app_nil_r; auto].
  set (w0 := mkWorld (mt5 w) (now w) (sent w) (logged w) (slept w)
                     (calls w ++ [CallClose comment])).
  change (sent w) with (sent w0). clearbody w0.
  induction ps as [|p ps IH]; simpl.
  - exists []. rewrite app_nil_r. auto.
  - destruct (Pos.comment p =? comment)%string; [|exact IH].
    destruct (close_one_effect rev self comment p w0)
      as [_ [E|(tick & _ & E)]]; simpl in E; rewrite E.
    + exists []. rewrite app_nil_r. auto.
    + eexists. split; [reflexivity|]. split; [simpl; lia|].
      constructor; [apply close_request_is_close|constructor].
Qed.

(** The requests of the loop of [close_all_positions]. *)
Lemma close_loop_sent (positions : list (Pos.t F)) :
  forall w : World F B,
  exists new,
    sent (snd (for_each positions
                 (fun position =>
                    close_position_by_comment rev self (Pos.comment position)
                    ;;; ret tt) w))
    = (sent w ++ new)%list
    /\ (length new <= length positions)%nat /\ Forall is_close new.
Proof.
  induction positions as [|p ps IH]; intros w.
  - exists []. simpl. rewrite app_nil_r. auto.
  - destruct (close_sent (Pos.comment p) w) as (n1 & E1 & L1 & C1).
    destruct (close_position_by_comment rev self (Pos.comment p) w)
      as [[result|e] w1] eqn:E; simpl in E1.
    + rewrite (for_each_returned ps
                 (fun position =>
                    close_position_by_comment rev self (Pos.comment position)
                    ;;; ret tt) p w (s1 := w1))
        by (unfold bind; rewrite E; reflexivity).
      destruct (IH w1) as (n2 & E2 & L2 & C2).
      exists (n1 ++ n2)%list. rewrite E2, E1, List.app_assoc.
      split; [reflexivity|]. split.
      * rewrite length_app. simpl. lia.
      * apply Forall_app. auto.
    + rewrite (for_each_raised ps
                 (fun position =>
                    close_position_by_comment rev self (Pos.comment position)
                    ;;; ret tt) p w (e := e) (s1 := w1))
        by (unfold bind; rewrite E; reflexivity).
      exists n1. simpl. split; [exact E1|]. split; [lia|exact C1].
Qed.

(** The requests of [close_all_positions], whether it returns or raises. *)
Lemma close_all_positions_sent (w : World F B) :
  exists new,
    sent (snd (close_all_positions rev self w)) = (sent w ++ new)%list
    /\ (length new
        <= match positions_get (mt5 w) with
           | Some positions => length positions
           | None => 0
           end)%nat
    /\ Forall is_close new.
Proof.
  unfold close_all_positions, mt5_positions_get. unfold bind at 1.
  destruct (positions_get (mt5 w)) as [ps|].
  - exact (close_loop_sent ps w).
  - exists []. simpl. rewrite app_nil_r. auto.
Qed.

(** X3: [close_all_positions] sends closing requests only, and at most
    one for each position of the enumeration; it sends nothing when the
    enumeration fails or is empty. *)
Theorem close_all_positions_requests (w : World F B) :
  exists new,
    sent (snd (close_all_positions rev self w)) = (sent w ++ new)%list
    /\ Forall is_close new
    /\ (length new
        <= match positions_get (mt5 w) with
           | Some positions => length positions
           | None => 0
           end)%nat.
Proof.
  destruct (close_all_positions_sent w) as (new & E & L & C).
  exists new. auto.
Qed.

End SentFacts.

Section ExecuteFacts.
Context {F : Type} {PF : PyFloat F} {B : Type} {T : Terminal F B}.
Variable rev : revision.
Variable config : Config F.
Variable self : TradingBot.

(** A [try] whose handler only logs returns. *)
Lemma try_log_returns (m : M (World F B) unit) (msg : exn -> string) w :
  fst (try_except m (fun err => log (LogError (msg err))) w) = Returned tt.
Proof.
  unfold try_except. destruct (m w) as [[[]|e] w1]; reflexivity.
Qed.

(** X4: [execute_order] raises for no signal, no terminal and no clock:
    what goes wrong inside is logged and the call returns. *)
Theorem execute_order_never_raises (signal : TradingSignal) (w : World F B) :
  fst (execute_order rev config self signal w) = Returned tt.
Proof.
  unfold execute_order. unfold bind at 1. simpl. apply try_log_returns.
Qed.

(** The branch of [execute_order] taken while the gate is closed. *)
Lemma execute_order_closed signal (w : World F B) :
  tradetime rev (now w) = 0%Z ->
  execute_order rev config self signal w
  = try_except
      (close_all_positions rev self ;;;
       log (LogError "Now is not trading time, all positions closed."))
      (fun err => log (LogError ("An error occurred: " ++ str_exn err)))
      (snd (log (LogExecuting signal) w)).
Proof.
  intros Hgate. unfold execute_order.
  unfold bind at 1. simpl.
  unfold try_except, bind at 1, is_trading_time. simpl.
  rewrite Hgate. simpl. unfold bind at 1. simpl. rewrite Hgate. reflexivity.
Qed.

(** The branch taken while the gate is open and the tag is empty. *)
Lemma execute_order_no_tag signal (w : World F B) :
  tradetime rev (now w) <> 0%Z -> open_position signal = "" ->
  execute_order rev config self signal w
  = (Returned tt,
     mkWorld (mt5 w) (now w) (sent w)
             (logged w ++
              [LogExecuting signal;
               LogError "Correct open position (like Long_12345) is required!"])
             (slept w) (calls w)).
Proof.
  intros Hgate Htag. unfold execute_order.
  unfold bind at 1. simpl.
  unfold try_except, bind at 1, is_trading_time. simpl.
  destruct (Z.eqb_spec (tradetime rev (now w)) 0) as [E|_]; [contradiction|].
  rewrite Htag. simpl. unfold bind at 1. simpl.
  destruct (Z.eqb_spec (tradetime rev (now w)) 0) as [E|_]; [contradiction|].
  unfold log. simpl. rewrite <- List.app_assoc. reflexivity.
Qed.

(** X5: whatever the signal, [execute_order] sends closing requests
    only, and none while the gate is open. *)
Theorem execute_order_sends_only_closes (signal : TradingSignal)
        (w : World F B) :
  exists new,
    sent (snd (execute_order rev config self signal w)) = (sent w ++ new)%list
    /\ Forall is_close new
    /\ (tradetime rev (now w) <> 0%Z -> new = []).
Proof.
  destruct (Z.eq_dec (tradetime rev (now w)) 0) as [Hc|Ho].
  - rewrite (execute_order_closed signal w Hc).
    destruct (close_all_positions_sent rev self
                (snd (log (LogExecuting signal) w))) as (new & E & _ & C).
    exists new. split; [|split; [exact C|intros N; contradiction]].
    unfold try_except, bind.
    destruct (close_all_positions rev self (snd (log (LogExecuting signal) w)))
      as [[u|e] w1]; simpl in *; exact E.
  - exists []. rewrite app_nil_r. split; [|split; [constructor|reflexivity]].
    destruct (String.eqb_spec (open_position signal) "") as [Ht|Ht].
    + now rewrite (execute_order_no_tag signal w Ho Ht).
    + rewrite (execute_order_open config self rev signal w Ho Ht).
      remember (snd (log (LogExecuting signal) w)) as w0 eqn:Hw0.
      assert (Hs : sent w0 = sent w) by (subst w0; reflexivity).
      unfold try_except, bind. destruct rev.
      * rewrite !action_is_last_version. exact Hs.
      * destruct (enter_long_v1_raises config self signal w0) as (e1 & E1 & _).
        destruct (enter_short_v1_raises config self signal w0) as (e2 & E2 & _).
        destruct (action_is Last_version1 signal BUY).
        -- rewrite E1. exact Hs.
        -- destruct (action_is Last_version1 signal SELL).
           ++ rewrite E2. exact Hs.
           ++ exact Hs.
Qed.

End ExecuteFacts.

(* ================================================================== *)
(** * Further properties: the answer of the terminal *)

Section ReplyFacts.
Context {F : Type} {PF : PyFloat F} {B : Type} {T : Terminal F B}.
Variable config : Config F.
Variable self : TradingBot.

(** X6: with a quote, symbol data and a readable volume, what
    [enter_long] of [Last_version.py] does is decided by the answer to
    its one request: a result with [TRADE_RETCODE_DONE] is returned,
    any other result raises [Exception("Trade failed")], and the answer
    [None] raises an [AttributeError], since the result is not checked
    for [None] before its [retcode] is read. [enter_short] does the
    same. *)
Theorem entry_outcome_by_reply (signal : TradingSignal) (w : World F B)
        (tick : Tick F) (info : SymbolInfo F) (vol : F) :
  symbol_info_tick (mt5 w) (symbol signal) = Some tick ->
  symbol_info (mt5 w) (symbol signal) = Some info ->
  float_of_str (volume signal) = Some vol ->
  fst (enter_long Last_version config self signal w)
  = match fst (order_send (mt5 w)
                 (long_request Last_version self signal (ask tick) (point info)
                    vol (stop_loss_pips config) (take_profit_pips config))) with
    | Some result =>
        if (retcode result =? TRADE_RETCODE_DONE)%Z
        then Returned (PyResult result)
        else Raised (Exception "Trade failed")
    | None =>
        Raised (AttributeError "'NoneType' object has no attribute 'retcode'")
    end
  /\ fst (enter_short Last_version config self signal w)
     = match fst (order_send (mt5 w)
                    (short_request Last_version self signal (bid tick)
                       (point info) vol (stop_loss_pips config)
                       (take_profit_pips config))) with
       | Some result =>
           if (retcode result =? TRADE_RETCODE_DONE)%Z
           then Returned (PyResult result)
           else Raised (Exception "Trade failed")
       | None =>
           Raised (AttributeError "'NoneType' object has no attribute 'retcode'")
       end.
Proof.
  intros Ht Hi Hv. split.
  - rewrite enter_long_unwrap.
    unfold enter_long_wrapped, bind, enter, mt5_symbol_info_tick,
      mt5_symbol_info, py_float, module_global, mt5_order_send, attr, ret.
    simpl. rewrite Ht. simpl. rewrite Hi. simpl. rewrite Hv. simpl.
    destruct (order_send (mt5 w) _) as [[r|] b]; simpl; [|reflexivity].
    unfold entry_result, bind, attr, log, ret, raise. simpl.
    destruct (retcode r =? TRADE_RETCODE_DONE)%Z; reflexivity.
  - rewrite enter_short_unwrap.
    unfold enter_short_wrapped, bind, enter, mt5_symbol_info_tick,
      mt5_symbol_info, py_float, module_global, mt5_order_send, attr, ret.
    simpl. rewrite Ht. simpl. rewrite Hi. simpl. rewrite Hv. simpl.
    destruct (order_send (mt5 w) _) as [[r|] b]; simpl; [|reflexivity].
    unfold entry_result, bind, attr, log, ret, raise. simpl.
    destruct (retcode r =? TRADE_RETCODE_DONE)%Z; reflexivity.
Qed.

End ReplyFacts.

(** The requote of the example terminal makes [enter_long] raise, and
    an exhausted script, which answers [None], makes it raise the
    [AttributeError]. *)
Lemma entry_outcome_by_reply_witness :
  fst (enter_long Last_version scenario_config a_bot buy_signal
         (fresh requote_then_done monday_10h))
  = Raised (Exception "Trade failed")
  /\ fst (enter_long Last_version scenario_config a_bot buy_signal
            (fresh (two_positions []) monday_10h))
     = Raised (AttributeError "'NoneType' object has no attribute 'retcode'").
Proof.
  split.
  - exact (proj1 (entry_outcome_by_reply scenario_config a_bot buy_signal
                    (fresh requote_then_done monday_10h)
                    (tick := scenario_quote) (info := scenario_info)
                    (vol := 1%float) eq_refl eq_refl eq_refl)).
  - exact (proj1 (entry_outcome_by_reply scenario_config a_bot buy_signal
                    (fresh (two_positions []) monday_10h)
                    (tick := scenario_quote) (info := scenario_info)
                    (vol := 1%float) eq_refl eq_refl eq_refl)).
Defined.

Section EntryInputs.
Context {F : Type} {PF : PyFloat F} {B : Type} {T : Terminal F B}.
Variable config : Config F.
Variable self : TradingBot.

(** X7: an entry needs a quote, symbol data and a volume that [float]
    reads: when one of them is missing, [enter_long] and [enter_short]
    raise before [mt5.order_send] and nothing is sent, in either
    revision. The parser does not check the volume, so a signal it
    accepts can fail here. *)
Theorem entry_fails_before_sending (rev : revision) (signal : TradingSignal)
        (w : World F B) :
  symbol_info_tick (mt5 w) (symbol signal) = None
  \/ symbol_info (mt5 w) (symbol signal) = None
  \/ float_of_str (volume signal) = None ->
  (exists e, fst (enter_long rev config self signal w) = Raised e)
  /\ sent (snd (enter_long rev config self signal w)) = sent w
  /\ (exists e, fst (enter_short rev config self signal w) = Raised e)
  /\ sent (snd (enter_short rev config self signal w)) = sent w.
Proof.
  intros H. destruct rev.
  - rewrite enter_long_unwrap, enter_short_unwrap.
    unfold enter_long_wrapped, enter_short_wrapped, bind, enter,
      mt5_symbol_info_tick, mt5_symbol_info, py_float, module_global,
      mt5_order_send, attr, ret, raise.
    simpl.
    destruct (symbol_info_tick (mt5 w) (symbol signal)) as [tick|]; simpl;
      [|repeat split; eauto].
    destruct (symbol_info (mt5 w) (symbol signal)) as [info|]; simpl;
      [|repeat split; eauto].
    destruct (float_of_str (volume signal)) as [vol|]; simpl;
      [|repeat split; eauto].
    destruct H as [H|[H|H]]; discriminate H.
  - destruct (enter_long_v1_raises config self signal w) as (e1 & E1 & _).
    destruct (enter_short_v1_raises config self signal w) as (e2 & E2 & _).
    rewrite E1, E2. simpl. repeat split; eauto.
Qed.

End EntryInputs.

Lemma entry_fails_before_sending_witness :
  fst (enter_long Last_version scenario_config a_bot buy_signal
         (fresh no_quote monday_10h))
  = Raised (AttributeError "'NoneType' object has no attribute 'ask'")
  /\ sent (snd (enter_long Last_version scenario_config a_bot buy_signal
                  (fresh no_quote monday_10h))) = [].
Proof.
  split; [reflexivity|].
  exact (proj1 (proj2 (entry_fails_before_sending scenario_config a_bot
                         Last_version buy_signal (fresh no_quote monday_10h)
                         (or_introl eq_refl)))).
Defined.

Section CloseReplyFacts.
Context {F : Type} {B : Type} {T : Terminal F B}.
Variable rev : revision.
Variable self : TradingBot.

(** X8: for the first position [p] that carries the tag, with a quote
    and symbol data for it, what [close_position_by_comment] does is
    decided by the answer to its one request: a result with
    [TRADE_RETCODE_DONE] is returned, any other result raises
    [Exception("Trade failed")], and the answer [None] is logged and
    [None] is returned, where an entry would raise. *)
Theorem close_outcome_by_reply (w : World F B) (tag : string)
        (before after : list (Pos.t F)) (p : Pos.t F)
        (tick : Tick F) (info : SymbolInfo F) :
  positions_get (mt5 w) = Some (before ++ p :: after)%list ->
  (forall q, In q before -> Pos.comment q <> tag) ->
  Pos.comment p = tag ->
  symbol_info_tick (mt5 w) (Pos.symbol p) = Some tick ->
  symbol_info (mt5 w) (Pos.symbol p) = Some info ->
  fst (close_position_by_comment rev self tag w)
  = match fst (order_send (mt5 w)
                 (close_request rev self p (bid tick) (ask tick))) with
    | Some result =>
        if (retcode result =? TRADE_RETCODE_DONE)%Z
        then Returned (PyResult result)
        else Raised (Exception "Trade failed")
    | None => Returned PyNone
    end.
Proof.
  intros Hps Hbefore Hp Ht Hi. rewrite close_unwrap.
  unfold close_position_by_comment_wrapped, bind, enter, mt5_positions_get,
    log, ret. simpl.
  rewrite Hps. simpl.
  rewrite (find_position_first before after p Hbefore Hp).
  rewrite (close_matching_first rev self before after p Hbefore Hp).
  unfold close_one, bind, mt5_symbol_info_tick, mt5_symbol_info,
    mt5_order_send, attr, log, ret, raise. simpl.
  rewrite Ht. simpl. rewrite Hi. simpl.
  destruct (order_send (mt5 w) (close_request rev self p (bid tick) (ask tick)))
    as [[r|] b]; simpl; [|reflexivity].
  destruct (retcode r =? TRADE_RETCODE_DONE)%Z; reflexivity.
Qed.

End CloseReplyFacts.

Lemma close_outcome_by_reply_witness :
  fst (close_position_by_comment Last_version a_bot "B"
         (fresh (two_positions [None]) monday_10h))
  = Returned PyNone
  /\ fst (close_position_by_comment Last_version1 a_bot "B"
            (fresh (two_positions [done]) monday_10h))
     = Returned (PyResult (mkResult TRADE_RETCODE_DONE)).
Proof.
  assert (H : forall q, In q [position_A] -> Pos.comment q <> "B").
  { intros q [<-|[]]; intros E; discriminate E. }
  split.
  - exact (close_outcome_by_reply Last_version a_bot
             (fresh (two_positions [None]) monday_10h)
             [position_A] [] position_B
             (tick := scenario_quote) (info := scenario_info)
             eq_refl H eq_refl eq_refl eq_refl).
  - exact (close_outcome_by_reply Last_version1 a_bot
             (fresh (two_positions [done]) monday_10h)
             [position_A] [] position_B
             (tick := scenario_quote) (info := scenario_info)
             eq_refl H eq_refl eq_refl eq_refl).
Defined.

(* ================================================================== *)
(** * Further properties: the retry loop *)

Section RetryBounds.
Context {F B : Type}.
Variable p : pyobj -> bool.
Variable fn : M (World F B) pyobj.
Hypothesis fn_slept : forall w, slept (snd (fn w)) = slept w.
Hypothesis fn_calls :
  forall w, length (calls (snd (fn w))) = S (length (calls w)).

Lemma retrying_runs (n : nat) :
  forall w,
  exists waits,
    (waits <= n)%nat
    /\ slept (snd (retrying p (S n) fn w)) = (slept w + waits)%nat
    /\ length (calls (snd (retrying p (S n) fn w)))
       = (length (calls w) + waits + 1)%nat.
Proof.
  induction n as [|n IH]; intros w.
  - exists 0%nat. simpl.
    pose proof (fn_slept w) as Hs. pose proof (fn_calls w) as Hc.
    destruct (fn w) as [[r|e] w1]; simpl in *;
      [destruct (p r)|]; simpl; repeat split; lia.
  - pose proof (fn_slept w) as Hs. pose proof (fn_calls w) as Hc.
    change (retrying p (S (S n)) fn w)
      with (match fn w with
            | (Raised e, w1) => (Raised e, w1)
            | (Returned result, w1) =>
                if p result then retrying p (S n) fn (sleep 1 w1)
                else (Returned result, w1)
            end).
    destruct (fn w) as [[r|e] w1]; simpl in Hs, Hc.
    + destruct (p r).
      * destruct (IH (sleep 1 w1)) as (k & Hk & Sk & Ck).
        exists (S k). rewrite Sk, Ck. simpl. repeat split; lia.
      * exists 0%nat. simpl. repeat split; lia.
    + exists 0%nat. simpl. repeat split; lia.
Qed.

Lemma retrying_result (n : nat) :
  forall w r, fst (retrying p n fn w) = Returned r -> p r = false.
Proof.
  induction n as [|n IH]; intros w r; simpl; [discriminate|].
  destruct (fn w) as [[r0|e] w1]; simpl; [|discriminate].
  destruct (p r0) eqn:E.
  - destruct n; [discriminate|]. apply IH.
  - simpl. intros [= <-]. exact E.
Qed.

End RetryBounds.

(** X9: the decorator, around any operation that does not wait itself:
    the operation runs once more than the wrapper waits, a second each
    time and at most four times, so at most five runs; and a value the
    wrapper returns is never one that [is_requote_error] accepts. *)
Theorem retry_policy_bounds {F B : Type} (fn : M (World F B) pyobj) :
  (forall w, slept (snd (fn w)) = slept w) ->
  (forall w, length (calls (snd (fn w))) = S (length (calls w))) ->
  forall w,
    (exists waits,
        (waits <= 4)%nat
        /\ slept (snd (retry fn w)) = (slept w + waits)%nat
        /\ length (calls (snd (retry fn w)))
           = (length (calls w) + waits + 1)%nat)
    /\ (forall r, fst (retry fn w) = Returned r -> is_requote_error r = false).
Proof.
  intros Hs Hc w. split.
  - apply (retrying_runs is_requote_error fn Hs Hc 4 w).
  - apply retrying_result.
Qed.

Lemma retry_policy_bounds_witness :
  slept (snd (retry (returns_failure 2) (fresh requote_then_done monday_10h)))
  = 2%nat
  /\ length (calls (snd (retry (returns_failure 2)
                           (fresh requote_then_done monday_10h))))
     = 3%nat
  /\ exists waits,
       (waits <= 4)%nat
       /\ slept (snd (retry (returns_failure 9)
                        (fresh requote_then_done monday_10h)))
          = (0 + waits)%nat
       /\ length (calls (snd (retry (returns_failure 9)
                                (fresh requote_then_done monday_10h))))
          = (0 + waits + 1)%nat.
Proof.
  split; [reflexivity|]. split; [reflexivity|].
  apply (retry_policy_bounds (returns_failure 9)
           (fun w => eq_refl)
           (fun w => eq_trans (length_app (calls w) [CallClose "op"])
                              (Nat.add_1_r (length (calls w))))
           (fresh requote_then_done monday_10h)).
Defined.

(* ================================================================== *)
(** * Further properties: the level strategies *)

Lemma rev_head_exists {A} (l : list A) (x : A) :
  exists last tl, (rev l ++ [x])%list = last :: tl.
Proof.
  destruct (rev l) as [|y ys]; simpl; eauto.
Qed.

Section TrailingEdges.
Context {F : Type} {PF : PyFloat F}.
Import DSLTP.

(** X10: in any arithmetic, [adjust_trailing_stop] assigns nothing but
    [stop_loss]. Without data from the terminal it raises a [TypeError];
    with an empty history it raises an [IndexError] for a long or a
    short position and returns for any other action, the history being
    indexed only behind the test of the action; in these cases the
    object is unchanged. With at least one bar it returns. *)
Theorem adjust_trailing_stop_edges (rates : option (list (Rate F)))
        (self : t F) :
  snd (adjust_trailing_stop rates self)
  = set_stop_loss self (stop_loss (snd (adjust_trailing_stop rates self)))
  /\ (rates = None ->
      adjust_trailing_stop rates self
      = (Raised (TypeError "'NoneType' object is not iterable"), self))
  /\ (rates = Some [] ->
      adjust_trailing_stop rates self
      = (if (action self =? "BUY")%string || (action self =? "SELL")%string
         then Raised (IndexError "list index out of range")
         else Returned tt, self))
  /\ (forall bar bars, rates = Some (bar :: bars) ->
      fst (adjust_trailing_stop rates self) = Returned tt).
Proof.
  split; [|split; [|split]].
  - unfold adjust_trailing_stop, get_price_data, bind, get, put, and_then,
      item_last, ret, raise.
    destruct rates as [rs|]; simpl; [|destruct self; reflexivity].
    destruct (rev (map (fun rate => close rate) rs)) as [|last tl];
      repeat (simpl;
              match goal with
              | |- context [if ?b then _ else _] => destruct b
              end);
      simpl; destruct self; reflexivity.
  - intros ->. reflexivity.
  - intros ->.
    unfold adjust_trailing_stop, get_price_data, bind, get, put, and_then,
      item_last, ret, raise. simpl.
    destruct (action self =? "BUY")%string; simpl; [reflexivity|].
    destruct (action self =? "SELL")%string; reflexivity.
  - intros bar bars ->.
    unfold adjust_trailing_stop, get_price_data, bind, get, put, and_then,
      item_last, ret, raise. simpl.
    destruct (rev_head_exists (map (fun rate => close rate) bars) (close bar))
      as (last & tl & ->).
    repeat (simpl;
            match goal with
            | |- context [if ?b then _ else _] => destruct b
            end);
    reflexivity.
Qed.

End TrailingEdges.

Section VolatilityFacts.
Context {F : Type} {PF : PyFloat F}.
Import DSLTP Strategies.

Lemma average_true_range_raises ext (rates : option (list (Rate F)))
      (self : t F) :
  exists e,
    calculate_average_true_range Last_version ext rates self = (Raised e, self).
Proof.
  unfold calculate_average_true_range, get_price_data, attribute_of_each,
    ta_call, bind, ret, raise.
  destruct rates as [[|bar bars]|]; simpl; eauto.
Qed.

Lemma moving_average_raises ext (rates : option (list (Rate F))) (self : t F) :
  exists e,
    calculate_moving_average Last_version ext rates self = (Raised e, self).
Proof.
  unfold calculate_moving_average, get_price_data, attribute_of_each,
    ta_call, bind, ret, raise.
  destruct rates as [[|bar bars]|]; simpl; eauto.
Qed.

(** X11: [adjust_stop_loss_take_profit] sets no level, in either
    revision and whatever the terminal and the module [ta] give: it
    always raises and leaves the object as it was. In [Last_version.py]
    already [calculate_average_true_range] and
    [calculate_moving_average] always raise: they read [high], [low]
    and [close] off the floats of [get_price_data], and with no bar to
    read they reach the module [ta], which is not imported. *)
Theorem volatility_levels_are_never_set :
  (forall rev ext_atr ext_ma (rates : option (list (Rate F))) (self : t F),
      exists e,
        adjust_stop_loss_take_profit rev ext_atr ext_ma rates self
        = (Raised e, self))
  /\ (forall ext (rates : option (list (Rate F))) (self : t F),
         exists e,
           calculate_average_true_range Last_version ext rates self
           = (Raised e, self))
  /\ (forall ext (rates : option (list (Rate F))) (self : t F),
         exists e,
           calculate_moving_average Last_version ext rates self
           = (Raised e, self)).
Proof.
  split; [|split; [apply average_true_range_raises|apply moving_average_raises]].
  intros rev ext_atr ext_ma rates self.
  unfold adjust_stop_loss_take_profit, calculate_average_true_range,
    calculate_moving_average, get_price_data, attribute_of_each, ta_call,
    bind, ret, raise.
  destruct rates as [[|bar bars]|]; simpl; eauto.
  destruct rev; simpl; eauto.
  destruct ext_atr as [atr|e]; simpl; eauto.
  destruct ext_ma as [ma|e]; simpl; eauto.
Qed.

End VolatilityFacts.

Section FixedLevels.
Context {B : Type} {T : Terminal float B}.
Import DSLTP Strategies.

(** X12: in binary64, the arithmetic of the code, with a quote and
    symbol data, and an ask, a point size and pip counts that are finite
    and not negative, [calculate_fixed_sl_tp] returns the rounded
    [ask - stop_loss_pips * point] and [ask + take_profit_pips * point],
    a stop at or below the ask and a target at or above it, and changes
    nothing. The side of the position plays no part: a short position
    gets the same pair as a long one. *)
Theorem fixed_levels_bracket_the_ask (b : B) (self : t float)
        (stop_loss_pips take_profit_pips : float) (tick : Tick float)
        (info : SymbolInfo float) :
  symbol_info_tick b (symbol self) = Some tick ->
  symbol_info b (symbol self) = Some info ->
  Line.amount (ask tick) = true -> Line.amount (point info) = true ->
  Line.amount stop_loss_pips = true -> Line.amount take_profit_pips = true ->
  calculate_fixed_sl_tp b stop_loss_pips take_profit_pips self
  = (Returned ((ask tick - stop_loss_pips * point info)%float,
               (ask tick + take_profit_pips * point info)%float), self)
  /\ (ask tick - stop_loss_pips * point info <=? ask tick)%float = true
  /\ (ask tick <=? ask tick + take_profit_pips * point info)%float = true.
Proof.
  intros Ht Hi Ha Hpt Hs Hp. split; [|split].
  - unfold calculate_fixed_sl_tp, bind, get, attr, ret. simpl.
    rewrite Ht. simpl. rewrite Hi. reflexivity.
  - apply (@Rounding.float_sub_le (ask tick) _ Ha).
    apply Rounding.float_mul_amounts; assumption.
  - apply (@Rounding.float_add_ge (ask tick) _ Ha).
    apply Rounding.float_mul_amounts; assumption.
Qed.

End FixedLevels.

(** A short position at an ask of 1.1050, 50 and 100 pips of 0.0001:
    the stop is the double nearest 1.1, below the ask. *)
Lemma fixed_levels_bracket_the_ask_witness :
  fst (Strategies.calculate_fixed_sl_tp requote_then_done 50%float 100%float
         short_levels)
  = Returned ((1.1050 - 50 * 0.0001)%float, (1.1050 + 100 * 0.0001)%float)
  /\ (1.1050 - 50 * 0.0001 <=? 1.1050)%float = true
  /\ (1.1050 - 50 * 0.0001)%float = 1.1%float.
Proof.
  destruct (fixed_levels_bracket_the_ask (T := scripted float)
              requote_then_done short_levels 50%float 100%float
              (tick := scenario_quote) (info := scenario_info)
              eq_refl eq_refl eq_refl eq_refl eq_refl eq_refl)
    as (E & Hsl & _).
  split; [rewrite E; reflexivity|]. split; [exact Hsl|reflexivity].
Defined.

(* ================================================================== *)
(** * Further properties: the redefined trailing stop *)

Section Redefinition.
Context {F : Type} {PF : PyFloat F}.
Import DSLTP Strategies.

(** X13: [modify_sl_tp] always raises and never calls the terminal,
    whether the module [MetaTrader5] has an [order_modify] or not: its
    first argument is the unbound name [order]. So the
    [adjust_trailing_stop] that stands in [Last_version.py], which ends
    with that call, raises on every call; the object is then as the
    first definition leaves it, with the stop it has assigned. *)
Theorem trailing_stop_redefinition_raises
        (order_modify : option (Z -> F -> F -> outcome (option OrderSendResult)))
        (rates : option (list (Rate F))) (self : t F) :
  (exists e, modify_sl_tp order_modify self = (Raised e, self))
  /\ (exists e,
         fst (adjust_trailing_stop_redefined
                (fun obj => fst (modify_sl_tp order_modify obj)) rates self)
         = Raised e)
  /\ snd (adjust_trailing_stop_redefined
            (fun obj => fst (modify_sl_tp order_modify obj)) rates self)
     = snd (adjust_trailing_stop rates self).
Proof.
  assert (H : forall obj, exists e,
               modify_sl_tp order_modify obj = (Raised e, obj)).
  { intros obj. unfold modify_sl_tp, bind, get, raise.
    destruct order_modify; eauto. }
  split; [apply H|].
  unfold adjust_trailing_stop_redefined, bind.
  destruct (adjust_trailing_stop rates self) as [[[]|e] obj]; simpl.
  - destruct (H obj) as [e ->]. simpl. split; [eauto|reflexivity].
  - split; [eauto|reflexivity].
Qed.
End Redefinition.

(* ================================================================== *)
(** * Further properties: reading a payload back *)

Module ParseFacts.
Import Re ReFacts SignalFacts.

Lemma separators_app s1 s2 : separators (s1 ++ s2) = (separators s1 + separators s2)%nat.
Proof. induction s1 as [|c s1 IH]; simpl; [reflexivity|rewrite IH; lia]. Qed.

Section Greedy.
Variable A : Type.

Lemma repeat_greedy_none cls (k : string -> option A) : forall s,
  (forall y t, all_chars cls y = true -> s = y ++ t -> k t = None) ->
  repeat_greedy cls s k = None.
Proof.
  induction s as [|c s IH]; intros H; simpl.
  - apply (H "" ""); reflexivity.
  - destruct (cls c) eqn:Hc.
    + rewrite IH.
      * apply (H "" (String c s)); reflexivity.
      * intros y t Hy E. apply (H (String c y) t); simpl.
        -- rewrite Hc. exact Hy.
        -- rewrite E. reflexivity.
    + apply (H "" (String c s)); reflexivity.
Qed.

Lemma repeat_greedy_pick cls (k : string -> option A) s v : forall x,
  all_chars cls x = true ->
  (forall y t, y <> "" -> all_chars cls y = true -> s = y ++ t -> k t = None) ->
  k s = Some v ->
  repeat_greedy cls (x ++ s) k = Some v.
Proof.
  induction x as [|c x IH]; intros Hx Hlong Hk; simpl.
  - destruct s as [|c s]; simpl; [exact Hk|].
    destruct (cls c) eqn:Hc; [|exact Hk].
    rewrite repeat_greedy_none; [exact Hk|].
    intros y t Hy E. apply (Hlong (String c y) t); simpl.
    + discriminate.
    + rewrite Hc. exact Hy.
    + rewrite E. reflexivity.
  - simpl in Hx. apply andb_prop in Hx. destruct Hx as [Hc Hx].
    rewrite Hc. rewrite (IH Hx Hlong Hk). reflexivity.
Qed.
End Greedy.

Lemma all_chars_app cls s1 s2 :
  all_chars cls (s1 ++ s2) = all_chars cls s1 && all_chars cls s2.
Proof.
  induction s1 as [|c s1 IH]; simpl; [reflexivity|].
  rewrite IH. apply andb_assoc.
Qed.

Lemma separators_none (cls : ascii -> bool) :
  (forall c, cls c = true -> (code c =? 59)%nat = false) ->
  forall s, all_chars cls s = true -> separators s = 0%nat.
Proof.
  intros Hcls. induction s as [|c s IH]; simpl; [reflexivity|].
  intros H. apply andb_prop in H. destruct H as [Hc Hs].
  rewrite (Hcls c Hc), (IH Hs). reflexivity.
Qed.

Lemma plain_not_semi c : plain_char c = true -> (code c =? 59)%nat = false.
Proof.
  unfold plain_char. intros H. apply andb_prop in H. destruct H as [H _].
  apply negb_true_iff in H. exact H.
Qed.

Lemma plain_is_dot s : all_chars plain_char s = true -> all_chars is_dot s = true.
Proof.
  induction s as [|c s IH]; simpl; [reflexivity|].
  intros H. apply andb_prop in H. destruct H as [Hc Hs].
  rewrite (IH Hs), andb_true_r. unfold plain_char in Hc.
  apply andb_prop in Hc. exact (proj2 Hc).
Qed.

Lemma word_not_semi c : is_word c = true -> (code c =? 59)%nat = false.
Proof.
  destruct c as [[] [] [] [] [] [] [] []]; vm_compute; congruence.
Qed.

Lemma digit_is_word c : is_digit c = true -> is_word c = true.
Proof. unfold is_word. intros ->. reflexivity. Qed.

Lemma digit_not_underscore c : is_digit c = true -> Ascii.eqb "_" c = false.
Proof.
  destruct c as [[] [] [] [] [] [] [] []]; vm_compute; congruence.
Qed.

Lemma app_empty s : s ++ "" = s.
Proof.
  induction s as [|c s IH]; simpl; [reflexivity|rewrite IH; reflexivity].
Qed.

Lemma consumed_all s : consumed s "" = s.
Proof.
  pose proof (consumed_app s "") as H.
  rewrite app_empty in H. exact H.
Qed.

(** A proper suffix of a text that starts with the separator holds one
    separator less. *)
Lemma separators_suffix s y t :
  y <> "" -> String ";" s = y ++ t -> (separators t <= separators s)%nat.
Proof.
  destruct y as [|c y]; [congruence|]. intros _ E. simpl in E.
  injection E as _ ->. rewrite separators_app. lia.
Qed.

Section Continuations.
Variable A : Type.
Variable k : string -> groups -> option A.

Lemma closed_re_needs_separator t g v :
  run closed_re t g k = Some v -> (1 <= separators t)%nat.
Proof.
  intros H. apply run_sound in H. destruct H as (s1 & s2 & g1 & -> & Hm & _).
  apply matches_cat_inv in Hm.
  destruct Hm as (l & x & g2 & g3 & -> & _ & Hl & _).
  apply matches_lit_inv in Hl. destruct Hl as [-> _].
  rewrite !separators_app. simpl. lia.
Qed.

Lemma open_re_needs_separators t g v :
  run open_re t g k = Some v -> (2 <= separators t)%nat.
Proof.
  intros H. apply run_sound in H. destruct H as (s1 & s2 & g1 & -> & Hm & _).
  apply matches_cat_inv in Hm.
  destruct Hm as (l & x & g2 & g3 & -> & _ & Hl & Hx).
  apply matches_lit_inv in Hl. destruct Hl as [-> _].
  apply matches_cat_inv in Hx.
  destruct Hx as (o & y & g4 & g5 & -> & _ & _ & Hy).
  apply matches_cat_inv in Hy.
  destruct Hy as (l2 & z & g6 & g7 & -> & _ & Hl2 & _).
  apply matches_lit_inv in Hl2. destruct Hl2 as [-> _].
  rewrite !separators_app. simpl. lia.
Qed.

Lemma run_group_star cls x s caps v :
  all_chars cls x = true ->
  (forall y t g, y <> "" -> all_chars cls y = true -> s = y ++ t ->
                 k t g = None) ->
  k s (caps ++ [Some x])%list = Some v ->
  run (Group (Star cls)) (x ++ s) caps k = Some v.
Proof.
  intros Hx Hlong Hk. simpl. apply repeat_greedy_pick.
  - exact Hx.
  - intros y t Hy Hc E. apply (Hlong y t _ Hy Hc E).
  - rewrite consumed_app. exact Hk.
Qed.

Lemma run_group_plus cls x s caps v :
  some_of cls x ->
  (forall y t g, y <> "" -> all_chars cls y = true -> s = y ++ t ->
                 k t g = None) ->
  k s (caps ++ [Some x])%list = Some v ->
  run (Group (Plus cls)) (x ++ s) caps k = Some v.
Proof.
  intros [Hne Hx] Hlong Hk. destruct x as [|c x]; [congruence|].
  simpl in Hx. apply andb_prop in Hx. destruct Hx as [Hc Hx].
  simpl. rewrite Hc. apply repeat_greedy_pick.
  - exact Hx.
  - intros y t Hy Hcy E. apply (Hlong y t _ Hy Hcy E).
  - change (String c (x ++ s)) with (String c x ++ s).
    rewrite consumed_app. exact Hk.
Qed.
End Continuations.

Lemma digits_no_underscore : forall d y t,
  all_chars is_digit d = true -> d = y ++ t -> strip "_" t = None.
Proof.
  intros d y t Hd ->. rewrite all_chars_app in Hd.
  apply andb_prop in Hd. destruct Hd as [_ Ht].
  destruct t as [|c t]; [reflexivity|].
  simpl in Ht. apply andb_prop in Ht. destruct Ht as [Hc _].
  cbn [strip]. rewrite (digit_not_underscore c Hc). reflexivity.
Qed.

Lemma repeat_greedy_all (A : Type) cls (k : string -> option A) x v :
  all_chars cls x = true -> k "" = Some v -> repeat_greedy cls x k = Some v.
Proof.
  intros Hx Hk. rewrite <- (app_empty x). apply repeat_greedy_pick.
  - exact Hx.
  - intros y t Hy _ E. destruct y; [congruence|discriminate E].
  - exact Hk.
Qed.

Lemma run_tag tag caps :
  is_tag tag ->
  run (Opt tag_re) tag caps (fun _ c => Some c) = Some (caps ++ [Some tag])%list.
Proof.
  intros (w & d & -> & [Hw Hws] & [Hd Hds]).
  destruct w as [|c w]; [congruence|]. destruct d as [|c' d]; [congruence|].
  simpl in Hws, Hds. apply andb_prop in Hws, Hds.
  destruct Hws as [Hc Hws]. destruct Hds as [Hc' Hds].
  unfold tag_re. cbn [run append]. rewrite Hc.
  rewrite repeat_greedy_pick
    with (v := (caps ++ [Some (String c (w ++ String "_" (String c' d)))])%list).
  - reflexivity.
  - exact Hws.
  - intros y t Hy _ E. destruct y as [|cy y]; [congruence|].
    simpl in E. injection E as _ E.
    assert (Hall : all_chars is_digit (String c' d) = true)
      by (simpl; rewrite Hc', Hds; reflexivity).
    rewrite (@digits_no_underscore _ _ _ Hall E). reflexivity.
  - change (strip "_" (String "_" (String c' d))) with (Some (String c' d)).
    cbv iota beta. rewrite Hc'. apply repeat_greedy_all; [exact Hds|].
    rewrite consumed_all. reflexivity.
Qed.

Lemma run_closing position_closed caps :
  match position_closed with Some tag => is_tag tag | None => True end ->
  run (Opt tag_re) (tag_text position_closed) caps (fun _ c => Some c)
  = Some (caps ++ [position_closed])%list.
Proof.
  destruct position_closed as [tag|]; simpl tag_text.
  - apply run_tag.
  - intros _. reflexivity.
Qed.

Lemma word_or_slash_not_semi c :
  is_word_or_slash c = true -> (code c =? 59)%nat = false.
Proof.
  destruct c as [[] [] [] [] [] [] [] []]; vm_compute; congruence.
Qed.

(** A run of one class stops before the separator. *)
Lemma stops_at_separator (A : Type) cls (k : string -> groups -> option A) s :
  (forall c, cls c = true -> (code c =? 59)%nat = false) ->
  forall y t g, y <> "" -> all_chars cls y = true -> String ";" s = y ++ t ->
                k t g = None.
Proof.
  intros Hcls y t g Hy Hc E. destruct y as [|c y]; [congruence|].
  simpl in E, Hc. injection E as <- _.
  apply andb_prop in Hc. destruct Hc as [Hc _].
  apply Hcls in Hc. discriminate Hc.
Qed.

Lemma run_lit (A : Type) l s caps (k : string -> groups -> option A) :
  run (Lit l) (l ++ s) caps k = k s caps.
Proof. cbn [run]. rewrite strip_app. reflexivity. Qed.

Lemma run_cat (A : Type) r1 r2 s caps (k : string -> groups -> option A) :
  run (r1 +++ r2) s caps k
  = run r1 s caps (fun s1 caps1 => run r2 s1 caps1 k).
Proof. reflexivity. Qed.

Lemma tag_text_no_separator position_closed :
  match position_closed with Some tag => is_tag tag | None => True end ->
  separators (tag_text position_closed) = 0%nat.
Proof.
  destruct position_closed as [tag|]; simpl; [|reflexivity].
  intros (w & d & -> & [_ Hw] & [_ Hd]).
  apply (separators_none is_word word_not_semi).
  rewrite !all_chars_app, Hw. simpl.
  clear Hw. induction d as [|c d IH]; simpl; [reflexivity|].
  simpl in Hd. apply andb_prop in Hd. destruct Hd as [Hc Hd].
  rewrite (digit_is_word c Hc). exact (IH Hd).
Qed.

Lemma pattern_reads_back a sy v o position_closed :
  some_of is_word a -> some_of is_word_or_slash sy ->
  all_chars plain_char v = true -> all_chars plain_char o = true ->
  match position_closed with Some tag => is_tag tag | None => True end ->
  re_match pattern
    ("action=" ++ a ++ ";symbol=" ++ sy ++ ";volume=" ++ v
     ++ ";open_position=" ++ o ++ ";position_closed="
     ++ tag_text position_closed)
  = Some [Some a; Some sy; Some v; Some o; position_closed].
Proof.
  intros Ha Hsy Hv Ho Hpc.
  pose proof (tag_text_no_separator position_closed Hpc) as Htag.
  pose proof (separators_none plain_char plain_not_semi o Ho) as Hos.
  unfold re_match.
  change pattern with
    (Lit "action=" +++ Group (Plus is_word) +++ Lit ";symbol=" +++
     Group (Plus is_word_or_slash) +++ Lit ";volume=" +++
     Group (Star is_dot) +++ open_re).
  rewrite run_cat, run_lit, run_cat. apply run_group_plus.
  { exact Ha. }
  { apply stops_at_separator. exact word_not_semi. }
  rewrite run_cat, run_lit, run_cat. apply run_group_plus.
  { exact Hsy. }
  { apply stops_at_separator. exact word_or_slash_not_semi. }
  rewrite run_cat, run_lit, run_cat. apply run_group_star.
  { apply plain_is_dot. exact Hv. }
  { intros y t g Hy _ E.
    destruct (run open_re t g (fun _ caps => Some caps)) eqn:R; [|reflexivity].
    apply open_re_needs_separators in R.
    apply (@separators_suffix _ _ _ Hy) in E.
    simpl in E. rewrite separators_app in E. simpl in E.
    rewrite Hos, Htag in E. lia. }
  unfold open_re at 1. rewrite run_cat, run_lit, run_cat.
  apply run_group_star.
  { apply plain_is_dot. exact Ho. }
  { intros y t g Hy _ E.
    destruct (run closed_re t g (fun _ caps => Some caps)) eqn:R; [|reflexivity].
    apply closed_re_needs_separator in R.
    apply (@separators_suffix _ _ _ Hy) in E.
    simpl in E. rewrite Htag in E. lia. }
  unfold closed_re. rewrite run_cat, run_lit.
  rewrite (run_closing position_closed _ Hpc). reflexivity.
Qed.

End ParseFacts.

(** X14: [from_webhook] reads back the payload that spells a signal
    out: when the action is a word, the symbol a word with slashes, the
    volume and the position tag hold neither [;] nor a line feed, and
    the tag to close is absent or a word, an underscore and a number,
    the parsed signal is that signal, field by field; the greedy groups
    of the pattern stop at the separators. [webhook_handler] then
    answers 200 and passes the normalized signal on. *)
Theorem from_webhook_reads_back (signal : TradingSignal) :
  readable signal ->
  from_webhook (webhook_text signal) = inr signal
  /\ webhook_handler (webhook_text signal)
     = Returned (mkResponse 200 "Signal received",
                 Some (normalize_action signal)).
Proof.
  intros H.
  assert (E : from_webhook (webhook_text signal) = inr signal).
  { destruct signal as [a sy v o pc]. unfold readable, webhook_text in *.
    cbn [action symbol volume open_position position_closed] in *.
    destruct H as (Ha & Hsy & Hv & Ho & Hpc).
    unfold from_webhook.
    rewrite (@ParseFacts.pattern_reads_back _ _ _ _ _ Ha Hsy Hv Ho Hpc).
    reflexivity. }
  split; [exact E|]. unfold webhook_handler. rewrite E. reflexivity.
Qed.

Lemma from_webhook_reads_back_witness :
  from_webhook
    "action=close;symbol=EUR/USD;volume=0.10;open_position=;position_closed=Long_7"
  = inr close_signal.
Proof.
  refine (proj1 (@from_webhook_reads_back close_signal _)).
  unfold readable, some_of, is_tag. simpl.
  repeat split; try (intros C; discriminate C).
  exists "Long", "7". repeat split; intros C; discriminate C.
Defined.
